(** * Test-strip cropper: a shallow embedding of [app/cropper.py]

    The development follows [crop_test_strip] line by line.  Python's
    [float] is IEEE-754 binary64; it is modelled by the Standard
    Library's executable specification [SpecFloat] at precision 53 and
    maximal exponent 1024, so every rounding of the source is present in
    the model.  Python's [int] is [Z].  The OpenCV primitives the
    function calls are an interface ([OpenCV]); the function is
    parametric in it.

    [crop_test_strip_any] extends the function to the arrays that are
    no colour images, on which it raises.

    The utilities of the same file and the two endpoints of
    [app/main.py] that call them follow, over a second interface
    ([Runtime]) for the codecs, the disk and the interpreter. *)

From Stdlib Require Import ZArith List Bool Lia String.
From Stdlib Require Import SpecFloat Ascii DecimalString.
Import ListNotations.
Local Open Scope Z_scope.

(** ** Exceptions and the result monad *)

Inductive exn : Type :=
| ValueError (msg : string)
| ZeroDivisionError
| OverflowError.

Inductive result (A : Type) : Type :=
| Ok (a : A)
| Raise (e : exn).
Arguments Ok {A} a.
Arguments Raise {A} e.

Definition bind {A B : Type} (c : result A) (k : A -> result B) : result B :=
  match c with
  | Ok a => k a
  | Raise e => Raise e
  end.

Notation "x <- c ;; k" := (bind c (fun x => k))
  (at level 61, c at next level, right associativity).

Fixpoint foldM {A S : Type} (step : S -> A -> result S) (l : list A) (s : S)
  : result S :=
  match l with
  | [] => Ok s
  | a :: l' => s' <- step s a ;; foldM step l' s'
  end.

(** ** Python numbers *)

Module Py.

Definition prec : Z := 53.
Definition emax : Z := 1024.

Definition float : Type := spec_float.

(** [float(n)] for an [int]: round to nearest, ties to even.  (Python
    raises [OverflowError] from [2^1024] on; here it is the
    infinity.) *)
Definition of_int (n : Z) : float := binary_normalize prec emax n 0 false.

Definition fmul : float -> float -> float := SFmul prec emax.
Definition fdiv : float -> float -> float := SFdiv prec emax.
Definition flt : float -> float -> bool := SFltb.
Definition fle : float -> float -> bool := SFleb.
Definition feq : float -> float -> bool := SFeqb.
Definition fgt (a b : float) : bool := SFltb b a.

(** An [int] as an operand of the true division of two [int]s: the
    integer itself, not yet rounded.  [SFdiv] shifts the dividend until
    the quotient has the digits it needs and rounds once, so the
    quotient of two such operands is the correctly rounded quotient of
    the integers, which is what Python's [int / int] returns. *)
Definition int_operand (n : Z) : float :=
  match n with
  | Z0 => S754_zero false
  | Zpos p => S754_finite false p 0
  | Zneg p => S754_finite true p 0
  end.

(** A decimal literal [n/d] denotes the double nearest to it. *)
Definition literal (n d : Z) : float := fdiv (int_operand n) (int_operand d).

(** [a / b] on two [int]s.  (Python raises [OverflowError] where the
    quotient is beyond the doubles, from a dividend of [2^1024] on;
    here it is the infinity.) *)
Definition int_truediv (a b : Z) : result float :=
  if b =? 0 then Raise ZeroDivisionError
  else Ok (fdiv (int_operand a) (int_operand b)).

(** [a / b] for a [float] and an [int]: the [int] is converted
    first. *)
Definition float_truediv_int (a : float) (b : Z) : result float :=
  if b =? 0 then Raise ZeroDivisionError
  else Ok (fdiv a (of_int b)).

(** [a * c] for an [int] and a [float]: the [int] is converted
    first. *)
Definition int_mul_float (a : Z) (c : float) : float :=
  fmul (of_int a) c.

(** [int(f)]: truncation towards zero. *)
Definition int_of_float (f : float) : result Z :=
  match f with
  | S754_nan => Raise (ValueError "cannot convert float NaN to integer")
  | S754_infinity _ => Raise OverflowError
  | S754_zero _ => Ok 0
  | S754_finite s m e => Ok (cond_Zopp s (Z.shiftl (Zpos m) e))
  end.

(** Index normalisation of a slice bound against a length. *)
Definition slice_index (len i : Z) : Z :=
  if i <? 0 then Z.max 0 (i + len) else Z.min i len.

(** [l[a:b]] *)
Definition slice {A : Type} (l : list A) (a b : Z) : list A :=
  let len := Z.of_nat (List.length l) in
  let a' := slice_index len a in
  let b' := slice_index len b in
  firstn (Z.to_nat (b' - a')) (skipn (Z.to_nat a') l).

Definition slice_len (len a b : Z) : Z :=
  Z.max 0 (slice_index len b - slice_index len a).

End Py.

(** ** Images *)

Definition pixel : Type := (Z * Z * Z)%type.

(** A BGR image as [numpy] holds it: [shape = (rows, ncols, 3)].
    This is the colour image the docstring asks for and the decoder
    produces; the arrays of other shapes are in [np_array] below.  The
    record carries the width beside the rows, so that an image without
    rows has one; in a [numpy] array every row has that width
    ([rectangular] below). *)
Record ndarray : Type := mk_ndarray {
  ncols : nat;
  rows : list (list pixel)
}.

Definition shape0 (a : ndarray) : Z := Z.of_nat (List.length (rows a)).
Definition shape1 (a : ndarray) : Z := Z.of_nat (ncols a).
Definition size (a : ndarray) : Z := shape0 a * shape1 a * 3.

(** [a[y1:y2, x1:x2]] *)
Definition crop (a : ndarray) (y1 y2 x1 x2 : Z) : ndarray :=
  {| ncols := Z.to_nat (Py.slice_len (shape1 a) x1 x2);
     rows := map (fun r => Py.slice r x1 x2) (Py.slice (rows a) y1 y2) |}.

(** ** The metadata dictionary *)

Definition rect : Type := (Z * Z * Z * Z)%type.

Record metadata : Type := mk_metadata {
  success : bool;
  original_size : Z * Z;            (* width, height *)
  detection_method : string;
  message : string;
  bbox : option rect;               (* x, y, width, height *)
  cropped_size : option (Z * Z)     (* width, height *)
}.

Definition set_message (m : metadata) (s : string) : metadata :=
  {| success := success m; original_size := original_size m;
     detection_method := detection_method m; message := s;
     bbox := bbox m; cropped_size := cropped_size m |}.

(** ** Configuration *)

Definition MIN_AREA_RATIO : Py.float := Py.literal 1 100.
Definition MAX_AREA_RATIO : Py.float := Py.literal 95 100.
Definition MIN_ASPECT_RATIO : Py.float := Py.literal 15 10.
Definition MAX_ASPECT_RATIO : Py.float := Py.literal 15 1.
Definition CROP_MARGIN_PERCENT : Py.float := Py.literal 5 100.

(** ** The OpenCV primitives the function calls

    They are taken on colour images, where they do not raise; what
    [cv2.cvtColor] does on an array that is no colour image is part of
    [crop_test_strip_any] below. *)

Class OpenCV : Type := {
  Mat : Type;
  Contour : Type;
  cvtColor_BGR2GRAY : ndarray -> Mat;
  GaussianBlur : Mat -> Z * Z -> Z -> Mat;
  Canny : Mat -> Z -> Z -> Mat;
  dilate : Mat -> Z * Z -> Z -> Mat;
  findContours : Mat -> list Contour;
  boundingRect : Contour -> rect;
  contourArea : Contour -> Py.float
}.

(** ** [crop_test_strip] *)

Section Cropper.
Context {cv : OpenCV}.

(** Steps 1 to 3: the contours of the dilated edge map. *)
Definition contours_of (image : ndarray) : list Contour :=
  let gray := cvtColor_BGR2GRAY image in
  let blurred := GaussianBlur gray (5, 5) 0 in
  let edges := Canny blurred 50 150 in
  let edges := dilate edges (3, 3) 2 in
  findContours edges.

(** One contour through the two filters and the scorer: [None] is
    the source's [continue]. *)
Definition candidate (image_area : Z) (contour : Contour)
  : result (option (rect * Py.float)) :=
  let '(x, y, w, h) := boundingRect contour in
  let contour_area := w * h in
  area_ratio <- Py.int_truediv contour_area image_area ;;
  if Py.flt area_ratio MIN_AREA_RATIO || Py.fgt area_ratio MAX_AREA_RATIO
  then Ok None
  else
    aspect_ratio <- (if w >? 0 then Py.int_truediv h w
                     else Ok (Py.of_int 0)) ;;
    if Py.flt aspect_ratio MIN_ASPECT_RATIO
       || Py.fgt aspect_ratio MAX_ASPECT_RATIO
    then Ok None
    else
      let actual_area := contourArea contour in
      rectangularity <- (if contour_area >? 0
                         then Py.float_truediv_int actual_area contour_area
                         else Ok (Py.of_int 0)) ;;
      let score := Py.fmul area_ratio rectangularity in
      Ok (Some ((x, y, w, h), score)).

(** The loop state: [(best_contour, best_score)]. *)
Definition best_state : Type := (option rect * Py.float)%type.

Definition init_state : best_state := (None, Py.of_int 0).

Definition loop_body (image_area : Z) (st : best_state) (contour : Contour)
  : result best_state :=
  c <- candidate image_area contour ;;
  match c with
  | None => Ok st
  | Some (box, score) =>
      if Py.fgt score (snd st) then Ok (Some box, score) else Ok st
  end.

Definition find_best (image_area : Z) (contours : list Contour)
  : result best_state :=
  foldM (loop_body image_area) contours init_state.

(** Step 5, the margins. *)
Definition margin (side : Z) : result Z :=
  Py.int_of_float (Py.int_mul_float side CROP_MARGIN_PERCENT).

(** Step 5, the clamped corners [(x1, y1, x2, y2)]. *)
Definition crop_corners (width height : Z) (box : rect) : result rect :=
  let '(x, y, w, h) := box in
  margin_x <- margin w ;;
  margin_y <- margin h ;;
  let x1 := Z.max 0 (x - margin_x) in
  let y1 := Z.max 0 (y - margin_y) in
  let x2 := Z.min width (x + w + margin_x) in
  let y2 := Z.min height (y + h + margin_y) in
  Ok (x1, y1, x2, y2).

Definition invalid_image : exn :=
  ValueError "Invalid image: image is None or empty".

(** The dictionary of the two failure exits. *)
Definition failure_metadata (image : ndarray) (msg : string) : metadata :=
  {| success := false;
     original_size := (shape1 image, shape0 image);
     detection_method := "contour_detection";
     message := msg;
     bbox := None;
     cropped_size := None |}.

(** The dictionary of the success exit. *)
Definition success_metadata (image : ndarray) (c : rect) : metadata :=
  let '(x1, y1, x2, y2) := c in
  {| success := true;
     original_size := (shape1 image, shape0 image);
     detection_method := "contour_detection";
     message := "Test strip successfully detected and cropped";
     bbox := Some (x1, y1, x2 - x1, y2 - y1);
     cropped_size := Some (x2 - x1, y2 - y1) |}.

Definition crop_test_strip (image : option ndarray)
  : result (ndarray * metadata) :=
  match image with
  | None => Raise invalid_image
  | Some image =>
    if size image =? 0 then Raise invalid_image
    else
      let height := shape0 image in
      let width := shape1 image in
      let image_area := height * width in
      let metadata :=
        {| success := false;
           original_size := (width, height);
           detection_method := "contour_detection";
           message := "";
           bbox := None;
           cropped_size := None |} in
      let contours := contours_of image in
      match contours with
      | [] => Ok (image, set_message metadata "No contours found in image")
      | _ :: _ =>
        st <- find_best image_area contours ;;
        match fst st with
        | None =>
            Ok (image,
                set_message metadata "No suitable test strip contour found")
        | Some box =>
            c <- crop_corners width height box ;;
            let '(x1, y1, x2, y2) := c in
            let cropped := crop image y1 y2 x1 x2 in
            Ok (cropped,
                {| success := true;
                   original_size := (width, height);
                   detection_method := "contour_detection";
                   message := "Test strip successfully detected and cropped";
                   bbox := Some (x1, y1, x2 - x1, y2 - y1);
                   cropped_size := Some (x2 - x1, y2 - y1) |})
        end
      end
  end.

(** *** What the statements below speak about *)

(** [contour] got through both filters with bounding box [box] and
    score [s]. *)
Definition scored (image_area : Z) (contour : Contour)
           (box : rect) (s : Py.float) : Prop :=
  candidate image_area contour = Ok (Some (box, s)).

Definition area_ratio_of (image_area : Z) (contour : Contour) : Py.float :=
  let '(_, _, w, h) := boundingRect contour in
  Py.fdiv (Py.int_operand (w * h)) (Py.int_operand image_area).

Definition aspect_ratio_of (contour : Contour) : Py.float :=
  let '(_, _, w, h) := boundingRect contour in
  if w >? 0 then Py.fdiv (Py.int_operand h) (Py.int_operand w)
  else Py.of_int 0.

Definition outside (v lo hi : Py.float) : bool :=
  Py.flt v lo || Py.fgt v hi.

(** A bounding box as [cv2.boundingRect] returns it for a contour
    traced in an image of the given size. *)
Definition box_in_image (width height : Z) (box : rect) : Prop :=
  let '(x, y, w, h) := box in
  0 <= x /\ 0 <= y /\ 1 <= w /\ 1 <= h /\
  x + w <= width /\ y + h <= height.

(** The sides of the image are OpenCV [int]s. *)
Definition int_sides (image : ndarray) : Prop :=
  shape0 image < 2 ^ 31 /\ shape1 image < 2 ^ 31.

(** The extractor's contract on one image: every contour lies inside
    the image, and the image's sides are OpenCV [int]s. *)
Definition contours_in_image (image : ndarray) : Prop :=
  int_sides image /\
  Forall (fun c => box_in_image (shape1 image) (shape0 image)
                                (boundingRect c))
         (contours_of image).

(** The contract of [cv2.contourArea] on a contour: a binary64 value
    between zero and the area of the bounding box. *)
Definition area_within_box (contour : Contour) : Prop :=
  let '(_, _, w, h) := boundingRect contour in
  valid_binary Py.prec Py.emax (contourArea contour) = true /\
  Py.fle (Py.of_int 0) (contourArea contour) = true /\
  Py.fle (contourArea contour) (Py.of_int (w * h)) = true.

(** What one run reads off the primitives: the bounding box and the
    area of each contour, in the extractor's order. *)
Definition observations (image : ndarray) : list (rect * Py.float) :=
  map (fun c => (boundingRect c, contourArea c)) (contours_of image).

(** *** Loop invariants *)

(** Invariant of the loop for the selection: while nothing is
    selected the best score is still [0] and no survivor seen so far
    has a positive score; once something is selected, a survivor with
    a positive score has been seen. *)
Definition selection_inv (image_area : Z) (pre : list Contour)
           (st : best_state) : Prop :=
  match fst st with
  | None =>
      snd st = Py.of_int 0 /\
      forall c box s, In c pre -> scored image_area c box s ->
                      Py.fgt s (Py.of_int 0) = false
  | Some _ =>
      exists c box s, In c pre /\ scored image_area c box s /\
                      Py.fgt s (Py.of_int 0) = true
  end.

(** Invariant of the loop for the order of selection. *)
Definition greatest_inv (image_area : Z) (pre : list Contour)
           (st : best_state) : Prop :=
  (forall j c box s, nth_error pre j = Some c -> scored image_area c box s ->
                     Py.fgt s (snd st) = false) /\
  match fst st with
  | None => True
  | Some best =>
      exists i c, nth_error pre i = Some c /\
                  scored image_area c best (snd st) /\
                  forall j c' box' s',
                    (j < i)%nat -> nth_error pre j = Some c' ->
                    scored image_area c' box' s' ->
                    Py.feq s' (snd st) = false
  end.

End Cropper.

(** ** A reference instance of the primitives on point lists

    [boundingRect] and [contourArea] as OpenCV computes them on a
    polyline of integer points; the extractor is a stub that returns a
    prescribed contour list, as a test double would. *)

Module RefCV.

Definition point : Type := (Z * Z)%type.

Definition min_list (d : Z) (l : list Z) : Z := fold_left Z.min l d.
Definition max_list (d : Z) (l : list Z) : Z := fold_left Z.max l d.

Definition boundingRect (c : list point) : rect :=
  match c with
  | [] => (0, 0, 0, 0)
  | (px, py) :: c' =>
      let xs := map fst c' in
      let ys := map snd c' in
      let x0 := min_list px xs in
      let y0 := min_list py ys in
      (x0, y0, max_list px xs - x0 + 1, max_list py ys - y0 + 1)
  end.

(** Twice the signed area, by the shoelace sum over the closed
    polyline. *)
Fixpoint shoelace (first prev : point) (c : list point) : Z :=
  match c with
  | [] => fst prev * snd first - fst first * snd prev
  | p :: c' => fst prev * snd p - fst p * snd prev + shoelace first p c'
  end.

Definition contourArea (c : list point) : Py.float :=
  match c with
  | [] => Py.of_int 0
  | p :: c' => Py.fmul (Py.of_int (Z.abs (shoelace p p c'))) (Py.literal 1 2)
  end.

Definition stub (contours : list (list point)) : OpenCV :=
  Build_OpenCV unit (list point)
    (fun _ => tt) (fun _ _ _ => tt) (fun _ _ _ => tt) (fun _ _ _ => tt)
    (fun _ => contours) boundingRect contourArea.

Definition blank (w h : nat) : ndarray :=
  {| ncols := w; rows := repeat (repeat (0, 0, 0) w) h |}.

Definition rectangle (x y w h : Z) : list point :=
  [(x, y); (x + w - 1, y); (x + w - 1, y + h - 1); (x, y + h - 1)].

(** A 30 x 50 image and a strip-like contour in it. *)
Definition demo_image : ndarray := blank 30 50.
Definition demo_strip : list point := rectangle 10 10 5 30.

(** Two congruent strips side by side. *)
Definition left_strip : list point := rectangle 3 10 5 30.
Definition right_strip : list point := rectangle 20 10 5 30.

(** An image one pixel wide, and a contour in it that runs down ten
    pixels: its bounding box is 1 x 10 and it encloses no area. *)
Definition sliver_image : ndarray := blank 1 100.
Definition thin_line : list point := [(0, 0); (0, 9)].

(** The primitives of three runs: one strip, two congruent strips, and
    the thin line. *)
Definition demo_cv : OpenCV := stub [demo_strip].
Definition tie_cv : OpenCV := stub [left_strip; right_strip].
Definition sliver_cv : OpenCV := stub [thin_line].
Definition blank_cv : OpenCV := stub [].

(** What the run on the strip returns. *)
Definition demo_crop : ndarray := crop demo_image 9 41 10 15.
Definition demo_metadata : metadata :=
  {| success := true;
     original_size := (30, 50);
     detection_method := "contour_detection";
     message := "Test strip successfully detected and cropped";
     bbox := Some (10, 9, 5, 32);
     cropped_size := Some (5, 32) |}.

End RefCV.


(** Evaluates a contract on a concrete run. *)
Ltac contract :=
  unfold contours_in_image, int_sides, box_in_image, area_within_box;
  vm_compute; repeat constructor; discriminate.

(** ** What the further statements on [crop_test_strip] speak about *)

Section CropperViews.
Context {cv : OpenCV}.

(** [contour] gets through both filters. *)
Definition passes (image_area : Z) (contour : Contour) : bool :=
  negb (outside (area_ratio_of image_area contour)
                MIN_AREA_RATIO MAX_AREA_RATIO
        || outside (aspect_ratio_of contour)
                   MIN_ASPECT_RATIO MAX_ASPECT_RATIO).

(** No bounding box is taller than wide. *)
Definition all_landscape (contours : list Contour) : Prop :=
  Forall (fun c => let '(_, _, w, h) := boundingRect c in h <= w) contours.

End CropperViews.

(** Every row of the buffer has [shape[1]] pixels, as in a [numpy]
    array. *)
Definition rectangular (a : ndarray) : Prop :=
  Forall (fun r => List.length r = ncols a) (rows a).

(** [a[i, j]] for indices that are not negative. *)
Definition pixel_at (a : ndarray) (i j : Z) : option pixel :=
  if (i <? 0) || (j <? 0) then None
  else match nth_error (rows a) (Z.to_nat i) with
       | Some r => nth_error r (Z.to_nat j)
       | None => None
       end.

(** The bounding boxes have the sides of OpenCV's [int]s, wherever
    they lie. *)
Definition int_boxes {cv : OpenCV} (contours : list Contour) : Prop :=
  Forall (fun c => let '(_, _, w, h) := boundingRect c in
                   0 <= w < 2 ^ 31 /\ 0 <= h < 2 ^ 31) contours.

(** ** [crop_test_strip] on any array

    [crop_test_strip] above is the function on the colour images its
    docstring asks for ([uint8], shape [(H, W, 3)]).  Python lets a
    caller pass other arrays: before OpenCV sees them the function
    reads [image.size] and unpacks [image.shape[:2]], and
    [cv2.cvtColor] with [COLOR_BGR2GRAY] takes three or four channels
    and raises [cv2.error] on a single one.  Here are the arrays of
    up to two dimensions beside the colour images. *)

Inductive np_array : Type :=
| colour (a : ndarray)                          (* shape (H, W, 3) *)
| plane (width : nat) (rows : list (list Z))    (* shape (H, W) *)
| line (values : list Z)                        (* shape (N,) *)
| scalar (value : Z).                           (* shape () *)

Definition np_shape (a : np_array) : list Z :=
  match a with
  | colour img => [shape0 img; shape1 img; 3]
  | plane width rows => [Z.of_nat (List.length rows); Z.of_nat width]
  | line values => [Z.of_nat (List.length values)]
  | scalar _ => []
  end.

(** [a.size]: the product of the shape. *)
Definition np_size (a : np_array) : Z := fold_right Z.mul 1 (np_shape a).

(** What a call does: it returns, raises one of the exceptions of
    [exn], or lets [cv2.error] through. *)
Inductive call (A : Type) : Type :=
| returns (a : A)
| raises (e : exn)
| raises_cv2_error.
Arguments returns {A} a.
Arguments raises {A} e.
Arguments raises_cv2_error {A}.

(** The error of [height, width = t] on a tuple of [got] values. *)
Definition unpack_error (got : nat) : exn :=
  ValueError ("not enough values to unpack (expected 2, got "
              ++ NilZero.string_of_uint (Nat.to_uint got) ++ ")").

Section AnyArray.
Context {cv : OpenCV}.

Definition crop_test_strip_any (image : option np_array)
  : call (ndarray * metadata) :=
  match image with
  | None => raises invalid_image
  | Some a =>
      if np_size a =? 0 then raises invalid_image
      else
        match np_shape a with
        | _ :: _ :: _ =>
            match a with
            | colour img =>
                match crop_test_strip (Some img) with
                | Ok r => returns r
                | Raise e => raises e
                end
            | _ => raises_cv2_error
            end
        | t => raises (unpack_error (List.length t))
        end
  end.

End AnyArray.

(** ** The utilities of [app/cropper.py] and the endpoints of
    [app/main.py]

    The service decodes an upload, runs [crop_test_strip] and answers
    with the crop or saves it.  What lies outside the two files is an
    interface ([Runtime]): the OpenCV codecs, the disk behind
    [cv2.imwrite], the Unicode tables behind [str.isalnum], the
    iteration order of a [set] and the environment variable. *)

(** *** Text and bytes *)

(** Python's [str]: a sequence of code points. *)
Definition char : Type := N.
Definition str : Type := list char.
Definition bytes : Type := list Byte.byte.

(** A string literal of the source (all of them are ASCII). *)
Definition lit (s : string) : str := map N_of_ascii (list_ascii_of_string s).

Fixpoint str_eqb (a b : str) : bool :=
  match a, b with
  | [], [] => true
  | c :: a', d :: b' => N.eqb c d && str_eqb a' b'
  | _, _ => false
  end.

(** [sep.join(l)] *)
Fixpoint str_join (sep : str) (l : list str) : str :=
  match l with
  | [] => []
  | [s] => s
  | s :: l' => s ++ sep ++ str_join sep l'
  end.

(** [str(b)] and [str(n)] as an f-string writes them. *)
Definition str_of_bool (b : bool) : str := lit (if b then "True" else "False").
Definition str_of_int (n : Z) : str := lit (NilZero.string_of_int (Z.to_int n)).

(** [s.split(sep)] for a separator of one character. *)
Fixpoint str_split (sep : char) (s : str) : list str :=
  match s with
  | [] => [[]]
  | c :: s' =>
      if N.eqb c sep then [] :: str_split sep s'
      else match str_split sep s' with
           | p :: ps => (c :: p) :: ps
           | [] => [[c]]
           end
  end.

(** [c.isalnum()] on the ASCII range: digits and letters. *)
Definition ascii_isalnum (c : char) : bool :=
  (N.leb 48 c && N.leb c 57) || (N.leb 65 c && N.leb c 90)
  || (N.leb 97 c && N.leb c 122).

(** *** Exceptions of the libraries and outcomes of calls *)

(** An exception as the handlers of the service see it: one of
    [crop_test_strip]'s, or one raised inside a library, of which
    only its class against [ValueError] and its [str] are looked
    at. *)
Inductive exception : Type :=
| Builtin (e : exn)
| Foreign (is_value_error : bool) (text : str).

Definition isinstance_ValueError (e : exception) : bool :=
  match e with
  | Builtin (ValueError _) => true
  | Builtin _ => false
  | Foreign b _ => b
  end.

(** [str(e)].  (The text of [ZeroDivisionError] is that of a
    division of two [int]s.) *)
Definition exc_str (e : exception) : str :=
  match e with
  | Builtin (ValueError msg) => lit msg
  | Builtin ZeroDivisionError => lit "division by zero"
  | Builtin OverflowError => lit "cannot convert float infinity to integer"
  | Foreign _ text => text
  end.

Inductive outcome (A : Type) : Type :=
| Return (a : A)
| Throw (e : exception).
Arguments Return {A} a.
Arguments Throw {A} e.

(** *** [pathlib] on POSIX *)

(** A pure path: its root ([""], ["/"] or ["//"]) and its
    components. *)
Record Path : Type := mk_Path {
  anchor : str;
  parts : list str
}.

Definition slash : char := 47%N.
Definition dot : char := 46%N.

(** [posixpath.splitroot] *)
Definition splitroot (p : str) : str * str :=
  match p with
  | c1 :: rest1 =>
      if N.eqb c1 slash then
        match rest1 with
        | c2 :: rest2 =>
            if N.eqb c2 slash then
              match rest2 with
              | c3 :: _ =>
                  if N.eqb c3 slash then ([slash], rest1)
                  else ([slash; slash], rest2)
              | [] => ([slash; slash], rest2)
              end
            else ([slash], rest1)
        | [] => ([slash], rest1)
        end
      else ([], p)
  | [] => ([], p)
  end.

(** [Path(s)]: empty components and ["."] are dropped. *)
Definition parse_path (s : str) : Path :=
  let '(root, rel) := splitroot s in
  {| anchor := root;
     parts := filter (fun x => negb (str_eqb x []) && negb (str_eqb x [dot]))
                     (str_split slash rel) |}.

(** [p / key] for a [str] key: an absolute key replaces [p]. *)
Definition joinpath (p : Path) (key : str) : Path :=
  let q := parse_path key in
  match anchor q with
  | [] => {| anchor := anchor p; parts := parts p ++ parts q |}
  | _ :: _ => q
  end.

(** [str(p)] *)
Definition path_str (p : Path) : str :=
  match anchor p, parts p with
  | [], [] => [dot]
  | root, tail => root ++ str_join [slash] tail
  end.

(** *** What the service takes from outside *)

Class Runtime : Type := {
  (** the state that [cv2.imwrite] acts on *)
  world : Type;
  (** [cv2.imdecode(buf, cv2.IMREAD_COLOR)]: an image, [None], or an
      exception *)
  imdecode : bytes -> outcome (option ndarray);
  (** [cv2.imencode(ext, img)] *)
  imencode : str -> ndarray -> outcome (bool * bytes);
  (** [cv2.imwrite(path, img)] *)
  imwrite : world -> str -> ndarray -> world * outcome bool;
  (** [c.isalnum()] beyond ASCII *)
  unicode_isalnum : char -> bool;
  (** the order in which [ALLOWED_TYPES], a [set], is iterated *)
  ALLOWED_TYPES_iter : list str;
  (** [os.getenv("OUTPUT_FOLDER")] without the default *)
  environ_OUTPUT_FOLDER : option str
}.

(** What the clock and the generator give during one call:
    [datetime.utcnow().strftime("%Y%m%d_%H%M%S")] and
    [str(uuid.uuid4())]. *)
Record Ambient : Type := mk_Ambient {
  utcnow_strftime : str;
  uuid4_str : str
}.

(** *** Requests and answers *)

Record UploadFile : Type := mk_UploadFile {
  content_type : option str;
  (** what [await file.read()] does *)
  read : outcome bytes
}.

Record Response : Type := mk_Response {
  content : bytes;
  media_type : str;
  headers : list (str * str)
}.

(** The dictionary of the [JSONResponse]. *)
Record SavedBody : Type := mk_SavedBody {
  body_success : bool;
  saved_to : str;
  body_filename : str;
  detection : metadata
}.

(** An endpoint returns, raises an [HTTPException], or lets an
    exception through. *)
Inductive reply (A : Type) : Type :=
| Sends (a : A)
| HTTPException (status_code : Z) (detail : str)
| Unhandled (e : exception).
Arguments Sends {A} a.
Arguments HTTPException {A} status_code detail.
Arguments Unhandled {A} e.

(** *** Configuration of [app/main.py] *)

Definition MAX_FILE_SIZE : Z := 10 * 1024 * 1024.

Definition ALLOWED_TYPES : list str :=
  [lit "image/jpeg"; lit "image/png"; lit "image/webp"; lit "image/bmp"].

(** [x in ALLOWED_TYPES]; a content type may be [None]. *)
Definition in_ALLOWED_TYPES (x : option str) : bool :=
  match x with
  | Some s => existsb (str_eqb s) ALLOWED_TYPES
  | None => false
  end.

(** [f"{x}"] for an optional [str]. *)
Definition format_optional (x : option str) : str :=
  match x with
  | Some s => s
  | None => lit "None"
  end.

Section Service.
Context {cv : OpenCV} {rt : Runtime}.

Definition OUTPUT_FOLDER : Path :=
  parse_path (match environ_OUTPUT_FOLDER with
              | Some v => v
              | None => lit "/workspace/output"
              end).

(** *** The utilities *)

Definition load_image (file_bytes : bytes) : outcome ndarray :=
  match imdecode file_bytes with
  | Throw e => Throw e
  | Return None =>
      Throw (Builtin (ValueError
        "Could not decode image. Ensure it's a valid image file."))
  | Return (Some image) => Return image
  end.

Definition save_image (w : world) (image : ndarray) (filepath : str)
  : world * bool :=
  match imwrite w filepath image with
  | (w', Return success) => (w', success)
  | (w', Throw _) => (w', false)
  end.

Definition encode_image_to_bytes (image : ndarray) (format : str)
  : option bytes :=
  match imencode format image with
  | Return (true, encoded) => Some encoded
  | Return (false, _) => None
  | Throw _ => None
  end.

(** *** [POST /crop] *)

Definition isalnum (c : char) : bool :=
  if N.ltb c 128 then ascii_isalnum c else unicode_isalnum c.

Definition invalid_type_detail (file : UploadFile) : str :=
  lit "Invalid file type: " ++ format_optional (content_type file)
  ++ lit ". Allowed: " ++ str_join (lit ", ") ALLOWED_TYPES_iter.

Definition too_large_detail : str :=
  lit "File too large. Maximum size: "
  ++ str_of_int (MAX_FILE_SIZE / 1024 / 1024) ++ lit " MB".

Definition crop_image (file : UploadFile) : reply Response :=
  if negb (in_ALLOWED_TYPES (content_type file))
  then HTTPException 400 (invalid_type_detail file)
  else
    match read file with
    | Throw e => HTTPException 400 (lit "Error reading file: " ++ exc_str e)
    | Return contents =>
      if Z.of_nat (List.length contents) >? MAX_FILE_SIZE
      then HTTPException 400 too_large_detail
      else
        match load_image contents with
        | Throw e =>
            if isinstance_ValueError e then HTTPException 400 (exc_str e)
            else Unhandled e
        | Return image =>
          match crop_test_strip (Some image) with
          | Raise e =>
              HTTPException 500
                (lit "Error processing image: " ++ exc_str (Builtin e))
          | Ok (cropped_image, metadata) =>
            match encode_image_to_bytes cropped_image (lit ".png") with
            | None => HTTPException 500 (lit "Error encoding cropped image")
            | Some image_bytes =>
                Sends {| content := image_bytes;
                         media_type := lit "image/png";
                         headers :=
                           [(lit "X-Crop-Success",
                             str_of_bool (success metadata));
                            (lit "X-Crop-Message",
                             lit (message metadata))] |}
            end
          end
        end
    end.

(** *** [POST /crop/save] *)

(** [c.isalnum() or c in "-_"] *)
Definition keeps (c : char) : bool :=
  isalnum c || existsb (N.eqb c) (lit "-_").

(** The name of the file before its extension: the given one with
    the characters outside the whitelist removed, or a generated
    one when none is given. *)
Definition safe_filename (amb : Ambient) (filename : option str) : str :=
  match filename with
  | Some ((_ :: _) as name) => filter keeps name
  | _ =>
      let timestamp := utcnow_strftime amb in
      let unique_id := firstn 8 (uuid4_str amb) in
      lit "cropped_" ++ timestamp ++ lit "_" ++ unique_id
  end.

Definition crop_and_save (w : world) (amb : Ambient) (file : UploadFile)
           (filename : option str) : world * reply SavedBody :=
  if negb (in_ALLOWED_TYPES (content_type file))
  then (w, HTTPException 400 (invalid_type_detail file))
  else
    match read file with
    | Throw e =>
        (w, HTTPException 400 (lit "Error reading file: " ++ exc_str e))
    | Return contents =>
      if Z.of_nat (List.length contents) >? MAX_FILE_SIZE
      then (w, HTTPException 400 too_large_detail)
      else
        match load_image contents with
        | Throw e =>
            if isinstance_ValueError e then (w, HTTPException 400 (exc_str e))
            else (w, Unhandled e)
        | Return image =>
          match crop_test_strip (Some image) with
          | Raise e =>
              (w, HTTPException 500
                    (lit "Error processing image: " ++ exc_str (Builtin e)))
          | Ok (cropped_image, metadata) =>
            let name := safe_filename amb filename in
            let output_path := joinpath OUTPUT_FOLDER (name ++ lit ".png") in
            let '(w', success) :=
              save_image w cropped_image (path_str output_path) in
            if negb success
            then (w', HTTPException 500 (lit "Error saving cropped image"))
            else
              (w', Sends {| body_success := true;
                            saved_to := path_str output_path;
                            body_filename := name ++ lit ".png";
                            detection := metadata |})
          end
        end
    end.

End Service.

(** *** A reference runtime

    A toy codec (two bytes, the width and the height of a blank
    image), a disk that records what is written, no alphanumerics
    beyond ASCII. *)

Module RefRuntime.

Definition decode (b : bytes) : outcome (option ndarray) :=
  match b with
  | [] => Throw (Foreign false (lit "buffer is empty"))
  | [w; h] =>
      Return (Some (RefCV.blank (N.to_nat (Byte.to_N w))
                                (N.to_nat (Byte.to_N h))))
  | _ => Return None
  end.

Definition encode (ext : str) (a : ndarray) : outcome (bool * bytes) :=
  match Byte.of_N (Z.to_N (shape1 a)), Byte.of_N (Z.to_N (shape0 a)) with
  | Some w, Some h => Return (true, [w; h])
  | _, _ => Return (false, [])
  end.

Definition disk : Type := list (str * ndarray).

Definition write (d : disk) (path : str) (a : ndarray)
  : disk * outcome bool :=
  ((path, a) :: d, Return true).

Definition posix : Runtime :=
  Build_Runtime disk decode encode write (fun _ => false)
    [lit "image/png"; lit "image/bmp"; lit "image/jpeg"; lit "image/webp"]
    None.

(** An upload of the 30 x 50 image, as PNG. *)
Definition demo_upload : UploadFile :=
  {| content_type := Some (lit "image/png");
     read := Return [Byte.x1e; Byte.x32] |}.

(** A contour wider than tall, and the primitives that return it. *)
Definition lying_strip : list RefCV.point := RefCV.rectangle 5 5 20 10.
Definition lying_cv : OpenCV := RefCV.stub [lying_strip].

(** A speck next to the strip. *)
Definition speck : list RefCV.point := RefCV.rectangle 1 1 2 2.
Definition speck_cv : OpenCV := RefCV.stub [speck; RefCV.demo_strip].

(** Uploads that are turned down: no content type, three bytes that
    are no image, and one byte more than the limit. *)
Definition untyped_upload : UploadFile :=
  {| content_type := None; read := Return [Byte.x1e; Byte.x32] |}.
Definition garbled_upload : UploadFile :=
  {| content_type := Some (lit "image/jpeg");
     read := Return [Byte.x00; Byte.x00; Byte.x00] |}.
Definition big_upload : UploadFile :=
  {| content_type := Some (lit "image/png");
     read := Return (repeat Byte.x00 (Z.to_nat 10485761)) |}.

Definition noon : Ambient :=
  {| utcnow_strftime := lit "20240101_120000";
     uuid4_str := lit "12345678-1234-4abc-8def-123456789abc" |}.

End RefRuntime.

(** *** Runs at the edges

    Two thin lines in the one-pixel-wide image, a strip that sticks
    out of the 30 x 50 image, and two arrays that are no colour
    images. *)

Module RefEdge.

Definition second_line : list RefCV.point := [(0, 20); (0, 29)].
Definition two_lines_cv : OpenCV :=
  RefCV.stub [RefCV.thin_line; second_line].

Definition overhanging_strip : list RefCV.point := RefCV.rectangle 26 10 6 30.
Definition overhang_cv : OpenCV := RefCV.stub [overhanging_strip].

Definition grey_image : np_array := plane 2 [[10; 20]; [30; 40]].
Definition samples : np_array := line [1; 2; 3].

End RefEdge.

(** *** What the statements on the service speak about *)

(** The upload gets past the type, read and size checks with
    [contents]. *)
Definition accepted (file : UploadFile) (contents : bytes) : Prop :=
  in_ALLOWED_TYPES (content_type file) = true /\
  read file = Return contents /\
  Z.of_nat (List.length contents) <= MAX_FILE_SIZE.

Definition backslash : char := 92%N.
Definition NUL : char := 0%N.

(** Evaluates the checks on a concrete upload. *)
Ltac upload :=
  unfold accepted; repeat split; try reflexivity; vm_compute; discriminate.

(** ** Auxiliary definitions for the binary64 facts *)

(** The target exponent of binary64 for a number of that many digits
    above its exponent. *)
Definition fexp64 (e : Z) : Z := Z.max (e - 53) (-1074).

(** Something was shifted out. *)
Definition inexact (x : shr_record) : bool := shr_r x || shr_s x.

(** [m * 2^e <= 1], on integers. *)
Definition le1 (m e : Z) : Prop := e <= 0 /\ m <= 2 ^ (- e).

(** [m1 * 2^e1 <= m2 * 2^e2], on integers. *)
Definition dy_le (m1 e1 m2 e2 : Z) : Prop :=
  m1 * 2 ^ (e1 - Z.min e1 e2) <= m2 * 2 ^ (e2 - Z.min e1 e2).

(** [SFcompare] is the lexicographic order on a triple read off the
    float. *)
Definition lex3 (a b : Z * Z * Z) : comparison :=
  let '(a1, a2, a3) := a in
  let '(b1, b2, b3) := b in
  match a1 ?= b1 with
  | Eq => match a2 ?= b2 with
          | Eq => a3 ?= b3
          | c => c
          end
  | c => c
  end.

Definition rank (x : spec_float) : option (Z * Z * Z) :=
  match x with
  | S754_nan => None
  | S754_zero _ => Some (0, 0, 0)
  | S754_infinity false => Some (2, 0, 0)
  | S754_infinity true => Some (-2, 0, 0)
  | S754_finite false m e => Some (1, e, Zpos m)
  | S754_finite true m e => Some (-1, - e, Zneg m)
  end.

(** *** Rounding to nearest *)

(** The record's two bits place a fraction [N / D] against one half. *)
Definition places (x : shr_record) (N D : Z) : Prop :=
  0 <= N < D /\
  (shr_r x = true <-> D <= 2 * N) /\
  (shr_s x = true <-> N <> 0 /\ 2 * N <> D).

(** The integer nearest to [q + N / D], ties to even. *)
Definition nearest_even (q N D : Z) : Z :=
  if (D <? 2 * N) || ((D =? 2 * N) && Z.odd q) then q + 1 else q.

(** The value of a non-negative result, in units of [2^-1074]. *)
Definition magnitude (x : spec_float) : Z :=
  match x with
  | S754_finite _ m e => Zpos m * 2 ^ (e + 1074)
  | _ => 0
  end.

(** * Facts *)

(** ** The result monad *)

Lemma foldM_prefix {A S : Type} (step : S -> A -> result S)
      (P : list A -> S -> Prop) :
  (forall pre a s s', P pre s -> step s a = Ok s' -> P (pre ++ [a]) s') ->
  forall l pre s s', P pre s -> foldM step l s = Ok s' -> P (pre ++ l) s'.
Proof.
  intros Hstep l.
  induction l as [|a l IH]; intros pre s s' HP Hfold; simpl in Hfold.
  - injection Hfold as <-. now rewrite app_nil_r.
  - destruct (step s a) as [s1|e] eqn:Hs; simpl in Hfold; [|discriminate].
    replace (pre ++ a :: l) with ((pre ++ [a]) ++ l)
      by (rewrite <- app_assoc; reflexivity).
    eapply IH; eauto.
Qed.

Lemma foldM_total {A S : Type} (step : S -> A -> result S) :
  (forall s a, exists s', step s a = Ok s') ->
  forall l s, exists s', foldM step l s = Ok s'.
Proof.
  intros Hstep l.
  induction l as [|a l IH]; intros s; simpl.
  - now exists s.
  - destruct (Hstep s a) as [s1 ->]. simpl. apply IH.
Qed.

(** ** Order facts on binary64 comparisons *)

Lemma SFcompare_rank (x y : spec_float) :
  SFcompare x y =
  match rank x, rank y with
  | Some a, Some b => Some (lex3 a b)
  | _, _ => None
  end.
Proof.
  destruct x as [sx|sx| |sx mx ex], y as [sy|sy| |sy my ey];
    try destruct sx; try destruct sy; try reflexivity;
    simpl; rewrite ?Z.compare_opp; f_equal.
  rewrite (Z.compare_antisym ex ey).
  destruct (ex ?= ey); reflexivity.
Qed.

Lemma lex3_Lt (a1 a2 a3 b1 b2 b3 : Z) :
  lex3 (a1, a2, a3) (b1, b2, b3) = Lt <->
  a1 < b1 \/ (a1 = b1 /\ (a2 < b2 \/ (a2 = b2 /\ a3 < b3))).
Proof.
  unfold lex3.
  destruct (Z.compare_spec a1 b1), (Z.compare_spec a2 b2),
    (Z.compare_spec a3 b3); split; intros; try discriminate;
    try reflexivity; lia.
Qed.

Lemma lex3_Eq (a1 a2 a3 b1 b2 b3 : Z) :
  lex3 (a1, a2, a3) (b1, b2, b3) = Eq <-> a1 = b1 /\ a2 = b2 /\ a3 = b3.
Proof.
  unfold lex3.
  destruct (Z.compare_spec a1 b1), (Z.compare_spec a2 b2),
    (Z.compare_spec a3 b3); split; intros; try discriminate;
    try reflexivity; lia.
Qed.

Lemma SFltb_rank (x y : spec_float) :
  SFltb x y = true <->
  exists a b, rank x = Some a /\ rank y = Some b /\ lex3 a b = Lt.
Proof.
  unfold SFltb. rewrite SFcompare_rank.
  destruct (rank x) as [a|], (rank y) as [b|]; split;
    try (intros [a' [b' [? [? ?]]]]; discriminate); try discriminate.
  - destruct (lex3 a b) eqn:E; try discriminate. intros _. now exists a, b.
  - intros [a' [b' [[= <-] [[= <-] ->]]]]. reflexivity.
Qed.

Lemma SFeqb_rank (x y : spec_float) :
  SFeqb x y = true <->
  exists a b, rank x = Some a /\ rank y = Some b /\ lex3 a b = Eq.
Proof.
  unfold SFeqb. rewrite SFcompare_rank.
  destruct (rank x) as [a|], (rank y) as [b|]; split;
    try (intros [a' [b' [? [? ?]]]]; discriminate); try discriminate.
  - destruct (lex3 a b) eqn:E; try discriminate. intros _. now exists a, b.
  - intros [a' [b' [[= <-] [[= <-] ->]]]]. reflexivity.
Qed.

Lemma flt_trans (a b c : Py.float) :
  Py.flt a b = true -> Py.flt b c = true -> Py.flt a c = true.
Proof.
  unfold Py.flt. rewrite !SFltb_rank.
  intros [[[a1 a2] a3] [[[b1 b2] b3] [Ha [Hb Hab]]]]
         [b' [[[c1 c2] c3] [Hb' [Hc Hbc]]]].
  rewrite Hb in Hb'. injection Hb' as <-.
  exists (a1, a2, a3), (c1, c2, c3). repeat split; trivial.
  apply lex3_Lt in Hab, Hbc. apply lex3_Lt. lia.
Qed.

Lemma flt_feq_trans (a b c : Py.float) :
  Py.flt a b = true -> Py.feq c b = true -> Py.flt a c = true.
Proof.
  unfold Py.flt, Py.feq. rewrite !SFltb_rank, SFeqb_rank.
  intros [[[a1 a2] a3] [[[b1 b2] b3] [Ha [Hb Hab]]]]
         [[[c1 c2] c3] [b' [Hc [Hb' Hcb]]]].
  rewrite Hb in Hb'. injection Hb' as <-.
  exists (a1, a2, a3), (c1, c2, c3). repeat split; trivial.
  apply lex3_Lt in Hab. apply lex3_Eq in Hcb. apply lex3_Lt. lia.
Qed.

Lemma flt_irrefl (a : Py.float) : Py.flt a a = false.
Proof.
  destruct (Py.flt a a) eqn:E; trivial.
  unfold Py.flt in E. apply SFltb_rank in E.
  destruct E as [[[a1 a2] a3] [[[b1 b2] b3] [Ha [Hb Hab]]]].
  rewrite Ha in Hb. injection Hb as <- <- <-.
  apply lex3_Lt in Hab. lia.
Qed.

(** ** Binary64 rounding *)

Lemma fexp_fexp64 (e : Z) : fexp 53 1024 e = fexp64 e.
Proof. reflexivity. Qed.

Lemma digits2_pos_size (p : positive) : digits2_pos p = Pos.size p.
Proof. induction p; simpl; congruence. Qed.

Lemma digits2_pos_bounds (p : positive) :
  2 ^ (Zpos (digits2_pos p) - 1) <= Zpos p < 2 ^ Zpos (digits2_pos p).
Proof.
  rewrite digits2_pos_size. split.
  - pose proof (Pos.size_le p) as H.
    assert (H2 : 2 ^ Zpos (Pos.size p) <= 2 * Zpos p).
    { change 2 with (Zpos 2) at 1. rewrite <- Pos2Z.inj_pow.
      change (2 * Zpos p) with (Zpos p~0). now apply Pos2Z.pos_le_pos. }
    replace (Zpos (Pos.size p)) with (Z.succ (Zpos (Pos.size p) - 1)) in H2
      by lia.
    rewrite Z.pow_succ_r in H2 by lia. lia.
  - pose proof (Pos.size_gt p) as H.
    change 2 with (Zpos 2). rewrite <- Pos2Z.inj_pow.
    now apply Pos2Z.pos_lt_pos.
Qed.

Lemma Zdigits2_bounds (m : Z) :
  0 < m -> 2 ^ (Zdigits2 m - 1) <= m < 2 ^ Zdigits2 m /\ 1 <= Zdigits2 m.
Proof.
  destruct m as [|p|p]; try lia. intros _. simpl.
  split; [apply digits2_pos_bounds|lia].
Qed.

Lemma Zdigits2_unique (m k : Z) :
  2 ^ (k - 1) <= m < 2 ^ k -> 1 <= k -> Zdigits2 m = k.
Proof.
  intros [Hlo Hhi] Hk.
  assert (Hm : 0 < m) by (pose proof (Z.pow_pos_nonneg 2 (k - 1)); lia).
  destruct (Zdigits2_bounds m Hm) as [[Dlo Dhi] D1].
  destruct (Z.lt_trichotomy (Zdigits2 m) k) as [H|[H|H]]; trivial.
  - assert (2 ^ Zdigits2 m <= 2 ^ (k - 1)) by (apply Z.pow_le_mono_r; lia).
    lia.
  - assert (2 ^ k <= 2 ^ (Zdigits2 m - 1)) by (apply Z.pow_le_mono_r; lia).
    lia.
Qed.

Lemma Zdigits2_le (m k : Z) :
  0 <= m -> 0 <= k -> m < 2 ^ k -> Zdigits2 m <= k.
Proof.
  intros Hm Hk Hlt.
  destruct (Z.eq_dec m 0) as [->|Hne]; [simpl; lia|].
  destruct (Zdigits2_bounds m ltac:(lia)) as [[Dlo _] D1].
  destruct (Z.le_gt_cases (Zdigits2 m) k) as [H|H]; trivial.
  assert (2 ^ k <= 2 ^ (Zdigits2 m - 1)) by (apply Z.pow_le_mono_r; lia).
  lia.
Qed.

(** *** Right shifts with sticky bits *)

Lemma shr_1_spec (x : shr_record) :
  0 <= shr_m x ->
  shr_m (shr_1 x) = shr_m x / 2 /\
  (inexact (shr_1 x) = true <-> shr_m x mod 2 <> 0 \/ inexact x = true).
Proof.
  destruct x as [m r s]. unfold inexact. simpl. intros Hm.
  destruct m as [|[p|p|]|p]; try lia; simpl.
  - split; [reflexivity|]. rewrite Z.mod_0_l by lia.
    destruct r, s; simpl; intuition congruence.
  - split.
    + rewrite Pos2Z.inj_xI.
      apply (Z.div_unique_pos _ 2 _ 1); lia.
    + rewrite Pos2Z.inj_xI.
      replace ((2 * Zpos p + 1) mod 2) with 1
        by (apply (Z.mod_unique_pos _ 2 (Zpos p) 1); lia).
      split; [left; lia|reflexivity].
  - split.
    + rewrite Pos2Z.inj_xO.
      apply (Z.div_unique_pos _ 2 _ 0); lia.
    + rewrite Pos2Z.inj_xO.
      replace ((2 * Zpos p) mod 2) with 0
        by (apply (Z.mod_unique_pos _ 2 (Zpos p) 0); lia).
      destruct r, s; simpl; intuition congruence.
  - split; [reflexivity|]. split; [left; discriminate|reflexivity].
Qed.

Lemma iter_pos_inv {A : Type} (f : A -> A) (P : Z -> A -> Prop) :
  (forall k x, 0 <= k -> P k x -> P (k + 1) (f x)) ->
  forall p k x, 0 <= k -> P k x -> P (k + Zpos p) (iter_pos f p x).
Proof.
  intros Hf p.
  induction p as [p IH|p IH|]; intros k x Hk HP; simpl.
  - rewrite Pos2Z.inj_xI.
    replace (k + (2 * Zpos p + 1)) with (k + 1 + Zpos p + Zpos p) by lia.
    apply IH; [lia|]. apply IH; [lia|]. now apply Hf.
  - rewrite Pos2Z.inj_xO.
    replace (k + 2 * Zpos p) with (k + Zpos p + Zpos p) by lia.
    apply IH; [lia|]. now apply IH.
  - now apply Hf.
Qed.

Lemma mod_pow2_succ (m k : Z) :
  0 <= m -> 0 <= k ->
  (m mod 2 ^ (k + 1) <> 0 <-> (m / 2 ^ k) mod 2 <> 0 \/ m mod 2 ^ k <> 0).
Proof.
  intros Hm Hk.
  assert (Hp : 0 < 2 ^ k) by (apply Z.pow_pos_nonneg; lia).
  rewrite Z.pow_add_r, Z.pow_1_r by lia.
  rewrite Z.rem_mul_r by lia.
  pose proof (Z.mod_pos_bound m (2 ^ k) Hp).
  pose proof (Z.mod_pos_bound (m / 2 ^ k) 2 ltac:(lia)).
  nia.
Qed.

Lemma shr_iter_spec (p : positive) (x : shr_record) :
  0 <= shr_m x ->
  shr_m (iter_pos shr_1 p x) = shr_m x / 2 ^ Zpos p /\
  (inexact (iter_pos shr_1 p x) = true <->
   shr_m x mod 2 ^ Zpos p <> 0 \/ inexact x = true).
Proof.
  intros Hm.
  pose (P := fun (k : Z) (y : shr_record) =>
               shr_m y = shr_m x / 2 ^ k /\
               (inexact y = true <->
                shr_m x mod 2 ^ k <> 0 \/ inexact x = true)).
  change (P (Zpos p) (iter_pos shr_1 p x)).
  replace (Zpos p) with (0 + Zpos p) at 1 by lia.
  apply iter_pos_inv; [|lia|].
  - intros k y Hk [Hy Hi]. unfold P.
    assert (Hp : 0 < 2 ^ k) by (apply Z.pow_pos_nonneg; lia).
    assert (Hy0 : 0 <= shr_m y)
      by (rewrite Hy; apply Z.div_pos; lia).
    destruct (shr_1_spec y Hy0) as [Hm1 Hi1]. split.
    + rewrite Hm1, Hy, Z.div_div, Z.pow_add_r, Z.pow_1_r by lia.
      reflexivity.
    + rewrite Hi1, Hi, (mod_pow2_succ _ _ Hm Hk), Hy. tauto.
  - unfold P. rewrite Z.pow_0_r, Z.div_1_r, Z.mod_1_r. intuition congruence.
Qed.

Lemma inexact_of_loc (m : Z) (l : location) :
  shr_m (shr_record_of_loc m l) = m /\
  (inexact (shr_record_of_loc m l) = true <-> l <> loc_Exact).
Proof.
  destruct l as [|[]]; unfold inexact; simpl; split; trivial;
    split; congruence.
Qed.

Lemma shr_spec (mx ex n : Z) (l : location) :
  0 <= mx -> 0 <= n ->
  exists x', shr (shr_record_of_loc mx l) ex n = (x', ex + n) /\
             shr_m x' = mx / 2 ^ n /\
             (inexact x' = true <-> mx mod 2 ^ n <> 0 \/ l <> loc_Exact).
Proof.
  intros Hm Hn. destruct (inexact_of_loc mx l) as [H1 H2].
  destruct n as [|p|p]; try lia.
  - exists (shr_record_of_loc mx l). simpl.
    rewrite Z.add_0_r, Z.div_1_r, Z.mod_1_r, H1, H2.
    repeat split; tauto.
  - exists (iter_pos shr_1 p (shr_record_of_loc mx l)).
    destruct (shr_iter_spec p (shr_record_of_loc mx l)) as [Hq Hi];
      [now rewrite H1|].
    rewrite H1 in Hq, Hi. rewrite H2 in Hi. simpl. auto.
Qed.

Lemma shr_exact_0 (m e n : Z) :
  n <= 0 ->
  shr (shr_record_of_loc m loc_Exact) e n = (shr_record_of_loc m loc_Exact, e).
Proof. destruct n; try reflexivity; lia. Qed.

Lemma round_nearest_even_cases (x : shr_record) :
  round_nearest_even (shr_m x) (loc_of_shr_record x) = shr_m x \/
  (round_nearest_even (shr_m x) (loc_of_shr_record x) = shr_m x + 1 /\
   inexact x = true).
Proof.
  destruct x as [m [] []]; unfold inexact; simpl;
    try destruct (Z.even m); auto.
Qed.

Lemma bounded_intro (m : positive) (e : Z) :
  fexp64 (Zdigits2 (Zpos m) + e) = e -> e <= 971 ->
  bounded 53 1024 m e = true.
Proof.
  intros Hc He. unfold bounded, canonical_mantissa.
  rewrite fexp_fexp64. change (Zpos (digits2_pos m)) with (Zdigits2 (Zpos m)).
  rewrite Hc, Z.eqb_refl. simpl. apply Z.leb_le. exact He.
Qed.

Lemma bounded_elim (m : positive) (e : Z) :
  bounded 53 1024 m e = true ->
  fexp64 (Zdigits2 (Zpos m) + e) = e /\ e <= 971.
Proof.
  unfold bounded, canonical_mantissa. rewrite fexp_fexp64.
  change (Zpos (digits2_pos m)) with (Zdigits2 (Zpos m)).
  intros H. apply andb_true_iff in H. destruct H as [H1 H2].
  apply Z.eqb_eq in H1. apply Z.leb_le in H2. auto.
Qed.

(** What [binary_round_aux] returns on a non-negative mantissa whose
    exponent is not above the target one: the mantissa is shifted to
    the target exponent [E] and rounded there to itself or to its
    successor, the latter only if something was lost. *)
Lemma binary_round_aux_spec (s : bool) (mx ex : Z) (l : location) :
  0 <= mx ->
  ex <= fexp64 (Zdigits2 mx + ex) ->
  let E := fexp64 (Zdigits2 mx + ex) in
  let q := mx / 2 ^ (E - ex) in
  match binary_round_aux 53 1024 s mx ex l with
  | S754_zero s' => s' = s /\ q = 0
  | S754_infinity s' => s' = s /\ 971 <= E
  | S754_nan => False
  | S754_finite s' m e =>
      s' = s /\ bounded 53 1024 m e = true /\ E <= e <= E + 1 /\
      (Zpos m * 2 ^ (e - E) = q \/
       (Zpos m * 2 ^ (e - E) = q + 1 /\
        (mx mod 2 ^ (E - ex) <> 0 \/ l <> loc_Exact)))
  end.
Proof.
  intros Hm Hex E q.
  assert (HE : -1074 <= E) by (unfold E, fexp64; lia).
  assert (Hn : 0 <= E - ex) by (unfold E; lia).
  assert (Hp : 0 < 2 ^ (E - ex)) by (apply Z.pow_pos_nonneg; lia).
  assert (Hq0 : 0 <= q) by (apply Z.div_pos; lia).
  (* the shifted mantissa has at most 53 digits *)
  assert (Hq53 : q < 2 ^ 53).
  { apply Z.div_lt_upper_bound; trivial.
    rewrite <- Z.pow_add_r by lia.
    destruct (Z.eq_dec mx 0) as [->|Hne].
    - apply Z.pow_pos_nonneg; lia.
    - destruct (Zdigits2_bounds mx ltac:(lia)) as [[_ Hhi] Hd].
      apply Z.lt_le_trans with (1 := Hhi).
      apply Z.pow_le_mono_r; [lia|]. unfold E, fexp64. lia. }
  (* and exactly 53 above the subnormal range *)
  assert (Hq52 : -1074 < E -> 2 ^ 52 <= q).
  { intros Hnorm.
    destruct (Z.eq_dec mx 0) as [->|Hne].
    - exfalso. simpl in E. unfold E, fexp64 in *. lia.
    - destruct (Zdigits2_bounds mx ltac:(lia)) as [[Hlo _] Hd].
      apply Z.div_le_lower_bound; trivial.
      rewrite <- Z.pow_add_r by lia.
      apply Z.le_trans with (2 := Hlo).
      apply Z.pow_le_mono_r; [lia|]. unfold E, fexp64 in *. lia. }
  unfold binary_round_aux, shr_fexp. rewrite !fexp_fexp64. fold E.
  destruct (shr_spec mx ex (E - ex) l Hm Hn) as (x' & Hshr & Hxm & Hxi).
  rewrite Hshr. cbv beta iota. rewrite ?fexp_fexp64.
  replace (ex + (E - ex)) with E by lia.
  fold q in Hxm.
  pose proof (round_nearest_even_cases x') as Hr.
  set (m1 := round_nearest_even (shr_m x') (loc_of_shr_record x')) in *.
  rewrite Hxm in Hr. rewrite Hxi in Hr.
  assert (Hm1 : m1 = 0 \/ (0 < m1 < 2 ^ 53) \/ m1 = 2 ^ 53) by lia.
  destruct Hm1 as [H0|[Hmid|Htop]].
  - (* rounded to zero *)
    rewrite H0. simpl Zdigits2. rewrite shr_exact_0 by (unfold fexp64; lia).
    simpl. split; [reflexivity|lia].
  - (* no carry *)
    assert (Hd1 : fexp64 (Zdigits2 m1 + E) = E).
    { pose proof (Zdigits2_le m1 53 ltac:(lia) ltac:(lia) (proj2 Hmid)).
      destruct (Zdigits2_bounds m1 (proj1 Hmid)) as [_ Hd].
      destruct (Z.eq_dec E (-1074)) as [He|He].
      - unfold fexp64. lia.
      - rewrite (Zdigits2_unique m1 53); [unfold fexp64; lia| |lia].
        specialize (Hq52 ltac:(lia)). change (53 - 1) with 52. lia. }
    rewrite Hd1, Z.sub_diag. simpl shr.
    destruct m1 as [|m|m]; try lia. simpl shr_m.
    change (1024 - 53) with 971.
    destruct (Z.leb_spec E 971) as [Hle|Hgt].
    + split; [reflexivity|]. split; [now apply bounded_intro|].
      split; [lia|]. rewrite Z.sub_diag, Z.pow_0_r, Z.mul_1_r.
      destruct Hr as [Hr|[Hr Hi]]; [left|right]; auto.
    + split; [reflexivity|lia].
  - (* carry into a 54th digit *)
    assert (Hd1 : fexp64 (Zdigits2 m1 + E) - E = 1).
    { rewrite Htop. change (Zdigits2 (2 ^ 53)) with 54. unfold fexp64. lia. }
    rewrite Hd1, Htop.
    change (shr (shr_record_of_loc (2 ^ 53) loc_Exact) E 1)
      with ({| shr_m := Zpos 4503599627370496; shr_r := false;
               shr_s := false |}, E + 1).
    cbv beta iota. cbn [shr_m].
    change (1024 - 53) with 971.
    destruct (Z.leb_spec (E + 1) 971) as [Hle|Hgt].
    + split; [reflexivity|]. split.
      { apply bounded_intro; trivial.
        change (Zdigits2 (Zpos 4503599627370496)) with 53. unfold fexp64. lia. }
      split; [lia|]. replace (E + 1 - E) with 1 by lia.
      change (Zpos 4503599627370496 * 2 ^ 1) with (2 ^ 53).
      rewrite <- Htop. destruct Hr as [Hr|[Hr Hi]]; [left|right]; auto.
    + split; [reflexivity|lia].
Qed.

Lemma Zdigits2_ge (m k : Z) : 0 <= k -> 2 ^ k <= m -> k + 1 <= Zdigits2 m.
Proof.
  intros Hk Hle.
  assert (Hm : 0 < m) by (pose proof (Z.pow_pos_nonneg 2 k); lia).
  destruct (Zdigits2_bounds m Hm) as [[_ Hhi] Hd].
  destruct (Z.le_gt_cases (k + 1) (Zdigits2 m)) as [H|H]; trivial.
  assert (2 ^ Zdigits2 m <= 2 ^ k) by (apply Z.pow_le_mono_r; lia).
  lia.
Qed.

Lemma Zdigits2_shift (m k : Z) :
  0 < m -> 0 <= k -> Zdigits2 (m * 2 ^ k) = Zdigits2 m + k.
Proof.
  intros Hm Hk.
  destruct (Zdigits2_bounds m Hm) as [[Hlo Hhi] Hd].
  assert (Hp : 0 < 2 ^ k) by (apply Z.pow_pos_nonneg; lia).
  apply Zdigits2_unique; [|lia].
  replace (Zdigits2 m + k - 1) with (Zdigits2 m - 1 + k) by lia.
  rewrite !Z.pow_add_r by lia. nia.
Qed.

Lemma iter_xO_pow2 (m d : positive) :
  Zpos (Pos.iter xO m d) = Zpos m * 2 ^ Zpos d.
Proof.
  pose proof (Zpower.shift_pos_correct d m) as H.
  unfold Zpower.shift_pos in H. rewrite H, Zpower.Zpower_pos_nat.
  rewrite Zpower.Zpower_nat_Z, positive_nat_Z. lia.
Qed.

Lemma shl_align_spec (mx : positive) (ex ex' : Z) :
  let '(mz, ez) := shl_align mx ex ex' in
  ez = Z.min ex ex' /\ Zpos mz = Zpos mx * 2 ^ (ex - ez).
Proof.
  unfold shl_align.
  destruct (ex' - ex) as [|d|d] eqn:Hd.
  - split; [lia|]. rewrite Z.sub_diag, Z.pow_0_r. lia.
  - split; [lia|]. rewrite Z.sub_diag, Z.pow_0_r. lia.
  - split; [lia|]. rewrite iter_xO_pow2. f_equal. f_equal. lia.
Qed.

(** [float(n)] is exact below [2^53]. *)
Lemma of_int_exact (n : Z) :
  0 < n < 2 ^ 53 ->
  exists m e, Py.of_int n = S754_finite false m e /\
              bounded 53 1024 m e = true /\
              e = Zdigits2 n - 53 /\
              Zpos m = n * 2 ^ (- e).
Proof.
  intros [Hn0 Hn53].
  destruct n as [|p|p]; try lia.
  unfold Py.of_int, Py.prec, Py.emax, binary_normalize, binary_round.
  rewrite fexp_fexp64. change (Zpos (digits2_pos p)) with (Zdigits2 (Zpos p)).
  pose proof (Zdigits2_le (Zpos p) 53 ltac:(lia) ltac:(lia) Hn53) as Hd53.
  destruct (Zdigits2_bounds (Zpos p) Hn0) as [_ Hd1].
  rewrite Z.add_0_r.
  assert (HE : fexp64 (Zdigits2 (Zpos p)) = Zdigits2 (Zpos p) - 53)
    by (unfold fexp64; lia).
  rewrite HE.
  pose proof (shl_align_spec p 0 (Zdigits2 (Zpos p) - 53)) as Hal.
  destruct (shl_align p 0 (Zdigits2 (Zpos p) - 53)) as [mz ez].
  destruct Hal as [Hez Hmz].
  rewrite Z.min_r in Hez by lia. subst ez.
  assert (Hdz : Zdigits2 (Zpos mz) = 53).
  { rewrite Hmz, Zdigits2_shift by lia. lia. }
  pose proof (binary_round_aux_spec false (Zpos mz)
                (Zdigits2 (Zpos p) - 53) loc_Exact ltac:(lia)) as Hsp.
  rewrite Hdz in Hsp.
  replace (fexp64 (53 + (Zdigits2 (Zpos p) - 53)))
    with (Zdigits2 (Zpos p) - 53) in Hsp by (unfold fexp64; lia).
  specialize (Hsp ltac:(lia)). cbv zeta in Hsp.
  rewrite Z.sub_diag, Z.pow_0_r, Z.div_1_r, Z.mod_1_r in Hsp.
  destruct (binary_round_aux 53 1024 false (Zpos mz) _ loc_Exact)
    as [s|s| |s m e]; try (exfalso; lia); try contradiction.
  destruct Hsp as (-> & Hb & He & Hv).
  assert (Hval : Zpos m * 2 ^ (e - (Zdigits2 (Zpos p) - 53)) = Zpos mz).
  { destruct Hv as [Hv|[_ [Hv|Hv]]]; [exact Hv|congruence|congruence]. }
  assert (e = Zdigits2 (Zpos p) - 53).
  { destruct (Z.eq_dec e (Zdigits2 (Zpos p) - 53)) as [|Hne]; trivial.
    exfalso.
    replace (e - (Zdigits2 (Zpos p) - 53)) with 1 in Hval by lia.
    destruct (bounded_elim _ _ Hb) as [Hc _].
    assert (Zdigits2 (Zpos m) = 52).
    { apply Zdigits2_unique; [|lia].
      destruct (Zdigits2_bounds (Zpos mz) ltac:(lia)) as [Hbz _].
      rewrite Hdz in Hbz. change (2 ^ 1) with 2 in Hval.
      change (2 ^ 53) with (2 * 2 ^ 52) in Hbz.
      change (2 ^ (53 - 1)) with (2 * 2 ^ (52 - 1)) in Hbz. lia. }
    unfold fexp64 in Hc. lia. }
  subst e. rewrite Z.sub_diag, Z.pow_0_r, Z.mul_1_r in Hval.
  exists m, (Zdigits2 (Zpos p) - 53). repeat split; trivial.
  rewrite Hval, Hmz, Z.sub_0_l. reflexivity.
Qed.

Lemma CROP_MARGIN_PERCENT_bits :
  CROP_MARGIN_PERCENT = S754_finite false 7205759403792794 (-57).
Proof. reflexivity. Qed.

Lemma int_of_float_finite_neg (m : positive) (e : Z) :
  e <= 0 ->
  Py.int_of_float (S754_finite false m e) = Ok (Zpos m / 2 ^ (- e)).
Proof.
  intros He. unfold Py.int_of_float, cond_Zopp. f_equal.
  replace e with (- (- e)) at 1 by lia.
  rewrite Z.shiftl_opp_r, Z.shiftr_div_pow2 by lia. reflexivity.
Qed.

(** A mantissa that sits between two consecutive integers, on a grid
    that contains them, truncates to the lower one. *)
Lemma trunc_on_grid (m a te T v k : Z) :
  0 < te -> 0 < a -> T = a * te -> m * a = v ->
  k * T <= v < (k + 1) * T -> m / te = k.
Proof.
  intros Hte Ha -> <- [Hlo Hhi].
  symmetry. apply (Z.div_unique_pos m te k (m - k * te)); nia.
Qed.

(** The arithmetic heart of the margin: with [20 * M = 2^57 + 8] the
    quotient of [w * M] by a power of two [K <= 2^31] stays, even after
    a round-up, strictly inside the grid cell of [w / 20]. *)
Lemma margin_cell (w K T q : Z) :
  0 <= w < 2 ^ 31 -> 1 <= K <= 2 ^ 31 -> T * K = 2 ^ 57 ->
  q = (w * 7205759403792794) / K ->
  (w / 20) * T <= q /\ q + 1 < (w / 20 + 1) * T.
Proof.
  intros Hw HK HT ->.
  set (M := 7205759403792794).
  assert (HM : 20 * M = 2 ^ 57 + 8) by reflexivity.
  pose proof (Z.div_mod w 20 ltac:(lia)) as Hdm.
  pose proof (Z.mod_pos_bound w 20 ltac:(lia)) as Hr.
  set (k := w / 20) in *. set (r := w mod 20) in *.
  pose proof (Z.mul_div_le (w * M) K ltac:(lia)) as Hql.
  pose proof (Z.mul_succ_div_gt (w * M) K ltac:(lia)) as Hqh.
  set (q := w * M / K) in *.
  assert (HT0 : 0 < T) by nia.
  change (2 ^ 31) with 2147483648 in *.
  change (2 ^ 57) with 144115188075855872 in *.
  split.
  - destruct (Z.le_gt_cases (k * T) q) as [H|H]; trivial. exfalso.
    assert (K * (q + 1) <= K * (k * T)) by (apply Z.mul_le_mono_nonneg_l; lia).
    nia.
  - destruct (Z.lt_ge_cases (q + 1) ((k + 1) * T)) as [H|H]; trivial. exfalso.
    assert (K * ((k + 1) * T) <= K * (q + 1))
      by (apply Z.mul_le_mono_nonneg_l; lia).
    nia.
Qed.

(** [int(w * 0.05)] is [w // 20] on every 32-bit side. *)
Lemma margin_spec (w : Z) : 0 <= w < 2 ^ 31 -> margin w = Ok (w / 20).
Proof.
  intros [Hw0 Hw31].
  destruct (Z.eq_dec w 0) as [->|Hne]; [reflexivity|].
  assert (Hw53 : 0 < w < 2 ^ 53).
  { split; [lia|]. apply Z.lt_trans with (1 := Hw31). reflexivity. }
  destruct (of_int_exact w Hw53) as (mw & ew & Hof & Hbw & Hew & Hmw).
  pose proof (Zdigits2_le w 31 ltac:(lia) ltac:(lia) Hw31) as Hd31.
  destruct (Zdigits2_bounds w ltac:(lia)) as [_ Hd1].
  set (d := Zdigits2 w) in *.
  unfold margin, Py.int_mul_float, Py.fmul, Py.prec, Py.emax.
  rewrite Hof, CROP_MARGIN_PERCENT_bits. unfold SFmul. cbn [xorb].
  set (M := 7205759403792794%positive).
  (* the operand's mantissa has 53 digits *)
  assert (Hmw53 : Zdigits2 (Zpos mw) = 53).
  { rewrite Hmw, Zdigits2_shift by lia. fold d. lia. }
  destruct (Zdigits2_bounds (Zpos mw) ltac:(lia)) as [Hmwb _].
  rewrite Hmw53 in Hmwb. change (53 - 1) with 52 in Hmwb.
  (* and the product's 105 or 106 *)
  assert (HMb : 2 ^ 52 <= Zpos M < 2 ^ 53) by (split; [discriminate|reflexivity]).
  assert (Hprod : 2 ^ 104 <= Zpos (mw * M) < 2 ^ 106).
  { rewrite Pos2Z.inj_mul.
    change (2 ^ 104) with (2 ^ 52 * 2 ^ 52).
    change (2 ^ 106) with (2 ^ 53 * 2 ^ 53).
    change (2 ^ 52) with 4503599627370496 in *.
    change (2 ^ 53) with 9007199254740992 in *. nia. }
  pose proof (Zdigits2_ge (Zpos (mw * M)) 104 ltac:(lia) (proj1 Hprod))
    as HD105.
  pose proof (Zdigits2_le (Zpos (mw * M)) 106 ltac:(lia) ltac:(lia)
                (proj2 Hprod)) as HD106.
  set (D := Zdigits2 (Zpos (mw * M))) in *.
  pose proof (binary_round_aux_spec false (Zpos (mw * M)) (ew + -57)
                loc_Exact ltac:(lia)) as Hsp.
  fold D in Hsp.
  assert (HE : fexp64 (D + (ew + -57)) = D + d - 163)
    by (unfold fexp64; lia).
  rewrite HE in Hsp. specialize (Hsp ltac:(lia)). cbv zeta in Hsp.
  replace (D + d - 163 - (ew + -57)) with (D - 53) in Hsp by lia.
  set (E := D + d - 163) in *.
  set (q := Zpos (mw * M) / 2 ^ (D - 53)) in *.
  (* the quotient, with the operand's scaling cancelled *)
  assert (Hq : q = (w * Zpos M) / 2 ^ (E + 57)).
  { unfold q. rewrite Pos2Z.inj_mul, Hmw.
    replace (D - 53) with ((E + 57) + (- ew)) by lia.
    rewrite Z.pow_add_r by lia.
    replace (w * 2 ^ (- ew) * Zpos M) with ((w * Zpos M) * 2 ^ (- ew)) by lia.
    apply Z.div_mul_cancel_r.
    - pose proof (Z.pow_pos_nonneg 2 (E + 57)); lia.
    - pose proof (Z.pow_pos_nonneg 2 (- ew)); lia. }
  assert (HK : 1 <= 2 ^ (E + 57) <= 2 ^ 31).
  { split.
    - pose proof (Z.pow_pos_nonneg 2 (E + 57)); lia.
    - apply Z.pow_le_mono_r; lia. }
  assert (HT : 2 ^ (- E) * 2 ^ (E + 57) = 2 ^ 57).
  { rewrite <- Z.pow_add_r by lia. f_equal. lia. }
  destruct (margin_cell w _ _ q (conj Hw0 Hw31) HK HT Hq) as [Hlo Hhi].
  assert (Hq52 : 0 < q).
  { pose proof (Z.pow_pos_nonneg 2 (- E) ltac:(lia)).
    assert (1 <= w / 20 \/ w / 20 = 0) as [H1|H0]
        by (pose proof (Z.div_pos w 20); lia); [nia|].
    unfold q. apply Z.div_str_pos. split.
    - apply Z.pow_pos_nonneg; lia.
    - apply Z.le_trans with (2 := proj1 Hprod).
      apply Z.pow_le_mono_r; lia. }
  destruct (binary_round_aux 53 1024 false (Zpos (mw * M)) (ew + -57) loc_Exact)
    as [s|s| |s m e]; try (exfalso; lia); try contradiction.
  destruct Hsp as (-> & Hb & He & Hv).
  rewrite int_of_float_finite_neg by lia. f_equal.
  apply (trunc_on_grid (Zpos m) (2 ^ (e - E)) (2 ^ (- e)) (2 ^ (- E))
           (Zpos m * 2 ^ (e - E))); trivial.
  - apply Z.pow_pos_nonneg; lia.
  - apply Z.pow_pos_nonneg; lia.
  - rewrite <- Z.pow_add_r by lia. f_equal. lia.
  - destruct Hv as [->|[-> _]]; lia.
Qed.

(** *** Values that are at most one *)

Lemma pow2_pos (k : Z) : 0 <= k -> 0 < 2 ^ k.
Proof. intros. apply Z.pow_pos_nonneg; lia. Qed.

Lemma pow2_split (a b : Z) : 0 <= b <= a -> 2 ^ a = 2 ^ (a - b) * 2 ^ b.
Proof.
  intros H. rewrite <- Z.pow_add_r by lia. f_equal. lia.
Qed.

(** Rounding a value that is at most one gives at most one. *)
Lemma binary_round_aux_le1 (s : bool) (mx ex : Z) (l : location) :
  0 <= mx ->
  ex <= fexp64 (Zdigits2 mx + ex) ->
  le1 mx ex ->
  (mx = 2 ^ (- ex) -> l = loc_Exact) ->
  match binary_round_aux 53 1024 s mx ex l with
  | S754_zero s' => s' = s
  | S754_finite s' m e =>
      s' = s /\ bounded 53 1024 m e = true /\ le1 (Zpos m) e
  | _ => False
  end.
Proof.
  intros Hm Hex [Hex0 Hle] Hexact.
  pose proof (binary_round_aux_spec s mx ex l Hm Hex) as Hsp.
  cbv zeta in Hsp.
  set (E := fexp64 (Zdigits2 mx + ex)) in *.
  assert (HE : E <= -52).
  { destruct (Z.eq_dec mx 0) as [->|Hne].
    - simpl in E. unfold E, fexp64. lia.
    - destruct (Zdigits2_bounds mx ltac:(lia)) as [[Hlo _] Hd].
      assert (Zdigits2 mx - 1 <= - ex).
      { apply (Z.pow_le_mono_r_iff 2); lia. }
      unfold E, fexp64. lia. }
  assert (Hn : 0 <= E - ex) by (unfold E; lia).
  pose proof (pow2_pos (E - ex) Hn) as Hp.
  pose proof (pow2_pos (- E) ltac:(lia)) as HT.
  assert (Hsplit : 2 ^ (- ex) = 2 ^ (- E) * 2 ^ (E - ex)).
  { rewrite <- Z.pow_add_r by lia. f_equal. lia. }
  assert (HQ : mx / 2 ^ (E - ex) <= 2 ^ (- E)).
  { apply Z.div_le_upper_bound; trivial. rewrite Z.mul_comm, <- Hsplit.
    exact Hle. }
  destruct (binary_round_aux 53 1024 s mx ex l) as [s'|s'| |s' m e].
  - tauto.
  - lia.
  - contradiction.
  - destruct Hsp as (-> & Hb & He & Hv).
    split; [reflexivity|]. split; [exact Hb|].
    assert (Hv' : Zpos m * 2 ^ (e - E) <= 2 ^ (- E)).
    { destruct Hv as [->|[-> Hi]]; trivial.
      destruct (Z.eq_dec (mx / 2 ^ (E - ex)) (2 ^ (- E))) as [Heq|Hne];
        [|lia].
      exfalso.
      pose proof (Z.mul_div_le mx (2 ^ (E - ex)) Hp) as Hdl.
      rewrite Heq, Z.mul_comm, <- Hsplit in Hdl.
      assert (Hmx : mx = 2 ^ (- ex)) by lia.
      destruct Hi as [Hi|Hi]; [|now apply Hi, Hexact].
      apply Hi. rewrite Hmx, Hsplit. apply Z.mod_mul. lia. }
    split; [lia|].
    pose proof (pow2_pos (e - E) ltac:(lia)) as Hpe.
    assert (Hs2 : 2 ^ (- E) = 2 ^ (- e) * 2 ^ (e - E)).
    { rewrite <- Z.pow_add_r by lia. f_equal. lia. }
    rewrite Hs2 in Hv'. nia.
Qed.

(** A product of two canonical mantissas is long enough for the spec. *)
Lemma mul_exponent_ok (m1 m2 : positive) (e1 e2 : Z) :
  bounded 53 1024 m1 e1 = true -> bounded 53 1024 m2 e2 = true ->
  e1 + e2 <= fexp64 (Zdigits2 (Zpos (m1 * m2)) + (e1 + e2)).
Proof.
  intros H1 H2.
  destruct (bounded_elim _ _ H1) as [Hc1 _].
  destruct (bounded_elim _ _ H2) as [Hc2 _].
  destruct (Zdigits2_bounds (Zpos m1) ltac:(lia)) as [[Hl1 _] Hd1].
  destruct (Zdigits2_bounds (Zpos m2) ltac:(lia)) as [[Hl2 _] Hd2].
  assert (HD : Zdigits2 (Zpos m1) + Zdigits2 (Zpos m2) - 1
               <= Zdigits2 (Zpos (m1 * m2))).
  { replace (Zdigits2 (Zpos m1) + Zdigits2 (Zpos m2) - 1)
      with ((Zdigits2 (Zpos m1) - 1 + (Zdigits2 (Zpos m2) - 1)) + 1) by lia.
    apply Zdigits2_ge; [lia|].
    rewrite Z.pow_add_r, Pos2Z.inj_mul by lia.
    pose proof (pow2_pos (Zdigits2 (Zpos m1) - 1) ltac:(lia)).
    pose proof (pow2_pos (Zdigits2 (Zpos m2) - 1) ltac:(lia)).
    nia. }
  unfold fexp64 in *. lia.
Qed.

Lemma fmul_le1 (m1 m2 : positive) (e1 e2 : Z) :
  bounded 53 1024 m1 e1 = true -> bounded 53 1024 m2 e2 = true ->
  le1 (Zpos m1) e1 -> le1 (Zpos m2) e2 ->
  match Py.fmul (S754_finite false m1 e1) (S754_finite false m2 e2) with
  | S754_zero s' => s' = false
  | S754_finite s' m e =>
      s' = false /\ bounded 53 1024 m e = true /\ le1 (Zpos m) e
  | _ => False
  end.
Proof.
  intros H1 H2 [He1 Hm1] [He2 Hm2].
  unfold Py.fmul, Py.prec, Py.emax, SFmul. cbn [xorb].
  apply binary_round_aux_le1.
  - lia.
  - now apply mul_exponent_ok.
  - split; [lia|]. rewrite Pos2Z.inj_mul.
    replace (- (e1 + e2)) with (- e1 + - e2) by lia.
    rewrite Z.pow_add_r by lia.
    apply Z.mul_le_mono_nonneg; lia.
  - reflexivity.
Qed.

(** *** Division *)

Lemma new_location_exact (n r : Z) :
  new_location n r = loc_Exact <-> r = 0.
Proof.
  unfold new_location, new_location_even, new_location_odd.
  destruct (Z.even n); destruct (Z.eqb_spec r 0); split; intros H;
    try reflexivity; try discriminate; try contradiction; trivial.
Qed.

(** The quotient, remainder and exponent the division works on. *)
Lemma SFdiv_core_spec (m1 m2 : positive) (e1 e2 : Z) :
  exists q r l,
    let e' := Z.min (fexp64 (Zdigits2 (Zpos m1) + e1
                             - (Zdigits2 (Zpos m2) + e2))) (e1 - e2) in
    SFdiv_core_binary 53 1024 (Zpos m1) e1 (Zpos m2) e2 = (q, e', l) /\
    Zpos m1 * 2 ^ (e1 - e2 - e') = Zpos m2 * q + r /\
    0 <= r < Zpos m2 /\ 0 <= q /\
    (l = loc_Exact <-> r = 0).
Proof.
  unfold SFdiv_core_binary. rewrite fexp_fexp64.
  set (e' := Z.min _ (e1 - e2)).
  assert (Hs : 0 <= e1 - e2 - e') by (unfold e'; lia).
  set (m' := match e1 - e2 - e' with
             | Zpos _ => Z.shiftl (Zpos m1) (e1 - e2 - e')
             | Z0 => Zpos m1
             | Zneg _ => 0
             end).
  assert (Hm' : m' = Zpos m1 * 2 ^ (e1 - e2 - e')).
  { unfold m'. destruct (e1 - e2 - e') as [|p|p] eqn:E; try lia.
    apply Z.shiftl_mul_pow2. lia. }
  pose proof (Z_div_mod m' (Zpos m2) ltac:(lia)) as Hdm.
  destruct (Z.div_eucl m' (Zpos m2)) as [q r].
  destruct Hdm as [Heq Hr].
  exists q, r, (new_location (Zpos m2) r). cbv zeta.
  split; [reflexivity|]. split; [now rewrite <- Hm'|]. split; [exact Hr|].
  split; [|apply new_location_exact].
  pose proof (pow2_pos _ Hs). nia.
Qed.

Lemma div_exponent_ok (m1 m2 : positive) (e1 e2 q r : Z) :
  let e' := Z.min (fexp64 (Zdigits2 (Zpos m1) + e1
                           - (Zdigits2 (Zpos m2) + e2))) (e1 - e2) in
  Zpos m1 * 2 ^ (e1 - e2 - e') = Zpos m2 * q + r ->
  0 <= r < Zpos m2 -> 0 <= q ->
  e' <= fexp64 (Zdigits2 q + e').
Proof.
  intros e' Heq Hr Hq.
  destruct (Z.le_gt_cases e' (-1074)) as [Hsub|Hnorm];
    [unfold fexp64; lia|].
  destruct (Zdigits2_bounds (Zpos m1) ltac:(lia)) as [[Hl1 _] Hd1].
  destruct (Zdigits2_bounds (Zpos m2) ltac:(lia)) as [[_ Hh2] Hd2].
  set (d1 := Zdigits2 (Zpos m1)) in *. set (d2 := Zdigits2 (Zpos m2)) in *.
  assert (He' : e' <= d1 + e1 - (d2 + e2) - 53)
    by (unfold e', fexp64 in *; lia).
  assert (He'' : e' <= e1 - e2) by (unfold e'; lia).
  set (s := e1 - e2 - e') in *.
  set (k := d1 - 1 + s - d2).
  assert (Hk : 52 <= k) by (unfold k, s; lia).
  assert (Hqk : 2 ^ k <= q).
  { destruct (Z.le_gt_cases (2 ^ k) q) as [H|H]; trivial. exfalso.
    assert (H1 : 2 ^ (d1 - 1) * 2 ^ s <= Zpos m1 * 2 ^ s).
    { apply Z.mul_le_mono_nonneg_r; [|exact Hl1].
      apply Z.lt_le_incl, pow2_pos. unfold s. lia. }
    assert (H2 : 2 ^ (d1 - 1) * 2 ^ s = 2 ^ k * 2 ^ d2).
    { rewrite <- !Z.pow_add_r by (unfold k, s in *; lia).
      f_equal. unfold k. lia. }
    pose proof (pow2_pos k ltac:(lia)). nia. }
  pose proof (Zdigits2_ge q k ltac:(lia) Hqk).
  unfold fexp64. unfold k, s in *. lia.
Qed.

(** A quotient of two finite positive floats is a valid non-negative
    float (or overflows to [+inf]). *)
Lemma fdiv_shape (m1 m2 : positive) (e1 e2 : Z) :
  match Py.fdiv (S754_finite false m1 e1) (S754_finite false m2 e2) with
  | S754_zero s' => s' = false
  | S754_infinity s' => s' = false
  | S754_finite s' m e => s' = false /\ bounded 53 1024 m e = true
  | S754_nan => False
  end.
Proof.
  unfold Py.fdiv, Py.prec, Py.emax, SFdiv. cbn [xorb].
  destruct (SFdiv_core_spec m1 m2 e1 e2) as (q & r & l & Hcore).
  cbv zeta in Hcore. destruct Hcore as (-> & Heq & Hr & Hq & Hl).
  pose proof (div_exponent_ok m1 m2 e1 e2 q r Heq Hr Hq) as Hex.
  cbv zeta in Hex.
  pose proof (binary_round_aux_spec false q _ l Hq Hex) as Hsp.
  cbv zeta in Hsp.
  destruct (binary_round_aux 53 1024 false q _ l) as [s'|s'| |s' m e];
    tauto.
Qed.

(** A quotient of a float by one that is not smaller is at most one. *)
Lemma fdiv_le1 (m1 m2 : positive) (e1 e2 : Z) :
  dy_le (Zpos m1) e1 (Zpos m2) e2 ->
  match Py.fdiv (S754_finite false m1 e1) (S754_finite false m2 e2) with
  | S754_zero s' => s' = false
  | S754_finite s' m e =>
      s' = false /\ bounded 53 1024 m e = true /\ le1 (Zpos m) e
  | _ => False
  end.
Proof.
  intros Hle.
  unfold Py.fdiv, Py.prec, Py.emax, SFdiv. cbn [xorb].
  destruct (SFdiv_core_spec m1 m2 e1 e2) as (q & r & l & Hcore).
  cbv zeta in Hcore. destruct Hcore as (-> & Heq & Hr & Hq & Hl).
  pose proof (div_exponent_ok m1 m2 e1 e2 q r Heq Hr Hq) as Hex.
  cbv zeta in Hex.
  destruct (Zdigits2_bounds (Zpos m1) ltac:(lia)) as [[Hl1 _] Hd1].
  destruct (Zdigits2_bounds (Zpos m2) ltac:(lia)) as [[_ Hh2] Hd2].
  set (d1 := Zdigits2 (Zpos m1)) in *. set (d2 := Zdigits2 (Zpos m2)) in *.
  set (e' := Z.min (fexp64 (d1 + e1 - (d2 + e2))) (e1 - e2)) in *.
  unfold dy_le in Hle. set (k := Z.min e1 e2) in *.
  pose proof (pow2_pos (e1 - k) ltac:(unfold k; lia)) as Hp1.
  pose proof (pow2_pos (e2 - k) ltac:(unfold k; lia)) as Hp2.
  (* the dividend has no more digits above its exponent than the divisor *)
  assert (Hd : d1 + e1 - (d2 + e2) <= 0).
  { assert (H : 2 ^ (d1 - 1 + (e1 - k)) < 2 ^ (d2 + (e2 - k))).
    { rewrite !Z.pow_add_r by (unfold k; lia). nia. }
    apply Z.pow_lt_mono_r_iff in H; unfold k in *; lia. }
  assert (He' : e' <= -53) by (unfold e', fexp64; lia).
  assert (Hs : 0 <= e1 - e2 - e') by (unfold e'; lia).
  (* the scaled dividend is at most the scaled divisor *)
  assert (Hscaled : Zpos m1 * 2 ^ (e1 - e2 - e') <= Zpos m2 * 2 ^ (- e')).
  { assert (Hk : 0 <= k - e2 - e') by (unfold k in *; lia).
    pose proof (pow2_pos _ Hk) as Hpk.
    replace (e1 - e2 - e') with ((e1 - k) + (k - e2 - e')) by lia.
    replace (- e') with ((e2 - k) + (k - e2 - e')) by lia.
    rewrite !Z.pow_add_r by (unfold k in *; lia). nia. }
  pose proof (pow2_pos (- e') ltac:(lia)) as HpT.
  apply binary_round_aux_le1; trivial.
  - split; [lia|].
    destruct (Z.le_gt_cases q (2 ^ (- e'))) as [H|H]; trivial. nia.
  - intros Hqe. apply Hl. nia.
Qed.

(** *** Comparisons of canonical floats *)

Lemma bounded_range (m : positive) (e : Z) :
  bounded 53 1024 m e = true ->
  Zpos m < 2 ^ 53 /\ -1074 <= e /\ (-1074 < e -> 2 ^ 52 <= Zpos m).
Proof.
  intros Hb. destruct (bounded_elim _ _ Hb) as [Hc _].
  destruct (Zdigits2_bounds (Zpos m) ltac:(lia)) as [[Hlo Hhi] Hd].
  unfold fexp64 in Hc. split; [|split].
  - apply Z.lt_le_trans with (1 := Hhi). apply Z.pow_le_mono_r; lia.
  - lia.
  - intros Hn. apply Z.le_trans with (2 := Hlo).
    apply Z.pow_le_mono_r; lia.
Qed.

Lemma MAX_AREA_RATIO_bits :
  MAX_AREA_RATIO = S754_finite false 8556839292003942 (-53).
Proof. reflexivity. Qed.

Lemma of_int_1_bits :
  Py.of_int 1 = S754_finite false 4503599627370496 (-52).
Proof. reflexivity. Qed.

(** What is not above [0.95] is at most one. *)
Lemma not_above_max_le1 (m : positive) (e : Z) :
  bounded 53 1024 m e = true ->
  Py.fgt (S754_finite false m e) MAX_AREA_RATIO = false ->
  le1 (Zpos m) e.
Proof.
  intros Hb Hgt. destruct (bounded_range _ _ Hb) as (Hm & _ & _).
  unfold Py.fgt, SFltb in Hgt. rewrite MAX_AREA_RATIO_bits in Hgt.
  cbn [SFcompare] in Hgt.
  destruct (Z.compare_spec (-53) e) as [He|He|He]; try discriminate.
  - subst e. split; [lia|]. change (2 ^ (- -53)) with (2 ^ 53). lia.
  - split; [lia|]. apply Z.lt_le_incl, Z.lt_le_trans with (1 := Hm).
    apply Z.pow_le_mono_r; lia.
Qed.

Lemma le1_fle_one (m : positive) (e : Z) :
  bounded 53 1024 m e = true ->
  le1 (Zpos m) e ->
  Py.fle (S754_finite false m e) (Py.of_int 1) = true.
Proof.
  intros Hb [He Hm]. destruct (bounded_range _ _ Hb) as (_ & _ & Hn).
  unfold Py.fle, SFleb. rewrite of_int_1_bits. cbn [SFcompare].
  destruct (Z.compare_spec e (-52)) as [He2|He2|He2]; trivial.
  - subst e. change (2 ^ (- -52)) with 4503599627370496 in Hm.
    rewrite Pos.compare_cont_spec. cbn [Pos.switch_Eq].
    destruct (Pos.compare_spec m 4503599627370496); trivial. lia.
  - exfalso. specialize (Hn ltac:(lia)).
    assert (2 ^ (- e) < 2 ^ 52) by (apply Z.pow_lt_mono_r; lia). lia.
Qed.

Lemma fle_dy_le (m1 m2 : positive) (e1 e2 : Z) :
  bounded 53 1024 m1 e1 = true -> bounded 53 1024 m2 e2 = true ->
  Py.fle (S754_finite false m1 e1) (S754_finite false m2 e2) = true ->
  dy_le (Zpos m1) e1 (Zpos m2) e2.
Proof.
  intros H1 H2 Hle.
  destruct (bounded_range _ _ H1) as (Hm1 & He1 & _).
  destruct (bounded_range _ _ H2) as (_ & _ & Hn2).
  unfold Py.fle, SFleb in Hle. cbn [SFcompare] in Hle. unfold dy_le.
  destruct (Z.compare_spec e1 e2) as [He|He|He]; try discriminate.
  - subst e2. rewrite Z.min_id, Z.sub_diag, Z.pow_0_r.
    rewrite Pos.compare_cont_spec in Hle. cbn [Pos.switch_Eq] in Hle.
    destruct (Pos.compare_spec m1 m2); try discriminate; lia.
  - rewrite Z.min_l, Z.sub_diag, Z.pow_0_r by lia.
    specialize (Hn2 ltac:(lia)).
    assert (2 ^ 1 <= 2 ^ (e2 - e1)) by (apply Z.pow_le_mono_r; lia).
    change (2 ^ 1) with 2 in *. change (2 ^ 53) with (2 * 2 ^ 52) in Hm1.
    nia.
Qed.

(** *** Conversions and products never give a NaN *)

(** [float(n)] of any integer is a signed zero, a canonical float or
    an infinity. *)
Lemma of_int_shape (n : Z) :
  match Py.of_int n with
  | S754_zero _ => True
  | S754_infinity _ => True
  | S754_finite _ m e => bounded 53 1024 m e = true
  | S754_nan => False
  end.
Proof.
  assert (H : forall (s : bool) (p : positive),
             match binary_round 53 1024 s p 0 with
             | S754_zero _ => True
             | S754_infinity _ => True
             | S754_finite _ m e => bounded 53 1024 m e = true
             | S754_nan => False
             end).
  { intros s p. unfold binary_round. rewrite fexp_fexp64.
    change (Zpos (digits2_pos p)) with (Zdigits2 (Zpos p)).
    pose proof (shl_align_spec p 0 (fexp64 (Zdigits2 (Zpos p) + 0))) as Hal.
    destruct (shl_align p 0 _) as [mz ez]. destruct Hal as [Hez Hmz].
    assert (Hd : Zdigits2 (Zpos mz) + ez = Zdigits2 (Zpos p) + 0).
    { rewrite Hmz, Zdigits2_shift by lia. lia. }
    pose proof (binary_round_aux_spec s (Zpos mz) ez loc_Exact ltac:(lia))
      as Hsp.
    rewrite Hd in Hsp. specialize (Hsp ltac:(lia)). cbv zeta in Hsp.
    destruct (binary_round_aux 53 1024 s (Zpos mz) ez loc_Exact); tauto. }
  unfold Py.of_int, Py.prec, Py.emax, binary_normalize.
  destruct n as [|p|p]; [exact I|apply H|apply H].
Qed.

(** [float(n)] of a positive integer below [2^1023] is a positive
    canonical float. *)
Lemma of_int_finite (p : positive) :
  Zpos p < 2 ^ 1023 ->
  match Py.of_int (Zpos p) with
  | S754_finite s m e => s = false /\ bounded 53 1024 m e = true
  | _ => False
  end.
Proof.
  intros Hp.
  unfold Py.of_int, Py.prec, Py.emax, binary_normalize, binary_round.
  rewrite fexp_fexp64. change (Zpos (digits2_pos p)) with (Zdigits2 (Zpos p)).
  pose proof (shl_align_spec p 0 (fexp64 (Zdigits2 (Zpos p) + 0))) as Hal.
  destruct (shl_align p 0 _) as [mz ez]. destruct Hal as [Hez Hmz].
  assert (Hd : Zdigits2 (Zpos mz) + ez = Zdigits2 (Zpos p) + 0).
  { rewrite Hmz, Zdigits2_shift by lia. lia. }
  pose proof (binary_round_aux_spec false (Zpos mz) ez loc_Exact ltac:(lia))
    as Hsp.
  rewrite Hd in Hsp. specialize (Hsp ltac:(lia)). cbv zeta in Hsp.
  destruct (Zdigits2_bounds (Zpos p) ltac:(lia)) as [[Hlo _] Hd1].
  pose proof (Zdigits2_le (Zpos p) 1023 ltac:(lia) ltac:(lia) Hp) as Hd2.
  (* no underflow: the target exponent is not above the mantissa *)
  assert (Hq : 0 < Zpos mz / 2 ^ (fexp64 (Zdigits2 (Zpos p) + 0) - ez)).
  { apply Z.div_str_pos. split; [apply pow2_pos; lia|].
    rewrite Hmz.
    destruct (Z.le_gt_cases (fexp64 (Zdigits2 (Zpos p) + 0)) 0) as [H|H].
    - rewrite Z.min_r in Hez by lia. subst ez.
      rewrite Z.sub_diag, Z.pow_0_r.
      pose proof (pow2_pos (0 - fexp64 (Zdigits2 (Zpos p) + 0)) ltac:(lia)).
      nia.
    - rewrite Z.min_l in Hez by lia. subst ez.
      rewrite Z.sub_diag, Z.pow_0_r, Z.mul_1_r, Z.sub_0_r.
      apply Z.le_trans with (2 := Hlo).
      apply Z.pow_le_mono_r; [lia|]. unfold fexp64 in *. lia. }
  destruct (binary_round_aux 53 1024 false (Zpos mz) ez loc_Exact);
    try tauto; unfold fexp64 in *; lia.
Qed.

(** A product of two canonical floats is a signed zero, a canonical
    float or an infinity. *)
Lemma fmul_shape (s1 s2 : bool) (m1 m2 : positive) (e1 e2 : Z) :
  bounded 53 1024 m1 e1 = true -> bounded 53 1024 m2 e2 = true ->
  match Py.fmul (S754_finite s1 m1 e1) (S754_finite s2 m2 e2) with
  | S754_zero _ => True
  | S754_infinity _ => True
  | S754_finite _ m e => bounded 53 1024 m e = true
  | S754_nan => False
  end.
Proof.
  intros H1 H2. unfold Py.fmul, Py.prec, Py.emax, SFmul.
  pose proof (binary_round_aux_spec (xorb s1 s2) (Zpos (m1 * m2)) (e1 + e2)
                loc_Exact ltac:(lia) (mul_exponent_ok _ _ _ _ H1 H2)) as Hsp.
  cbv zeta in Hsp.
  destruct (binary_round_aux 53 1024 _ _ _ _); tauto.
Qed.

(** The margin is an integer or an overflow, never another error. *)
Lemma margin_cases (side : Z) :
  (exists v, margin side = Ok v) \/ margin side = Raise OverflowError.
Proof.
  unfold margin, Py.int_mul_float. rewrite CROP_MARGIN_PERCENT_bits.
  pose proof (of_int_shape side) as Hs.
  destruct (Py.of_int side) as [s|s| |s m e]; try contradiction.
  - left. eexists. reflexivity.
  - right. reflexivity.
  - pose proof (fmul_shape s false m 7205759403792794 e (-57) Hs eq_refl)
      as Hm.
    destruct (Py.fmul _ _) as [s'|s'| |s' m' e']; try contradiction.
    + left. eexists. reflexivity.
    + right. reflexivity.
    + left. eexists. reflexivity.
Qed.

(** *** Rounding to nearest, ties to even *)

Lemma places_exact (m : Z) : places (shr_record_of_loc m loc_Exact) 0 1.
Proof. unfold places. simpl. repeat split; try lia; discriminate. Qed.

Lemma places_shr_1 (x : shr_record) (N D : Z) :
  0 <= shr_m x -> places x N D ->
  places (shr_1 x) (shr_m x mod 2 * D + N) (2 * D).
Proof.
  intros Hm (HN & Hr & Hs).
  pose proof (Z.mod_pos_bound (shr_m x) 2 ltac:(lia)) as Hb.
  assert (Hrs : shr_r x || shr_s x = true <-> N <> 0).
  { rewrite orb_true_iff, Hr, Hs. lia. }
  destruct x as [m r s]. cbn [shr_m shr_r shr_s] in *.
  assert (Hbit : shr_r (shr_1 (Build_shr_record m r s)) = true <-> m mod 2 = 1).
  { destruct m as [|[p|p|]|p]; try lia; cbn [shr_1 shr_r].
    - rewrite Z.mod_0_l by lia. split; [discriminate|lia].
    - rewrite Pos2Z.inj_xI.
      replace ((2 * Zpos p + 1) mod 2) with 1
        by (apply (Z.mod_unique_pos _ 2 (Zpos p) 1); lia).
      tauto.
    - rewrite Pos2Z.inj_xO.
      replace ((2 * Zpos p) mod 2) with 0
        by (apply (Z.mod_unique_pos _ 2 (Zpos p) 0); lia).
      split; [discriminate|lia].
    - tauto. }
  assert (Hst : shr_s (shr_1 (Build_shr_record m r s)) = (r || s)).
  { destruct m as [|[p|p|]|p]; try lia; reflexivity. }
  unfold places. rewrite Hbit, Hst, Hrs.
  assert (Hcase : m mod 2 = 0 \/ m mod 2 = 1) by lia.
  destruct Hcase as [-> | ->]; lia.
Qed.

Lemma places_iter (p : positive) (x : shr_record) (N D : Z) :
  0 <= shr_m x -> places x N D ->
  places (iter_pos shr_1 p x)
         (shr_m x mod 2 ^ Zpos p * D + N) (2 ^ Zpos p * D).
Proof.
  intros Hm Hpl.
  pose (P := fun (k : Z) (y : shr_record) =>
               shr_m y = shr_m x / 2 ^ k /\
               places y (shr_m x mod 2 ^ k * D + N) (2 ^ k * D)).
  assert (HP : P (0 + Zpos p) (iter_pos shr_1 p x)).
  { apply iter_pos_inv; [|lia|].
    - intros k y Hk [Hy Hp]. unfold P.
      assert (Hp2 : 0 < 2 ^ k) by (apply Z.pow_pos_nonneg; lia).
      assert (Hy0 : 0 <= shr_m y) by (rewrite Hy; apply Z.div_pos; lia).
      destruct (shr_1_spec y Hy0) as [Hm1 _]. split.
      + rewrite Hm1, Hy, Z.div_div, Z.pow_add_r, Z.pow_1_r by lia.
        reflexivity.
      + pose proof (places_shr_1 y _ _ Hy0 Hp) as H1.
        replace (shr_m x mod 2 ^ (k + 1) * D + N)
          with (shr_m y mod 2 * (2 ^ k * D) + (shr_m x mod 2 ^ k * D + N)).
        * replace (2 ^ (k + 1) * D) with (2 * (2 ^ k * D)); trivial.
          rewrite Z.pow_add_r, Z.pow_1_r by lia. lia.
        * rewrite Z.pow_add_r, Z.pow_1_r by lia.
          rewrite (Z.rem_mul_r (shr_m x) (2 ^ k) 2) by lia.
          rewrite Hy. lia.
    - unfold P. rewrite Z.pow_0_r, Z.div_1_r, Z.mod_1_r.
      split; [reflexivity|]. now rewrite Z.mul_0_l, Z.mul_1_l. }
  exact (proj2 HP).
Qed.

Lemma round_nearest_even_places (x : shr_record) (N D : Z) :
  places x N D ->
  round_nearest_even (shr_m x) (loc_of_shr_record x)
  = nearest_even (shr_m x) N D.
Proof.
  intros (HN & Hr & Hs). unfold nearest_even.
  destruct x as [m r s]. cbn [shr_m shr_r shr_s] in *.
  destruct (Z.ltb_spec D (2 * N)) as [Hlt|Hge];
    destruct (Z.eqb_spec D (2 * N)) as [Heq|Hne]; try lia; cbn [orb andb].
  - (* above the half *)
    assert (r = true) by (apply Hr; lia).
    assert (s = true) by (apply Hs; lia). subst. reflexivity.
  - (* the half *)
    assert (r = true) by (apply Hr; lia).
    assert (s = false).
    { destruct s; trivial. destruct (proj1 Hs eq_refl). lia. }
    subst. cbn [loc_of_shr_record round_nearest_even].
    rewrite <- Z.negb_odd. destruct (Z.odd m); reflexivity.
  - (* below the half *)
    assert (r = false).
    { destruct r; trivial. pose proof (proj1 Hr eq_refl). lia. }
    subst. destruct s; reflexivity.
Qed.

(** A shift of a placed mantissa. *)
Lemma shr_places (mx ex n : Z) (l : location) (N0 D0 : Z) :
  0 <= mx -> 0 <= n -> places (shr_record_of_loc mx l) N0 D0 ->
  exists x', shr (shr_record_of_loc mx l) ex n = (x', ex + n) /\
             shr_m x' = mx / 2 ^ n /\
             places x' (mx mod 2 ^ n * D0 + N0) (2 ^ n * D0).
Proof.
  intros Hm Hn Hpl. destruct (inexact_of_loc mx l) as [H1 _].
  destruct n as [|p|p]; try lia.
  - exists (shr_record_of_loc mx l). cbn [shr].
    rewrite Z.add_0_r, Z.pow_0_r, Z.div_1_r, Z.mod_1_r, H1.
    rewrite Z.mul_0_l, Z.add_0_l, Z.mul_1_l. auto.
  - exists (iter_pos shr_1 p (shr_record_of_loc mx l)).
    destruct (shr_iter_spec p (shr_record_of_loc mx l)) as [Hq _];
      [now rewrite H1|].
    pose proof (places_iter p _ _ _ ltac:(now rewrite H1) Hpl) as Hp.
    rewrite H1 in Hq, Hp. simpl. auto.
Qed.

Lemma nearest_even_range (q N D : Z) :
  q <= nearest_even q N D <= q + 1.
Proof. unfold nearest_even. destruct (_ || _); lia. Qed.

(** What [binary_round_aux] returns, to the digit: the mantissa is
    shifted to the target exponent [E] and rounded there to the nearest
    integer, ties to even. *)
Lemma binary_round_aux_nearest (s : bool) (mx ex : Z) (l : location)
      (N0 D0 : Z) :
  0 <= mx ->
  ex <= fexp64 (Zdigits2 mx + ex) ->
  places (shr_record_of_loc mx l) N0 D0 ->
  let E := fexp64 (Zdigits2 mx + ex) in
  let v := nearest_even (mx / 2 ^ (E - ex))
                        (mx mod 2 ^ (E - ex) * D0 + N0)
                        (2 ^ (E - ex) * D0) in
  match binary_round_aux 53 1024 s mx ex l with
  | S754_zero s' => s' = s /\ v = 0
  | S754_infinity s' => s' = s /\ 971 <= E
  | S754_nan => False
  | S754_finite s' m e =>
      s' = s /\ bounded 53 1024 m e = true /\ E <= e <= E + 1 /\
      Zpos m * 2 ^ (e - E) = v
  end.
Proof.
  intros Hm Hex Hpl E v.
  assert (HE : -1074 <= E) by (unfold E, fexp64; lia).
  assert (Hn : 0 <= E - ex) by (unfold E; lia).
  assert (Hp : 0 < 2 ^ (E - ex)) by (apply Z.pow_pos_nonneg; lia).
  set (q := mx / 2 ^ (E - ex)) in *.
  assert (Hq0 : 0 <= q) by (apply Z.div_pos; lia).
  assert (Hq53 : q < 2 ^ 53).
  { apply Z.div_lt_upper_bound; trivial.
    rewrite <- Z.pow_add_r by lia.
    destruct (Z.eq_dec mx 0) as [->|Hne].
    - apply Z.pow_pos_nonneg; lia.
    - destruct (Zdigits2_bounds mx ltac:(lia)) as [[_ Hhi] Hd].
      apply Z.lt_le_trans with (1 := Hhi).
      apply Z.pow_le_mono_r; [lia|]. unfold E, fexp64. lia. }
  assert (Hq52 : -1074 < E -> 2 ^ 52 <= q).
  { intros Hnorm.
    destruct (Z.eq_dec mx 0) as [->|Hne].
    - exfalso. simpl in E. unfold E, fexp64 in *. lia.
    - destruct (Zdigits2_bounds mx ltac:(lia)) as [[Hlo _] Hd].
      apply Z.div_le_lower_bound; trivial.
      rewrite <- Z.pow_add_r by lia.
      apply Z.le_trans with (2 := Hlo).
      apply Z.pow_le_mono_r; [lia|]. unfold E, fexp64 in *. lia. }
  unfold binary_round_aux, shr_fexp. rewrite !fexp_fexp64. fold E.
  destruct (shr_places mx ex (E - ex) l N0 D0 Hm Hn Hpl)
    as (x' & Hshr & Hxm & Hxp).
  rewrite Hshr. cbv beta iota. rewrite ?fexp_fexp64.
  replace (ex + (E - ex)) with E by lia.
  fold q in Hxm.
  rewrite (round_nearest_even_places x' _ _ Hxp), Hxm. fold v.
  pose proof (nearest_even_range q (mx mod 2 ^ (E - ex) * D0 + N0)
                (2 ^ (E - ex) * D0)) as Hr.
  fold v in Hr.
  assert (Hm1 : v = 0 \/ (0 < v < 2 ^ 53) \/ v = 2 ^ 53) by lia.
  destruct Hm1 as [H0|[Hmid|Htop]].
  - rewrite H0. simpl Zdigits2. rewrite shr_exact_0 by (unfold fexp64; lia).
    simpl. split; reflexivity.
  - assert (Hd1 : fexp64 (Zdigits2 v + E) = E).
    { pose proof (Zdigits2_le v 53 ltac:(lia) ltac:(lia) (proj2 Hmid)).
      destruct (Zdigits2_bounds v (proj1 Hmid)) as [_ Hd].
      destruct (Z.eq_dec E (-1074)) as [He|He].
      - unfold fexp64. lia.
      - rewrite (Zdigits2_unique v 53); [unfold fexp64; lia| |lia].
        specialize (Hq52 ltac:(lia)). change (53 - 1) with 52. lia. }
    rewrite Hd1, Z.sub_diag. simpl shr.
    destruct v as [|m|m] eqn:Hv; try lia. simpl shr_m.
    change (1024 - 53) with 971.
    destruct (Z.leb_spec E 971) as [Hle|Hgt].
    + split; [reflexivity|]. split; [now apply bounded_intro|].
      split; [lia|]. rewrite Z.sub_diag, Z.pow_0_r, Z.mul_1_r. reflexivity.
    + split; [reflexivity|lia].
  - assert (Hd1 : fexp64 (Zdigits2 v + E) - E = 1).
    { rewrite Htop. change (Zdigits2 (2 ^ 53)) with 54. unfold fexp64. lia. }
    rewrite Hd1, Htop.
    change (shr (shr_record_of_loc (2 ^ 53) loc_Exact) E 1)
      with ({| shr_m := Zpos 4503599627370496; shr_r := false;
               shr_s := false |}, E + 1).
    cbv beta iota. cbn [shr_m].
    change (1024 - 53) with 971.
    destruct (Z.leb_spec (E + 1) 971) as [Hle|Hgt].
    + split; [reflexivity|]. split.
      { apply bounded_intro; trivial.
        change (Zdigits2 (Zpos 4503599627370496)) with 53. unfold fexp64. lia. }
      split; [lia|]. replace (E + 1 - E) with 1 by lia. reflexivity.
    + split; [reflexivity|lia].
Qed.

(** The shifted mantissa has at most 53 digits, and exactly 53 above
    the subnormal range. *)
Lemma shifted_mantissa_range (mx ex : Z) :
  0 <= mx ->
  ex <= fexp64 (Zdigits2 mx + ex) ->
  let E := fexp64 (Zdigits2 mx + ex) in
  let q := mx / 2 ^ (E - ex) in
  -1074 <= E /\ 0 <= q < 2 ^ 53 /\ (-1074 < E -> 2 ^ 52 <= q).
Proof.
  intros Hm Hex E q.
  assert (HE : -1074 <= E) by (unfold E, fexp64; lia).
  assert (Hn : 0 <= E - ex) by (unfold E; lia).
  assert (Hp : 0 < 2 ^ (E - ex)) by (apply Z.pow_pos_nonneg; lia).
  split; [exact HE|]. split; [split|].
  - apply Z.div_pos; lia.
  - apply Z.div_lt_upper_bound; trivial.
    rewrite <- Z.pow_add_r by lia.
    destruct (Z.eq_dec mx 0) as [->|Hne].
    + apply Z.pow_pos_nonneg; lia.
    + destruct (Zdigits2_bounds mx ltac:(lia)) as [[_ Hhi] Hd].
      apply Z.lt_le_trans with (1 := Hhi).
      apply Z.pow_le_mono_r; [lia|]. unfold E, fexp64. lia.
  - intros Hnorm.
    destruct (Z.eq_dec mx 0) as [->|Hne].
    + exfalso. simpl in E. unfold E, fexp64 in *. lia.
    + destruct (Zdigits2_bounds mx ltac:(lia)) as [[Hlo _] Hd].
      apply Z.div_le_lower_bound; trivial.
      rewrite <- Z.pow_add_r by lia.
      apply Z.le_trans with (2 := Hlo).
      apply Z.pow_le_mono_r; [lia|]. unfold E, fexp64 in *. lia.
Qed.

Lemma new_location_places (q n r : Z) :
  0 <= r < n -> places (shr_record_of_loc q (new_location n r)) r n.
Proof.
  intros Hr. unfold new_location, new_location_even, new_location_odd.
  assert (Hodd : Z.even n = false -> 2 * r <> n).
  { intros Hev <-. rewrite Z.even_mul in Hev. discriminate. }
  destruct (Z.even n); [|specialize (Hodd eq_refl)];
    (destruct (Z.eqb_spec r 0) as [->|Hne];
     [|match goal with
       | |- context [Z.compare ?u ?v] => destruct (Z.compare_spec u v)
       end]);
    unfold places; cbn [shr_record_of_loc shr_r shr_s];
    repeat split; intros; try lia; try discriminate; trivial.
Qed.


(** The quotient, remainder, exponent and location the division works
    on. *)
Lemma SFdiv_core_eq (m1 m2 : positive) (e1 e2 : Z) :
  exists q r,
    let e' := Z.min (fexp64 (Zdigits2 (Zpos m1) + e1
                             - (Zdigits2 (Zpos m2) + e2))) (e1 - e2) in
    SFdiv_core_binary 53 1024 (Zpos m1) e1 (Zpos m2) e2
    = (q, e', new_location (Zpos m2) r) /\
    Zpos m1 * 2 ^ (e1 - e2 - e') = Zpos m2 * q + r /\
    0 <= r < Zpos m2 /\ 0 <= q.
Proof.
  unfold SFdiv_core_binary. rewrite fexp_fexp64.
  set (e' := Z.min _ (e1 - e2)).
  assert (Hs : 0 <= e1 - e2 - e') by (unfold e'; lia).
  set (m' := match e1 - e2 - e' with
             | Zpos _ => Z.shiftl (Zpos m1) (e1 - e2 - e')
             | Z0 => Zpos m1
             | Zneg _ => 0
             end).
  assert (Hm' : m' = Zpos m1 * 2 ^ (e1 - e2 - e')).
  { unfold m'. destruct (e1 - e2 - e') as [|p|p] eqn:E; try lia.
    apply Z.shiftl_mul_pow2. lia. }
  pose proof (Z_div_mod m' (Zpos m2) ltac:(lia)) as Hdm.
  destruct (Z.div_eucl m' (Zpos m2)) as [q r].
  destruct Hdm as [Heq Hr].
  exists q, r. cbv zeta.
  split; [reflexivity|]. split; [now rewrite <- Hm'|]. split; [exact Hr|].
  pose proof (pow2_pos _ Hs). nia.
Qed.

(** The quotient of two positive integers, to the digit: with
    [a * 2^-e' = Q * D + N] and [D = 2^(E - e') * b], the result is the
    integer nearest to [Q + N / D], at the exponent [E]. *)
Lemma fdiv_nearest (a b : positive) :
  exists e' E Q N D,
    e' <= 0 /\ e' <= E /\ -1074 <= E /\
    D = 2 ^ (E - e') * Zpos b /\ 0 <= N < D /\
    Zpos a * 2 ^ (- e') = Q * D + N /\
    0 <= Q < 2 ^ 53 /\ (-1074 < E -> 2 ^ 52 <= Q) /\
    match Py.fdiv (Py.int_operand (Zpos a)) (Py.int_operand (Zpos b)) with
    | S754_zero s => s = false /\ nearest_even Q N D = 0
    | S754_infinity s => s = false /\ 971 <= E
    | S754_nan => False
    | S754_finite s m e =>
        s = false /\ bounded 53 1024 m e = true /\
        magnitude (S754_finite s m e)
        = nearest_even Q N D * 2 ^ (E + 1074)
    end.
Proof.
  cbn [Py.int_operand].
  unfold Py.fdiv, Py.prec, Py.emax, SFdiv. cbn [xorb].
  destruct (SFdiv_core_eq a b 0 0) as (q & r & Hcore).
  cbv zeta in Hcore. destruct Hcore as (Hc & Heq & Hr & Hq).
  rewrite Hc.
  pose proof (div_exponent_ok a b 0 0 q r Heq Hr Hq) as Hex. cbv zeta in Hex.
  set (e' := Z.min (fexp64 (Zdigits2 (Zpos a) + 0 - (Zdigits2 (Zpos b) + 0)))
                   (0 - 0)) in *.
  assert (He' : e' <= 0) by (unfold e'; lia).
  replace (0 - 0 - e') with (- e') in Heq by lia.
  pose proof (binary_round_aux_nearest false q e' (new_location (Zpos b) r)
                r (Zpos b) Hq Hex (new_location_places q _ _ Hr)) as Hsp.
  cbv zeta in Hsp.
  destruct (shifted_mantissa_range q e' Hq Hex) as (HE & HQ & HQ52).
  set (E := fexp64 (Zdigits2 q + e')) in *.
  assert (Hn : 0 <= E - e') by (unfold E; lia).
  pose proof (pow2_pos _ Hn) as Hp.
  pose proof (Z.div_mod q (2 ^ (E - e')) ltac:(lia)) as Hdm.
  pose proof (Z.mod_pos_bound q (2 ^ (E - e')) Hp) as Hmb.
  exists e', E, (q / 2 ^ (E - e')), (q mod 2 ^ (E - e') * Zpos b + r),
    (2 ^ (E - e') * Zpos b).
  split; [exact He'|]. split; [lia|]. split; [exact HE|].
  split; [reflexivity|]. split; [nia|]. split; [nia|].
  split; [exact HQ|]. split; [exact HQ52|].
  destruct (binary_round_aux 53 1024 false q e' _) as [s|s| |s m e];
    trivial.
  destruct Hsp as (-> & Hb & He & Hv).
  split; [reflexivity|]. split; [exact Hb|].
  cbn [magnitude]. rewrite <- Hv.
  replace (e + 1074) with ((e - E) + (E + 1074)) by lia.
  rewrite Z.pow_add_r by lia. lia.
Qed.

(** *** A quotient against the midpoint between two neighbouring
    doubles *)

Section Bracket.
Variables A B e' E Q N D Mc ec : Z.
Hypothesis HB : 0 < B.
Hypothesis He' : e' <= 0.
Hypothesis He'E : e' <= E.
Hypothesis HE : -1074 <= E.
Hypothesis HD : D = 2 ^ (E - e') * B.
Hypothesis HN : 0 <= N < D.
Hypothesis HA : A * 2 ^ (- e') = Q * D + N.
Hypothesis HQ : 0 <= Q < 2 ^ 53.
Hypothesis HQ52 : -1074 < E -> 2 ^ 52 <= Q.
Hypothesis Hec : -1074 <= ec <= 0.
Hypothesis HMc : 2 ^ 52 <= Mc < 2 ^ 53.

(** Below the midpoint above [Mc * 2^ec] the quotient rounds to at
    most [Mc * 2^ec]. *)
Lemma bracket_upper :
  A * 2 ^ (1 - ec) < (2 * Mc + 1) * B ->
  E <= ec /\
  nearest_even Q N D * 2 ^ (E + 1074) <= Mc * 2 ^ (ec + 1074).
Proof.
  intros Hlt.
  pose proof (pow2_pos (- e') ltac:(lia)) as HP.
  pose proof (pow2_pos (1 - ec) ltac:(lia)) as HR.
  pose proof (pow2_pos (E - e') ltac:(lia)) as HS.
  pose proof (pow2_pos (E + 1074) ltac:(lia)) as HG.
  pose proof (nearest_even_range Q N D) as Hv.
  change (2 ^ 52) with 4503599627370496 in *.
  change (2 ^ 53) with 9007199254740992 in *.
  destruct (Z.lt_trichotomy E ec) as [Hc|[Hc|Hc]].
  - (* a lower binade *)
    split; [lia|].
    assert (H2 : 2 ^ (ec + 1074) = 2 ^ (ec - E) * 2 ^ (E + 1074)).
    { rewrite <- Z.pow_add_r by lia. f_equal. lia. }
    assert (H3 : 2 ^ 1 <= 2 ^ (ec - E)) by (apply Z.pow_le_mono_r; lia).
    change (2 ^ 1) with 2 in H3. rewrite H2. nia.
  - (* the same binade *)
    subst ec. split; [lia|].
    apply Z.mul_le_mono_nonneg_r; [lia|].
    assert (H2 : 2 ^ (1 - E) * 2 ^ (E - e') = 2 * 2 ^ (- e')).
    { rewrite <- Z.pow_add_r by lia.
      replace (1 - E + (E - e')) with (1 + - e') by lia.
      rewrite Z.pow_add_r by lia. reflexivity. }
    assert (H3 : 2 * (Q * D + N) < (2 * Mc + 1) * D).
    { rewrite <- HA, HD.
      apply Z.mul_lt_mono_pos_r with (p := 2 ^ (E - e')) in Hlt; trivial.
      nia. }
    unfold nearest_even.
    destruct (Z.ltb_spec D (2 * N)); destruct (Z.eqb_spec D (2 * N));
      cbn [orb andb]; try destruct (Z.odd Q); nia.
  - (* a higher binade: impossible *)
    exfalso. specialize (HQ52 ltac:(lia)).
    assert (H2 : 2 ^ (E - e') * 2 ^ (1 - ec) = 2 ^ (E - ec + 1) * 2 ^ (- e')).
    { rewrite <- !Z.pow_add_r by lia. f_equal. lia. }
    assert (H3 : 2 ^ 2 <= 2 ^ (E - ec + 1)) by (apply Z.pow_le_mono_r; lia).
    change (2 ^ 2) with 4 in H3.
    apply Z.mul_lt_mono_pos_r with (p := 2 ^ (- e')) in Hlt; trivial.
    assert (H4 : A * 2 ^ (- e') * 2 ^ (1 - ec)
                 >= 4503599627370496 * (2 ^ (E - e') * B) * 2 ^ (1 - ec)).
    { rewrite HA, HD. nia. }
    nia.
Qed.

(** Above that midpoint it rounds to at least the next double. *)
Lemma bracket_lower :
  (2 * Mc + 1) * B < A * 2 ^ (1 - ec) ->
  (Mc + 1) * 2 ^ (ec + 1074) <= nearest_even Q N D * 2 ^ (E + 1074).
Proof.
  intros Hlt.
  pose proof (pow2_pos (- e') ltac:(lia)) as HP.
  pose proof (pow2_pos (1 - ec) ltac:(lia)) as HR.
  pose proof (pow2_pos (E - e') ltac:(lia)) as HS.
  pose proof (pow2_pos (ec + 1074) ltac:(lia)) as HG.
  pose proof (nearest_even_range Q N D) as Hv.
  change (2 ^ 52) with 4503599627370496 in *.
  change (2 ^ 53) with 9007199254740992 in *.
  destruct (Z.lt_trichotomy E ec) as [Hc|[Hc|Hc]].
  - (* a lower binade: impossible *)
    exfalso.
    assert (H2 : 2 ^ (1 - ec) * 2 ^ (ec - e') = 2 * 2 ^ (- e')).
    { rewrite <- Z.pow_add_r by lia.
      replace (1 - ec + (ec - e')) with (1 + - e') by lia.
      rewrite Z.pow_add_r by lia. reflexivity. }
    assert (H3 : 2 * 2 ^ (E - e') <= 2 ^ (ec - e')).
    { replace (ec - e') with (1 + (ec - E - 1) + (E - e')) by lia.
      rewrite !Z.pow_add_r by lia. change (2 ^ 1) with 2.
      pose proof (pow2_pos (ec - E - 1) ltac:(lia)). nia. }
    pose proof (pow2_pos (ec - e') ltac:(lia)) as HT.
    apply Z.mul_lt_mono_pos_r with (p := 2 ^ (ec - e')) in Hlt; trivial.
    assert (H4 : A * 2 ^ (- e') < 9007199254740992 * (2 ^ (E - e') * B)).
    { rewrite HA, HD. nia. }
    nia.
  - (* the same binade *)
    subst ec. apply Z.mul_le_mono_nonneg_r; [lia|].
    assert (H2 : 2 ^ (1 - E) * 2 ^ (E - e') = 2 * 2 ^ (- e')).
    { rewrite <- Z.pow_add_r by lia.
      replace (1 - E + (E - e')) with (1 + - e') by lia.
      rewrite Z.pow_add_r by lia. reflexivity. }
    assert (H3 : (2 * Mc + 1) * D < 2 * (Q * D + N)).
    { rewrite <- HA, HD.
      apply Z.mul_lt_mono_pos_r with (p := 2 ^ (E - e')) in Hlt; trivial.
      nia. }
    unfold nearest_even.
    destruct (Z.ltb_spec D (2 * N)); destruct (Z.eqb_spec D (2 * N));
      cbn [orb andb]; try destruct (Z.odd Q); nia.
  - (* a higher binade *)
    specialize (HQ52 ltac:(lia)).
    assert (H2 : 2 ^ (E + 1074) = 2 ^ (E - ec) * 2 ^ (ec + 1074)).
    { rewrite <- Z.pow_add_r by lia. f_equal. lia. }
    assert (H3 : 2 ^ 1 <= 2 ^ (E - ec)) by (apply Z.pow_le_mono_r; lia).
    change (2 ^ 1) with 2 in H3. rewrite H2. nia.
Qed.

End Bracket.

(** *** Comparing a quotient of two ints with a double *)

Lemma magnitude_lt (m1 m2 : positive) (e1 e2 : Z) :
  bounded 53 1024 m1 e1 = true -> bounded 53 1024 m2 e2 = true ->
  (SFltb (S754_finite false m1 e1) (S754_finite false m2 e2) = true <->
   Zpos m1 * 2 ^ (e1 + 1074) < Zpos m2 * 2 ^ (e2 + 1074)).
Proof.
  intros Hb1 Hb2.
  destruct (bounded_range _ _ Hb1) as (Hm1 & He1 & Hn1).
  destruct (bounded_range _ _ Hb2) as (Hm2 & He2 & Hn2).
  change (2 ^ 52) with 4503599627370496 in *.
  change (2 ^ 53) with 9007199254740992 in *.
  pose proof (pow2_pos (e1 + 1074) ltac:(lia)) as Hp1.
  pose proof (pow2_pos (e2 + 1074) ltac:(lia)) as Hp2.
  unfold SFltb, SFcompare.
  destruct (Z.compare_spec e1 e2) as [->|Hlt|Hgt].
  - change (Pos.compare_cont Eq m1 m2) with (Pos.compare m1 m2).
    destruct (Pos.compare_spec m1 m2) as [->|Hlt|Hgt].
    + split; [discriminate|lia].
    + split; [intros _|reflexivity].
      apply Z.mul_lt_mono_pos_r; [exact Hp2|]. lia.
    + split; [discriminate|intros H; exfalso].
      apply Z.mul_lt_mono_pos_r in H; [lia|exact Hp2].
  - split; [intros _|reflexivity].
    specialize (Hn2 ltac:(lia)).
    assert (H2 : 2 ^ (e2 + 1074) = 2 ^ (e2 - e1) * 2 ^ (e1 + 1074)).
    { rewrite <- Z.pow_add_r by lia. f_equal. lia. }
    assert (H3 : 2 ^ 1 <= 2 ^ (e2 - e1)) by (apply Z.pow_le_mono_r; lia).
    change (2 ^ 1) with 2 in H3. rewrite H2. nia.
  - split; [discriminate|intros H; exfalso].
    specialize (Hn1 ltac:(lia)).
    assert (H2 : 2 ^ (e1 + 1074) = 2 ^ (e1 - e2) * 2 ^ (e2 + 1074)).
    { rewrite <- Z.pow_add_r by lia. f_equal. lia. }
    assert (H3 : 2 ^ 1 <= 2 ^ (e1 - e2)) by (apply Z.pow_le_mono_r; lia).
    change (2 ^ 1) with 2 in H3. rewrite H2 in H. nia.
Qed.

(** [a / b < c] on doubles, for [c] a normal double of mantissa [Mc]
    and exponent [ec]: the exact quotient lies below the midpoint
    between [c] and its predecessor.  (The midpoint itself is left
    out: there the parity of the mantissa decides.) *)
Lemma fdiv_flt_iff (a b Mc : positive) (ec : Z) :
  bounded 53 1024 Mc ec = true -> 2 ^ 52 < Zpos Mc -> ec <= 0 ->
  Zpos a * 2 ^ (1 - ec) <> (2 * Zpos Mc - 1) * Zpos b ->
  (Py.flt (Py.fdiv (Py.int_operand (Zpos a)) (Py.int_operand (Zpos b)))
          (S754_finite false Mc ec) = true
   <-> Zpos a * 2 ^ (1 - ec) < (2 * Zpos Mc - 1) * Zpos b).
Proof.
  intros Hb Hn Hec Htie.
  destruct (bounded_range _ _ Hb) as (Hm & He & _).
  destruct (fdiv_nearest a b)
    as (e' & E & Q & N & D & He' & He'E & HE & HD & HN & HA & HQ & HQ52 & Hres).
  pose proof (pow2_pos (ec + 1074) ltac:(lia)) as Hp.
  assert (HK : 2 * (Zpos Mc - 1) + 1 = 2 * Zpos Mc - 1) by lia.
  unfold Py.flt.
  destruct (Z.lt_trichotomy (Zpos a * 2 ^ (1 - ec)) ((2 * Zpos Mc - 1) * Zpos b))
    as [Hlt|[Heq|Hgt]]; [|contradiction|].
  - split; [intros _; exact Hlt|intros _].
    destruct (bracket_upper (Zpos a) (Zpos b) e' E Q N D (Zpos Mc - 1) ec
                ltac:(lia) He' He'E HE HD HN HA HQ HQ52 ltac:(lia) ltac:(lia)
                ltac:(rewrite HK; exact Hlt)) as [HEec Hle].
    destruct (Py.fdiv _ _) as [s|s| |s m e].
    + destruct Hres as [-> _]. reflexivity.
    + destruct Hres as [_ HE']. lia.
    + contradiction.
    + destruct Hres as (-> & Hbm & Hmag). cbn [magnitude] in Hmag.
      apply magnitude_lt; trivial. rewrite Hmag. nia.
  - split; [intros H; exfalso|intros H; lia].
    pose proof (bracket_lower (Zpos a) (Zpos b) e' E Q N D (Zpos Mc - 1) ec
                ltac:(lia) He' He'E HE HD HN HA HQ HQ52 ltac:(lia) ltac:(lia)
                ltac:(rewrite HK; exact Hgt)) as Hle.
    replace (Zpos Mc - 1 + 1) with (Zpos Mc) in Hle by lia.
    destruct (Py.fdiv _ _) as [s|s| |s m e].
    + destruct Hres as [_ Hv]. rewrite Hv in Hle. nia.
    + destruct Hres as [-> _]. discriminate H.
    + contradiction.
    + destruct Hres as (-> & Hbm & Hmag). cbn [magnitude] in Hmag.
      apply magnitude_lt in H; trivial. rewrite Hmag in H. lia.
Qed.

(** [a / b > c] on doubles: the exact quotient lies above the midpoint
    between [c] and its successor. *)
Lemma fdiv_fgt_iff (a b Mc : positive) (ec : Z) :
  bounded 53 1024 Mc ec = true -> 2 ^ 52 <= Zpos Mc -> ec <= 0 ->
  Zpos a * 2 ^ (1 - ec) <> (2 * Zpos Mc + 1) * Zpos b ->
  (Py.fgt (Py.fdiv (Py.int_operand (Zpos a)) (Py.int_operand (Zpos b)))
          (S754_finite false Mc ec) = true
   <-> (2 * Zpos Mc + 1) * Zpos b < Zpos a * 2 ^ (1 - ec)).
Proof.
  intros Hb Hn Hec Htie.
  destruct (bounded_range _ _ Hb) as (Hm & He & _).
  destruct (fdiv_nearest a b)
    as (e' & E & Q & N & D & He' & He'E & HE & HD & HN & HA & HQ & HQ52 & Hres).
  pose proof (pow2_pos (ec + 1074) ltac:(lia)) as Hp.
  unfold Py.fgt.
  destruct (Z.lt_trichotomy (Zpos a * 2 ^ (1 - ec)) ((2 * Zpos Mc + 1) * Zpos b))
    as [Hlt|[Heq|Hgt]]; [|contradiction|].
  - split; [intros H; exfalso|intros H; lia].
    destruct (bracket_upper (Zpos a) (Zpos b) e' E Q N D (Zpos Mc) ec
                ltac:(lia) He' He'E HE HD HN HA HQ HQ52 ltac:(lia) ltac:(lia)
                Hlt) as [HEec Hle].
    destruct (Py.fdiv _ _) as [s|s| |s m e].
    + destruct Hres as [-> _]. discriminate H.
    + destruct Hres as [_ HE']. lia.
    + contradiction.
    + destruct Hres as (-> & Hbm & Hmag). cbn [magnitude] in Hmag.
      apply magnitude_lt in H; trivial. rewrite Hmag in H. lia.
  - split; [intros _; exact Hgt|intros _].
    pose proof (bracket_lower (Zpos a) (Zpos b) e' E Q N D (Zpos Mc) ec
                ltac:(lia) He' He'E HE HD HN HA HQ HQ52 ltac:(lia) ltac:(lia)
                Hgt) as Hle.
    destruct (Py.fdiv _ _) as [s|s| |s m e].
    + destruct Hres as [_ Hv]. rewrite Hv in Hle. nia.
    + destruct Hres as [-> _]. reflexivity.
    + contradiction.
    + destruct Hres as (-> & Hbm & Hmag). cbn [magnitude] in Hmag.
      apply magnitude_lt; trivial. rewrite Hmag. nia.
Qed.

(** *** The four thresholds, exactly *)

Lemma MIN_AREA_RATIO_bits :
  MIN_AREA_RATIO = S754_finite false 5764607523034235 (-59).
Proof. reflexivity. Qed.

Lemma MIN_ASPECT_RATIO_bits :
  MIN_ASPECT_RATIO = S754_finite false 6755399441055744 (-52).
Proof. reflexivity. Qed.

Lemma MAX_ASPECT_RATIO_bits :
  MAX_ASPECT_RATIO = S754_finite false 8444249301319680 (-49).
Proof. reflexivity. Qed.

(** [a / b < 0.01] on doubles is [a / b < 1/100] on rationals. *)
Lemma below_min_area_iff (a b : Z) :
  0 <= a -> 0 < b < 2 ^ 53 ->
  (Py.flt (Py.fdiv (Py.int_operand a) (Py.int_operand b)) MIN_AREA_RATIO = true
   <-> 100 * a < b).
Proof.
  intros Ha Hb. change (2 ^ 53) with 9007199254740992 in Hb.
  destruct b as [|b|b]; try lia. destruct a as [|a|a]; try lia.
  - split; [lia|reflexivity].
  - rewrite MIN_AREA_RATIO_bits, fdiv_flt_iff;
      change (2 ^ (1 - -59)) with 1152921504606846976;
      change (2 ^ 52) with 4503599627370496; try reflexivity; lia.
Qed.

(** [a / b > 0.95] on doubles is [a / b > 95/100] on rationals. *)
Lemma above_max_area_iff (a b : Z) :
  0 <= a -> 0 < b < 2 ^ 52 ->
  (Py.fgt (Py.fdiv (Py.int_operand a) (Py.int_operand b)) MAX_AREA_RATIO = true
   <-> 95 * b < 100 * a).
Proof.
  intros Ha Hb. change (2 ^ 52) with 4503599627370496 in Hb.
  destruct b as [|b|b]; try lia. destruct a as [|a|a]; try lia.
  - split; [discriminate|lia].
  - rewrite MAX_AREA_RATIO_bits, fdiv_fgt_iff;
      change (2 ^ (1 - -53)) with 18014398509481984;
      change (2 ^ 52) with 4503599627370496; try reflexivity; lia.
Qed.

(** [h / w < 1.5] on doubles is [h / w < 3/2] on rationals. *)
Lemma below_min_aspect_iff (h w : Z) :
  0 <= h -> 0 < w < 2 ^ 52 ->
  (Py.flt (Py.fdiv (Py.int_operand h) (Py.int_operand w)) MIN_ASPECT_RATIO = true
   <-> 2 * h < 3 * w).
Proof.
  intros Hh Hw. change (2 ^ 52) with 4503599627370496 in Hw.
  destruct w as [|w|w]; try lia. destruct h as [|h|h]; try lia.
  - split; [lia|reflexivity].
  - rewrite MIN_ASPECT_RATIO_bits, fdiv_flt_iff;
      change (2 ^ (1 - -52)) with 9007199254740992;
      change (2 ^ 52) with 4503599627370496; try reflexivity; lia.
Qed.

(** [h / w > 15.0] on doubles is [h / w > 15] on rationals. *)
Lemma above_max_aspect_iff (h w : Z) :
  0 <= h -> 0 < w < 2 ^ 50 ->
  (Py.fgt (Py.fdiv (Py.int_operand h) (Py.int_operand w)) MAX_ASPECT_RATIO = true
   <-> 15 * w < h).
Proof.
  intros Hh Hw. change (2 ^ 50) with 1125899906842624 in Hw.
  destruct w as [|w|w]; try lia. destruct h as [|h|h]; try lia.
  - split; [discriminate|lia].
  - rewrite MAX_ASPECT_RATIO_bits, fdiv_fgt_iff;
      change (2 ^ (1 - -49)) with 1125899906842624;
      change (2 ^ 52) with 4503599627370496; try reflexivity; lia.
Qed.

Section ExactFilters.
Context {cv : OpenCV}.

(** The two filters of [candidate] on the integers they are computed
    from. *)
Lemma outside_exact (image_area : Z) (c : Contour) (x y w h : Z) :
  boundingRect c = (x, y, w, h) ->
  0 < image_area < 2 ^ 52 -> 0 <= w < 2 ^ 50 -> 0 <= h ->
  (outside (area_ratio_of image_area c) MIN_AREA_RATIO MAX_AREA_RATIO = true
   \/ outside (aspect_ratio_of c) MIN_ASPECT_RATIO MAX_ASPECT_RATIO = true
   <-> 100 * (w * h) < image_area \/ 95 * image_area < 100 * (w * h)
       \/ 2 * h < 3 * w \/ 15 * w < h).
Proof.
  intros Hbox Hia Hw Hh.
  unfold outside, area_ratio_of, aspect_ratio_of. rewrite Hbox.
  rewrite !orb_true_iff.
  assert (Ha : 0 <= w * h) by nia.
  rewrite (below_min_area_iff (w * h) image_area Ha)
    by (change (2 ^ 53) with 9007199254740992;
        change (2 ^ 52) with 4503599627370496 in Hia; lia).
  rewrite (above_max_area_iff (w * h) image_area Ha Hia).
  destruct (Z.gtb_spec w 0) as [Hpos|Hz].
  - rewrite (below_min_aspect_iff h w Hh)
      by (change (2 ^ 52) with 4503599627370496;
          change (2 ^ 50) with 1125899906842624 in Hw; lia).
    rewrite (above_max_aspect_iff h w Hh) by lia.
    tauto.
  - assert (w = 0) by lia. subst w.
    rewrite Z.mul_0_l. lia.
Qed.

End ExactFilters.

(** ** The filter and the scorer *)

Section FilterFacts.
Context {cv : OpenCV}.

Lemma int_truediv_ok (a b : Z) :
  b <> 0 ->
  Py.int_truediv a b = Ok (Py.fdiv (Py.int_operand a) (Py.int_operand b)).
Proof.
  intros Hb. unfold Py.int_truediv.
  destruct (Z.eqb_spec b 0); [contradiction|reflexivity].
Qed.

Lemma float_truediv_int_ok (a : Py.float) (b : Z) :
  b <> 0 -> Py.float_truediv_int a b = Ok (Py.fdiv a (Py.of_int b)).
Proof.
  intros Hb. unfold Py.float_truediv_int.
  destruct (Z.eqb_spec b 0); [contradiction|reflexivity].
Qed.

(** The closed form of [candidate] on a non-empty image: no division
    is reached with a zero divisor. *)
Lemma candidate_eq (image_area : Z) (c : Contour) (x y w h : Z) :
  image_area <> 0 ->
  boundingRect c = (x, y, w, h) ->
  candidate image_area c =
  Ok (if outside (area_ratio_of image_area c) MIN_AREA_RATIO MAX_AREA_RATIO
         || outside (aspect_ratio_of c) MIN_ASPECT_RATIO MAX_ASPECT_RATIO
      then None
      else Some ((x, y, w, h),
                 Py.fmul (area_ratio_of image_area c)
                         (if w * h >? 0
                          then Py.fdiv (contourArea c) (Py.of_int (w * h))
                          else Py.of_int 0))).
Proof.
  intros Hia Hbox.
  unfold candidate, area_ratio_of, aspect_ratio_of, outside.
  rewrite Hbox, (int_truediv_ok _ _ Hia). cbn [bind].
  destruct (Py.flt _ MIN_AREA_RATIO || Py.fgt _ MAX_AREA_RATIO);
    cbn [orb]; [reflexivity|].
  assert (Hasp : (if w >? 0 then Py.int_truediv h w else Ok (Py.of_int 0))
                 = Ok (if w >? 0
                       then Py.fdiv (Py.int_operand h) (Py.int_operand w)
                       else Py.of_int 0)).
  { destruct (Z.gtb_spec w 0); [apply int_truediv_ok; lia|reflexivity]. }
  rewrite Hasp. cbn [bind].
  destruct (Py.flt _ MIN_ASPECT_RATIO || Py.fgt _ MAX_ASPECT_RATIO);
    [reflexivity|].
  destruct (Z.gtb_spec (w * h) 0) as [Ha|Ha]; [|reflexivity].
  rewrite float_truediv_int_ok by lia. reflexivity.
Qed.

Lemma candidate_total (image_area : Z) (c : Contour) :
  image_area <> 0 -> exists r, candidate image_area c = Ok r.
Proof.
  intros Hia. destruct (boundingRect c) as [[[x y] w] h] eqn:Hbox.
  rewrite (candidate_eq _ _ _ _ _ _ Hia Hbox). eauto.
Qed.

Lemma scored_box (image_area : Z) (c : Contour) (box : rect) (s : Py.float) :
  scored image_area c box s -> box = boundingRect c.
Proof.
  unfold scored, candidate.
  destruct (boundingRect c) as [[[x y] w] h].
  destruct (Py.int_truediv _ _); simpl; [|discriminate].
  destruct (_ || _); [discriminate|].
  destruct (if w >? 0 then _ else _); simpl; [|discriminate].
  destruct (_ || _); [discriminate|].
  destruct (if w * h >? 0 then _ else _); simpl; [|discriminate].
  now intros [= <- _].
Qed.

Lemma loop_body_total (image_area : Z) (st : best_state) (c : Contour) :
  image_area <> 0 -> exists st', loop_body image_area st c = Ok st'.
Proof.
  intros Hia. unfold loop_body.
  destruct (candidate_total image_area c Hia) as [[[box s]|] ->]; simpl.
  - destruct (Py.fgt s (snd st)); eauto.
  - eauto.
Qed.

Lemma find_best_total (image_area : Z) (cs : list Contour) :
  image_area <> 0 -> exists st, find_best image_area cs = Ok st.
Proof.
  intros Hia. apply foldM_total. intros s a.
  now apply loop_body_total.
Qed.

(** The three ways out of one iteration. *)
Lemma loop_body_cases (image_area : Z) (st st' : best_state) (c : Contour) :
  loop_body image_area st c = Ok st' ->
  (candidate image_area c = Ok None /\ st' = st) \/
  (exists box s, scored image_area c box s /\
                 Py.fgt s (snd st) = true /\ st' = (Some box, s)) \/
  (exists box s, scored image_area c box s /\
                 Py.fgt s (snd st) = false /\ st' = st).
Proof.
  unfold loop_body, scored.
  destruct (candidate image_area c) as [[[box s]|]|e]; simpl;
    try discriminate.
  - destruct (Py.fgt s (snd st)) eqn:E; intros [= <-].
    + right. left. now exists box, s.
    + right. right. now exists box, s.
  - intros [= <-]. now left.
Qed.

Lemma selection_inv_step (image_area : Z) (pre : list Contour)
      (a : Contour) (st st' : best_state) :
  selection_inv image_area pre st ->
  loop_body image_area st a = Ok st' ->
  selection_inv image_area (pre ++ [a]) st'.
Proof.
  intros Hinv Hstep.
  assert (Hmono : forall o : option rect,
             match o with
             | None => True
             | Some _ =>
                 (exists c box s, In c pre /\ scored image_area c box s /\
                                  Py.fgt s (Py.of_int 0) = true) ->
                 exists c box s, In c (pre ++ [a]) /\
                                 scored image_area c box s /\
                                 Py.fgt s (Py.of_int 0) = true
             end).
  { intros [b|]; trivial. intros (c & box & s & Hin & Hs & Hp).
    exists c, box, s. rewrite in_app_iff. auto. }
  unfold selection_inv in *.
  destruct (loop_body_cases _ _ _ _ Hstep)
    as [[Hc ->]|[(box & s & Hs & Hgt & ->)|(box & s & Hs & Hgt & ->)]].
  - destruct (fst st) as [b|].
    + apply (Hmono (Some b)), Hinv.
    + destruct Hinv as [H0 Hall]. split; trivial.
      intros c box s Hin Hs. apply in_app_iff in Hin.
      destruct Hin as [Hin|[<-|[]]]; [eauto|].
      unfold scored in Hs. congruence.
  - simpl. destruct (fst st) as [b|].
    + apply (Hmono (Some b)), Hinv.
    + destruct Hinv as [H0 _]. rewrite H0 in Hgt.
      exists a, box, s. rewrite in_app_iff. simpl. auto.
  - destruct (fst st) as [b|].
    + apply (Hmono (Some b)), Hinv.
    + destruct Hinv as [H0 Hall]. split; trivial.
      intros c box' s' Hin Hs'. apply in_app_iff in Hin.
      destruct Hin as [Hin|[<-|[]]]; [eauto|].
      unfold scored in Hs, Hs'. rewrite Hs in Hs'.
      injection Hs' as <- <-. now rewrite H0 in Hgt.
Qed.

Lemma find_best_selection (image_area : Z) (cs : list Contour)
      (st : best_state) :
  find_best image_area cs = Ok st -> selection_inv image_area cs st.
Proof.
  intros H.
  apply (foldM_prefix (loop_body image_area) (selection_inv image_area)
           (selection_inv_step image_area) cs [] init_state st); trivial.
  split; [reflexivity|]. intros c box s [].
Qed.

Lemma nth_error_snoc {A : Type} (pre : list A) (a c : A) (j : nat) :
  nth_error (pre ++ [a]) j = Some c ->
  nth_error pre j = Some c \/ (j = List.length pre /\ c = a).
Proof.
  intros H. destruct (Nat.lt_ge_cases j (List.length pre)) as [Hlt|Hge].
  - left. now rewrite nth_error_app1 in H.
  - right. rewrite nth_error_app2 in H by trivial.
    destruct (j - List.length pre)%nat as [|[|k]] eqn:E; simpl in H;
      try discriminate.
    injection H as <-. split; [lia|reflexivity].
Qed.

Lemma greatest_inv_step (image_area : Z) (pre : list Contour)
      (a : Contour) (st st' : best_state) :
  greatest_inv image_area pre st ->
  loop_body image_area st a = Ok st' ->
  greatest_inv image_area (pre ++ [a]) st'.
Proof.
  intros [Hall Hbest] Hstep.
  assert (Hkeep : forall best sc,
             (exists i c, nth_error pre i = Some c /\
                          scored image_area c best sc /\
                          forall j c' box' s',
                            (j < i)%nat -> nth_error pre j = Some c' ->
                            scored image_area c' box' s' ->
                            Py.feq s' sc = false) ->
             exists i c, nth_error (pre ++ [a]) i = Some c /\
                         scored image_area c best sc /\
                         forall j c' box' s',
                           (j < i)%nat ->
                           nth_error (pre ++ [a]) j = Some c' ->
                           scored image_area c' box' s' ->
                           Py.feq s' sc = false).
  { intros best sc (i & c & Hi & Hs & Hlt).
    assert (i < List.length pre)%nat
      by (apply nth_error_Some; congruence).
    exists i, c. split; [now rewrite nth_error_app1|]. split; trivial.
    intros j c' box' s' Hj Hn. rewrite nth_error_app1 in Hn by lia.
    eauto. }
  unfold greatest_inv.
  destruct (loop_body_cases _ _ _ _ Hstep)
    as [[Hc ->]|[(box & s & Hs & Hgt & ->)|(box & s & Hs & Hgt & ->)]].
  - split.
    + intros j c b s Hn Hs. apply nth_error_snoc in Hn.
      destruct Hn as [Hn|[_ ->]]; [eauto|].
      unfold scored in Hs. congruence.
    + destruct (fst st); trivial. now apply Hkeep.
  - simpl. split.
    + intros j c b s' Hn Hs'. apply nth_error_snoc in Hn.
      destruct Hn as [Hn|[_ ->]].
      * destruct (Py.fgt s' s) eqn:E; trivial.
        rewrite <- (Hall _ _ _ _ Hn Hs'). unfold Py.fgt in *.
        symmetry. eapply flt_trans; eauto.
      * unfold scored in Hs, Hs'. rewrite Hs in Hs'.
        injection Hs' as <- <-. apply flt_irrefl.
    + exists (List.length pre), a. split.
      { rewrite nth_error_app2, Nat.sub_diag by lia. reflexivity. }
      split; trivial.
      intros j c' box' s' Hj Hn Hs'. rewrite nth_error_app1 in Hn by lia.
      destruct (Py.feq s' s) eqn:E; trivial.
      rewrite <- (Hall _ _ _ _ Hn Hs'). unfold Py.fgt in *.
      symmetry. eapply flt_feq_trans; eauto.
  - split.
    + intros j c b s' Hn Hs'. apply nth_error_snoc in Hn.
      destruct Hn as [Hn|[_ ->]]; [eauto|].
      unfold scored in Hs, Hs'. rewrite Hs in Hs'.
      now injection Hs' as <- <-.
    + destruct (fst st); trivial. now apply Hkeep.
Qed.

Lemma find_best_greatest (image_area : Z) (cs : list Contour)
      (st : best_state) :
  find_best image_area cs = Ok st -> greatest_inv image_area cs st.
Proof.
  intros H.
  apply (foldM_prefix (loop_body image_area) (greatest_inv image_area)
           (greatest_inv_step image_area) cs [] init_state st); trivial.
  split; [|exact I]. intros [|j] c box s; discriminate.
Qed.

(** Whatever is selected has a positive score. *)
Lemma find_best_positive (image_area : Z) (cs : list Contour)
      (st : best_state) :
  find_best image_area cs = Ok st ->
  match fst st with
  | None => snd st = Py.of_int 0
  | Some _ => Py.fgt (snd st) (Py.of_int 0) = true
  end.
Proof.
  intros H.
  apply (foldM_prefix (loop_body image_area)
           (fun _ st => match fst st with
                        | None => snd st = Py.of_int 0
                        | Some _ => Py.fgt (snd st) (Py.of_int 0) = true
                        end)) with (l := cs) (pre := []) (s := init_state);
    [|reflexivity|exact H].
  clear. intros _ a st st' Hinv Hstep.
  destruct (loop_body_cases _ _ _ _ Hstep)
    as [[_ ->]|[(box & s & _ & Hgt & ->)|(box & s & _ & _ & ->)]]; trivial.
  cbn [fst snd]. destruct (fst st).
  - unfold Py.fgt in *. fold (Py.flt (Py.of_int 0) (snd st)) in Hinv.
    fold (Py.flt (snd st) s) in Hgt. fold (Py.flt (Py.of_int 0) s).
    eapply flt_trans; eauto.
  - now rewrite Hinv in Hgt.
Qed.

End FilterFacts.

(** ** The whole function *)

Section CropperFacts.
Context {cv : OpenCV}.

Lemma size_image_area (image : ndarray) :
  size image <> 0 -> shape0 image * shape1 image <> 0.
Proof. unfold size. lia. Qed.

(** The exits of [crop_test_strip] on a non-empty image. *)
Lemma crop_test_strip_exits (image : ndarray) :
  size image <> 0 ->
  (contours_of image = [] /\
   crop_test_strip (Some image)
   = Ok (image, failure_metadata image "No contours found in image")) \/
  (contours_of image <> [] /\
   exists st,
     find_best (shape0 image * shape1 image) (contours_of image) = Ok st /\
     ((fst st = None /\
       crop_test_strip (Some image)
       = Ok (image,
             failure_metadata image "No suitable test strip contour found")) \/
      (exists box,
          fst st = Some box /\
          crop_test_strip (Some image)
          = (c <- crop_corners (shape1 image) (shape0 image) box ;;
             let '(x1, y1, x2, y2) := c in
             Ok (crop image y1 y2 x1 x2,
                 success_metadata image (x1, y1, x2, y2)))))).
Proof.
  intros Hsz. unfold crop_test_strip.
  destruct (Z.eqb_spec (size image) 0) as [|_]; [contradiction|].
  destruct (contours_of image) as [|c cs] eqn:Hcs.
  - left. split; reflexivity.
  - right. split; [discriminate|].
    destruct (find_best_total (shape0 image * shape1 image) (c :: cs)
                (size_image_area image Hsz)) as [st Hst].
    exists st. split; trivial. rewrite Hst. cbn [bind].
    destruct (fst st) as [box|].
    + right. exists box. split; trivial.
    + left. split; reflexivity.
Qed.

Lemma crop_corners_spec (width height x y w h : Z) :
  0 <= w < 2 ^ 31 -> 0 <= h < 2 ^ 31 ->
  crop_corners width height (x, y, w, h)
  = Ok (Z.max 0 (x - w / 20), Z.max 0 (y - h / 20),
        Z.min width (x + w + w / 20), Z.min height (y + h + h / 20)).
Proof.
  intros Hw Hh. unfold crop_corners.
  rewrite (margin_spec w Hw), (margin_spec h Hh). reflexivity.
Qed.

(** The selected box is the bounding box of one of the contours. *)
Lemma find_best_box (image_area : Z) (cs : list Contour)
      (st : best_state) (box : rect) :
  find_best image_area cs = Ok st -> fst st = Some box ->
  exists c, In c cs /\ boundingRect c = box.
Proof.
  intros Hst Hbox.
  destruct (find_best_greatest _ _ _ Hst) as [_ Hg].
  rewrite Hbox in Hg. destruct Hg as (i & c & Hi & Hs & _).
  exists c. split; [eapply nth_error_In; eauto|].
  symmetry. eapply scored_box; eauto.
Qed.

Lemma winning_box_in_image (image : ndarray) (st : best_state) (box : rect) :
  contours_in_image image ->
  find_best (shape0 image * shape1 image) (contours_of image) = Ok st ->
  fst st = Some box ->
  box_in_image (shape1 image) (shape0 image) box.
Proof.
  intros [_ Hall] Hst Hbox.
  destruct (find_best_box _ _ _ _ Hst Hbox) as (c & Hin & <-).
  rewrite Forall_forall in Hall. now apply Hall.
Qed.

(** The success exit under the extractor's contract, in closed form. *)
Lemma crop_test_strip_success (image : ndarray) (st : best_state)
      (x y w h : Z) :
  size image <> 0 ->
  contours_in_image image ->
  find_best (shape0 image * shape1 image) (contours_of image) = Ok st ->
  fst st = Some (x, y, w, h) ->
  let x1 := Z.max 0 (x - w / 20) in
  let y1 := Z.max 0 (y - h / 20) in
  let x2 := Z.min (shape1 image) (x + w + w / 20) in
  let y2 := Z.min (shape0 image) (y + h + h / 20) in
  box_in_image (shape1 image) (shape0 image) (x, y, w, h) /\
  crop_test_strip (Some image)
  = Ok (crop image y1 y2 x1 x2, success_metadata image (x1, y1, x2, y2)).
Proof.
  intros Hsz Hct Hst Hbox x1 y1 x2 y2.
  pose proof (winning_box_in_image _ _ _ Hct Hst Hbox) as Hin.
  split; trivial.
  destruct Hct as [[H0 H1] _].
  destruct Hin as (Hx & Hy & Hw & Hh & Hxw & Hyh).
  destruct (crop_test_strip_exits image Hsz)
    as [[Hnil _]|(Hne & st' & Hst' & [[Hnone _]|(box & Hb & ->)])].
  - exfalso. rewrite Hnil in Hst. injection Hst as <-. discriminate.
  - rewrite Hst in Hst'. injection Hst' as <-. congruence.
  - rewrite Hst in Hst'. injection Hst' as <-.
    rewrite Hbox in Hb. injection Hb as <-.
    rewrite crop_corners_spec by lia. reflexivity.
Qed.

(** What a successful return looks like under the extractor's
    contract. *)
Lemma success_inv (image out : ndarray) (md : metadata) :
  crop_test_strip (Some image) = Ok (out, md) ->
  success md = true ->
  contours_in_image image ->
  exists st x y w h,
    find_best (shape0 image * shape1 image) (contours_of image) = Ok st /\
    fst st = Some (x, y, w, h) /\
    box_in_image (shape1 image) (shape0 image) (x, y, w, h) /\
    out = crop image (Z.max 0 (y - h / 20))
               (Z.min (shape0 image) (y + h + h / 20))
               (Z.max 0 (x - w / 20))
               (Z.min (shape1 image) (x + w + w / 20)) /\
    md = success_metadata image
           (Z.max 0 (x - w / 20), Z.max 0 (y - h / 20),
            Z.min (shape1 image) (x + w + w / 20),
            Z.min (shape0 image) (y + h + h / 20)).
Proof.
  intros Hres Hsucc Hct.
  assert (Hsz : size image <> 0).
  { intros Hz. unfold crop_test_strip in Hres. rewrite Hz in Hres.
    discriminate. }
  destruct (crop_test_strip_exits image Hsz)
    as [[_ Heq]|(_ & st & Hst & [[_ Heq]|([[[x y] w] h] & Hb & _)])].
  - rewrite Heq in Hres. injection Hres as <- <-. discriminate.
  - rewrite Heq in Hres. injection Hres as <- <-. discriminate.
  - destruct (crop_test_strip_success image st x y w h Hsz Hct Hst Hb)
      as [Hin Heq].
    rewrite Heq in Hres. injection Hres as <- <-.
    exists st, x, y, w, h. auto.
Qed.

Lemma slice_index_id (len i : Z) :
  0 <= i <= len -> Py.slice_index len i = i.
Proof.
  intros H. unfold Py.slice_index.
  destruct (Z.ltb_spec i 0); lia.
Qed.

Lemma slice_length {A : Type} (l : list A) (a b : Z) :
  0 <= a <= b -> b <= Z.of_nat (List.length l) ->
  Z.of_nat (List.length (Py.slice l a b)) = b - a.
Proof.
  intros Hab Hb. unfold Py.slice.
  rewrite !slice_index_id by lia.
  rewrite length_firstn, length_skipn. lia.
Qed.

Lemma crop_shape (image : ndarray) (y1 y2 x1 x2 : Z) :
  0 <= x1 <= x2 -> x2 <= shape1 image ->
  0 <= y1 <= y2 -> y2 <= shape0 image ->
  shape1 (crop image y1 y2 x1 x2) = x2 - x1 /\
  shape0 (crop image y1 y2 x1 x2) = y2 - y1.
Proof.
  intros Hx Hx2 Hy Hy2. unfold crop, shape0, shape1. cbn [ncols rows]. split.
  - fold (shape1 image). unfold Py.slice_len.
    rewrite !slice_index_id by lia. lia.
  - rewrite length_map. apply slice_length; trivial.
Qed.

Lemma rectangular_crop (image : ndarray) (y1 y2 x1 x2 : Z) :
  rectangular image ->
  0 <= x1 <= x2 -> x2 <= shape1 image ->
  rectangular (crop image y1 y2 x1 x2).
Proof.
  unfold rectangular, crop, shape1. cbn [ncols rows].
  intros Hrect Hx Hx2. apply Forall_forall. intros r Hr.
  apply in_map_iff in Hr. destruct Hr as (r0 & <- & Hin).
  assert (Hlen : List.length r0 = ncols image).
  { rewrite Forall_forall in Hrect. apply Hrect.
    unfold Py.slice in Hin.
    set (n := Z.to_nat (_ - _)) in Hin. set (k := Z.to_nat _) in Hin.
    rewrite <- (firstn_skipn k (rows image)). apply in_or_app. right.
    rewrite <- (firstn_skipn n (skipn k (rows image))).
    apply in_or_app. now left. }
  unfold Py.slice_len. rewrite !slice_index_id by lia.
  apply Nat2Z.inj. rewrite slice_length by lia. lia.
Qed.

Lemma margin_bounds (w : Z) :
  0 <= w -> 0 <= w / 20 /\ 20 * (w / 20) <= w.
Proof.
  intros Hw. split; [apply Z.div_pos; lia|apply Z.mul_div_le; lia].
Qed.

End CropperFacts.

Lemma crop_corners_cases (width height : Z) (box : rect) :
  (exists c, crop_corners width height box = Ok c) \/
  crop_corners width height box = Raise OverflowError.
Proof.
  destruct box as [[[x y] w] h]. unfold crop_corners.
  destruct (margin_cases w) as [[mx ->]| ->]; cbn [bind]; [|now right].
  destruct (margin_cases h) as [[my ->]| ->]; cbn [bind]; [|now right].
  left. eexists. reflexivity.
Qed.

(** The loop sees a contour only through its bounding box and area. *)
Lemma candidate_observations (cv1 cv2 : OpenCV) (image_area : Z)
      (c1 : @Contour cv1) (c2 : @Contour cv2) :
  @boundingRect cv1 c1 = @boundingRect cv2 c2 ->
  @contourArea cv1 c1 = @contourArea cv2 c2 ->
  @candidate cv1 image_area c1 = @candidate cv2 image_area c2.
Proof.
  intros Hb Ha. unfold candidate. now rewrite Hb, Ha.
Qed.

Lemma foldM_observations (cv1 cv2 : OpenCV) (image_area : Z)
      (l1 : list (@Contour cv1)) :
  forall (l2 : list (@Contour cv2)) (st : option rect * Py.float),
    map (fun c => (@boundingRect cv1 c, @contourArea cv1 c)) l1
    = map (fun c => (@boundingRect cv2 c, @contourArea cv2 c)) l2 ->
    foldM (@loop_body cv1 image_area) l1 st
    = foldM (@loop_body cv2 image_area) l2 st.
Proof.
  induction l1 as [|c1 l1 IH]; intros [|c2 l2] st Hmap;
    try discriminate; [reflexivity|].
  injection Hmap as Hb Ha Hl. cbn [foldM]. unfold loop_body at 1 3.
  rewrite (candidate_observations cv1 cv2 image_area c1 c2 Hb Ha).
  destruct (@candidate cv2 image_area c2) as [[[box s]|]|e]; cbn [bind];
    trivial.
  - destruct (Py.fgt s (snd st)); cbn [bind]; now apply IH.
  - now apply IH.
Qed.

Lemma find_best_observations (cv1 cv2 : OpenCV) (image_area : Z)
      (l1 : list (@Contour cv1)) (l2 : list (@Contour cv2)) :
  map (fun c => (@boundingRect cv1 c, @contourArea cv1 c)) l1
  = map (fun c => (@boundingRect cv2 c, @contourArea cv2 c)) l2 ->
  @find_best cv1 image_area l1 = @find_best cv2 image_area l2.
Proof. intros H. unfold find_best. now apply foldM_observations. Qed.


Section ExitFacts.
Context {cv : OpenCV}.

(** The ways out of a call on a colour image. *)
Lemma crop_test_strip_outcomes (image : ndarray) :
  (exists out md, crop_test_strip (Some image) = Ok (out, md)) \/
  (size image = 0 /\ crop_test_strip (Some image) = Raise invalid_image) \/
  (size image <> 0 /\ crop_test_strip (Some image) = Raise OverflowError).
Proof.
  destruct (Z.eq_dec (size image) 0) as [Hz|Hsz].
  - right. left. split; [exact Hz|]. unfold crop_test_strip.
    now rewrite Hz.
  - destruct (crop_test_strip_exits image Hsz)
      as [[_ Heq]|(_ & st & Hst & [[_ Heq]|(box & Hb & Heq)])];
      rewrite Heq; eauto.
    destruct (crop_corners_cases (shape1 image) (shape0 image) box)
      as [[[[[x1 y1] x2] y2] Hc]|Hc]; rewrite Hc; cbn [bind]; eauto.
Qed.

Lemma np_size_colour (image : ndarray) : np_size (colour image) = size image.
Proof. unfold np_size, np_shape, size. cbn [fold_right]. lia. Qed.

End ExitFacts.

(** * The claims *)

Section Claims.
Context {cv : OpenCV}.

(** C1 (amended): on a non-empty image whose contours lie inside it, the
    pipeline returns success exactly when some contour gets through both
    filters with a strictly positive score, and it returns the failure
    "No suitable test strip contour found" exactly when the contour list
    is non-empty and no contour that gets through the filters has a
    positive score; in particular whenever none gets through. *)
Theorem selection_iff_positive_score (image : ndarray) :
  size image <> 0 ->
  contours_in_image image ->
  let positive :=
    exists c box s,
      In c (contours_of image) /\
      scored (shape0 image * shape1 image) c box s /\
      Py.fgt s (Py.of_int 0) = true in
  (positive <->
   exists out md,
     crop_test_strip (Some image) = Ok (out, md) /\ success md = true) /\
  (crop_test_strip (Some image)
   = Ok (image,
         failure_metadata image "No suitable test strip contour found") <->
   contours_of image <> [] /\ ~ positive).
Proof.
  intros Hsz Hct positive.
  destruct (crop_test_strip_exits image Hsz)
    as [[Hnil Heq]|(Hne & st & Hst & [[Hnone Heq]|([[[x y] w] h] & Hb & _)])].
  - (* no contour at all *)
    assert (Hnp : ~ positive).
    { intros (c & box & s & Hin & _). rewrite Hnil in Hin. destruct Hin. }
    rewrite Heq. split; split.
    + intros Hp. contradiction.
    + intros (out & md & [= <- <-] & Hs). discriminate.
    + intros [=].
    + intros [H _]. contradiction.
  - (* contours, none selected *)
    pose proof (find_best_selection _ _ _ Hst) as Hinv.
    unfold selection_inv in Hinv. rewrite Hnone in Hinv.
    destruct Hinv as [_ Hall].
    assert (Hnp : ~ positive).
    { intros (c & box & s & Hin & Hs & Hp).
      rewrite (Hall c box s Hin Hs) in Hp. discriminate. }
    rewrite Heq. split; split.
    + intros Hp. contradiction.
    + intros (out & md & [= <- <-] & Hs). discriminate.
    + intros _. split; trivial.
    + reflexivity.
  - (* a selection *)
    pose proof (find_best_selection _ _ _ Hst) as Hinv.
    unfold selection_inv in Hinv. rewrite Hb in Hinv.
    destruct (crop_test_strip_success image st x y w h Hsz Hct Hst Hb)
      as [_ Heq].
    rewrite Heq. split; split.
    + intros _. eexists _, _. split; reflexivity.
    + intros _. exact Hinv.
    + intros [=].
    + intros [_ Hnp]. contradiction.
Qed.

(** C2: the loop starts from a best score of [0] and replaces it on
    a strictly greater score.  So a contour is selected exactly when
    some candidate has a positive score; the selected one then has a
    positive score that no candidate exceeds, and no candidate before
    it in the sequence has an equal score: the first-seen of the
    greatest wins.  When no candidate has a positive score nothing is
    selected.  The selection is a function of the sequence. *)
Theorem find_best_first_greatest (image_area : Z) (cs : list Contour)
        (st : best_state) :
  find_best image_area cs = Ok st ->
  match fst st with
  | Some best =>
      Py.fgt (snd st) (Py.of_int 0) = true /\
      (exists c box s, In c cs /\ scored image_area c box s /\
                       Py.fgt s (Py.of_int 0) = true) /\
      exists i c,
        nth_error cs i = Some c /\
        scored image_area c best (snd st) /\
        forall j c' box' s',
          nth_error cs j = Some c' ->
          scored image_area c' box' s' ->
          Py.fgt s' (snd st) = false /\
          ((j < i)%nat -> Py.feq s' (snd st) = false)
  | None =>
      snd st = Py.of_int 0 /\
      forall c box s, In c cs -> scored image_area c box s ->
                      Py.fgt s (Py.of_int 0) = false
  end.
Proof.
  intros Hst.
  destruct (find_best_greatest _ _ _ Hst) as [Hall Hg].
  pose proof (find_best_selection _ _ _ Hst) as Hsel.
  pose proof (find_best_positive _ _ _ Hst) as Hpos.
  unfold selection_inv in Hsel.
  destruct (fst st) as [best|].
  - split; [exact Hpos|]. split; [exact Hsel|].
    destruct Hg as (i & c & Hi & Hs & Hbefore).
    exists i, c. repeat split; eauto.
  - exact Hsel.
Qed.

(** C3: on every successful return, under the extractor's contract, the
    reported box has [0 <= x1 <= x2 <= width] and
    [0 <= y1 <= y2 <= height]; [x1] is [max 0 (x - margin_x)], so a
    winning box that touches [x = 0] is cropped from [x1 = 0]. *)
Theorem bbox_within_image (image out : ndarray) (md : metadata) :
  crop_test_strip (Some image) = Ok (out, md) ->
  success md = true ->
  contours_in_image image ->
  exists st x y w h x1 y1 x2 y2,
    find_best (shape0 image * shape1 image) (contours_of image) = Ok st /\
    fst st = Some (x, y, w, h) /\
    bbox md = Some (x1, y1, x2 - x1, y2 - y1) /\
    0 <= x1 <= x2 /\ x2 <= shape1 image /\
    0 <= y1 <= y2 /\ y2 <= shape0 image /\
    x1 = Z.max 0 (x - w / 20) /\
    (x = 0 -> x1 = 0).
Proof.
  intros Hres Hsucc Hct.
  destruct (success_inv _ _ _ Hres Hsucc Hct)
    as (st & x & y & w & h & Hst & Hb & Hin & _ & ->).
  destruct Hin as (Hx & Hy & Hw & Hh & Hxw & Hyh).
  pose proof (Z.div_pos w 20 ltac:(lia) ltac:(lia)) as Hmx.
  pose proof (Z.div_pos h 20 ltac:(lia) ltac:(lia)) as Hmy.
  exists st, x, y, w, h.
  exists (Z.max 0 (x - w / 20)), (Z.max 0 (y - h / 20)),
    (Z.min (shape1 image) (x + w + w / 20)),
    (Z.min (shape0 image) (y + h + h / 20)).
  repeat split; trivial; lia.
Qed.

(** C4: for a winning box with sides in the range of an OpenCV [int],
    the margins are [floor (w * 5 / 100)] and [floor (h * 5 / 100)] and
    the corners are the clamped ones; the box [(100, 100, 50, 300)] on a
    300 x 500 image is cropped to [(98, 85, 152, 415)]. *)
Theorem crop_corners_formula (width height x y w h : Z) :
  0 <= w < 2 ^ 31 ->
  0 <= h < 2 ^ 31 ->
  let margin_x := (w * 5) / 100 in
  let margin_y := (h * 5) / 100 in
  margin w = Ok margin_x /\
  margin h = Ok margin_y /\
  crop_corners width height (x, y, w, h)
  = Ok (Z.max 0 (x - margin_x), Z.max 0 (y - margin_y),
        Z.min width (x + w + margin_x), Z.min height (y + h + margin_y)) /\
  crop_corners 300 500 (100, 100, 50, 300) = Ok (98, 85, 152, 415).
Proof.
  intros Hw Hh margin_x margin_y.
  assert (Hx : margin_x = w / 20).
  { unfold margin_x. change 100 with (20 * 5).
    apply Z.div_mul_cancel_r; lia. }
  assert (Hy : margin_y = h / 20).
  { unfold margin_y. change 100 with (20 * 5).
    apply Z.div_mul_cancel_r; lia. }
  rewrite Hx, Hy.
  split; [now apply margin_spec|].
  split; [now apply margin_spec|].
  split; [now apply crop_corners_spec|reflexivity].
Qed.

(** C5: on a non-empty image, the empty-contour exit returns the input
    buffer itself with [success = false] and the message "No contours
    found in image"; the empty-candidate exit returns the input buffer
    itself with [success = false] and the message "No suitable test
    strip contour found"; and every return with [success = false] is
    one of the two. *)
Theorem failure_returns_input (image : ndarray) :
  size image <> 0 ->
  (contours_of image = [] ->
   crop_test_strip (Some image)
   = Ok (image, failure_metadata image "No contours found in image")) /\
  (forall st,
      contours_of image <> [] ->
      find_best (shape0 image * shape1 image) (contours_of image) = Ok st ->
      fst st = None ->
      crop_test_strip (Some image)
      = Ok (image,
            failure_metadata image "No suitable test strip contour found")) /\
  (forall out md,
      crop_test_strip (Some image) = Ok (out, md) ->
      success md = false ->
      out = image /\
      (message md = "No contours found in image"%string \/
       message md = "No suitable test strip contour found"%string)).
Proof.
  intros Hsz.
  destruct (crop_test_strip_exits image Hsz)
    as [[Hnil Heq]|(Hne & st & Hst & [[Hnone Heq]|(box & Hb & Heq)])].
  - repeat split.
    + trivial.
    + intros st' Hne. contradiction.
    + rewrite Heq in H. now injection H as <- _.
    + rewrite Heq in H. injection H as _ <-. now left.
  - repeat split.
    + intros Hnil. contradiction.
    + trivial.
    + rewrite Heq in H. now injection H as <- _.
    + rewrite Heq in H. injection H as _ <-. now right.
  - split; [intros Hnil; contradiction|]. split.
    + intros st' _ Hst' Hnone. rewrite Hst in Hst'. injection Hst' as <-.
      congruence.
    + intros out md Hres Hs. exfalso. rewrite Heq in Hres.
      destruct (crop_corners _ _ box) as [[[[x1 y1] x2] y2]|e];
        cbn [bind] in Hres; [|discriminate].
      injection Hres as _ <-. discriminate.
Qed.


(** C7: on a non-empty image a contour is rejected exactly when its
    area ratio is below [MIN_AREA_RATIO] or above [MAX_AREA_RATIO], or
    its aspect ratio is below [MIN_ASPECT_RATIO] or above
    [MAX_ASPECT_RATIO]; no division meets a zero divisor; a box of
    width zero has aspect ratio [0] and is rejected; and on the sizes
    images have (an area below [2^52], a width below [2^50]) the four
    comparisons of doubles are the comparisons of the exact ratios
    [w * h / image_area] with [1/100] and [95/100] and of [h / w] with
    [3/2] and [15]. *)
Theorem candidate_rejected_iff (image_area : Z) (c : Contour) (x y w h : Z) :
  image_area <> 0 ->
  boundingRect c = (x, y, w, h) ->
  exists r,
    candidate image_area c = Ok r /\
    (r = None <->
     outside (area_ratio_of image_area c) MIN_AREA_RATIO MAX_AREA_RATIO = true
     \/ outside (aspect_ratio_of c) MIN_ASPECT_RATIO MAX_ASPECT_RATIO = true)
    /\ (w = 0 -> aspect_ratio_of c = Py.of_int 0 /\ r = None)
    /\ (0 < image_area < 2 ^ 52 -> 0 <= w < 2 ^ 50 -> 0 <= h ->
        (r = None <->
         100 * (w * h) < image_area \/ 95 * image_area < 100 * (w * h)
         \/ 2 * h < 3 * w \/ 15 * w < h)).
Proof.
  intros Hia Hbox. eexists. split; [apply (candidate_eq _ _ _ _ _ _ Hia Hbox)|].
  assert (Hzero : w = 0 -> aspect_ratio_of c = Py.of_int 0).
  { intros ->. unfold aspect_ratio_of. now rewrite Hbox. }
  assert (Hiff : forall T (v : T),
    (if outside (area_ratio_of image_area c) MIN_AREA_RATIO MAX_AREA_RATIO
        || outside (aspect_ratio_of c) MIN_ASPECT_RATIO MAX_ASPECT_RATIO
     then None else Some v) = None <->
    outside (area_ratio_of image_area c) MIN_AREA_RATIO MAX_AREA_RATIO = true
    \/ outside (aspect_ratio_of c) MIN_ASPECT_RATIO MAX_ASPECT_RATIO = true).
  { intros T v. split.
    - destruct (outside (area_ratio_of image_area c) _ _); [now left|].
      destruct (outside (aspect_ratio_of c) _ _); [now right|discriminate].
    - intros [-> | ->]; [reflexivity|]. now rewrite orb_true_r. }
  split; [apply Hiff|]. split.
  - intros Hw. split; [now apply Hzero|].
    rewrite (Hzero Hw).
    replace (outside (Py.of_int 0) MIN_ASPECT_RATIO MAX_ASPECT_RATIO)
      with true by reflexivity.
    now rewrite orb_true_r.
  - intros Ha Hw Hh. rewrite Hiff.
    apply (outside_exact image_area c x y w h Hbox Ha Hw Hh).
Qed.

(** C9: under the contracts of [cv2.boundingRect] and
    [cv2.contourArea], the score of every contour that reaches the
    scorer lies between [0.0] and [1.0]. *)
Theorem score_in_unit_interval (image : ndarray) (c : Contour)
        (box : rect) (score : Py.float) :
  int_sides image ->
  box_in_image (shape1 image) (shape0 image) (boundingRect c) ->
  area_within_box c ->
  scored (shape0 image * shape1 image) c box score ->
  Py.fle (Py.of_int 0) score = true /\ Py.fle score (Py.of_int 1) = true.
Proof.
  intros [Hs0 Hs1] Hin Harea Hs.
  unfold area_within_box in Harea.
  destruct (boundingRect c) as [[[x y] w] h] eqn:Hbox.
  destruct Hin as (Hx & Hy & Hw & Hh & Hxw & Hyh).
  destruct Harea as (Hva & Ha0 & Hale).
  set (ia := shape0 image * shape1 image) in *.
  assert (Hca : 0 < w * h <= ia) by (unfold ia; nia).
  assert (Hia0 : ia <> 0) by lia.
  unfold scored in Hs. rewrite (candidate_eq _ _ _ _ _ _ Hia0 Hbox) in Hs.
  destruct (outside (area_ratio_of ia c) _ _) eqn:Hout; [discriminate|].
  destruct (outside (aspect_ratio_of c) _ _); [discriminate|].
  cbn [orb] in Hs.
  destruct (Z.gtb_spec (w * h) 0) as [_|]; [|lia].
  injection Hs as _ <-.
  unfold outside in Hout. apply orb_false_iff in Hout.
  destruct Hout as [_ Hmax].
  unfold area_ratio_of in *. rewrite Hbox in *.
  destruct (w * h) as [|ca|ca] eqn:Hwh; try lia.
  destruct ia as [|pa|pa] eqn:Hia; try lia.
  cbn [Py.int_operand] in *.
  (* the rectangularity is zero or at most one *)
  assert (Hrect :
            match Py.fdiv (contourArea c) (Py.of_int (Zpos ca)) with
            | S754_zero _ => True
            | S754_finite s' m e =>
                s' = false /\ bounded 53 1024 m e = true /\ le1 (Zpos m) e
            | _ => False
            end).
  { assert (Hlt : Zpos ca < 2 ^ 1023).
    { apply Z.le_lt_trans with (2 ^ 31 * 2 ^ 31); [|reflexivity].
      rewrite <- Hwh. unfold ia in *. pose proof (pow2_pos 31). nia. }
    pose proof (of_int_finite ca Hlt) as Hofc.
    destruct (Py.of_int (Zpos ca)) as [sc|sc| |sc mc ec];
      try contradiction.
    destruct Hofc as [-> Hbc].
    destruct (contourArea c) as [sa|sa| |sa ma ea].
    - exact I.
    - destruct sa; discriminate.
    - discriminate.
    - destruct sa; [discriminate|].
      pose proof (fdiv_le1 ma mc ea ec (fle_dy_le _ _ _ _ Hva Hbc Hale))
        as H.
      destruct (Py.fdiv (S754_finite false ma ea) (S754_finite false mc ec));
        tauto. }
  (* the area ratio is zero or at most one *)
  pose proof (fdiv_shape ca pa 0 0) as Har.
  destruct (Py.fdiv (S754_finite false ca 0) (S754_finite false pa 0))
    as [sr|sr| |sr mr er].
  - destruct (Py.fdiv (contourArea c) _) as [s2|s2| |s2 m2 e2];
      try contradiction; split; reflexivity.
  - subst sr. discriminate.
  - contradiction.
  - destruct Har as [-> Hbr].
    pose proof (not_above_max_le1 _ _ Hbr Hmax) as Hle.
    destruct (Py.fdiv (contourArea c) _) as [s2|s2| |s2 m2 e2];
      try contradiction.
    + split; reflexivity.
    + destruct Hrect as (-> & Hb2 & Hle2).
      pose proof (fmul_le1 _ _ _ _ Hbr Hb2 Hle Hle2) as Hmul.
      destruct (Py.fmul _ _) as [s3|s3| |s3 m3 e3]; try contradiction.
      * split; reflexivity.
      * destruct Hmul as (-> & Hb3 & Hle3).
        split; [reflexivity|now apply le1_fle_one].
Qed.

(** C10: on every successful return, under the extractor's contract,
    the crop rectangle contains the winning box, the cropped buffer has
    the reported size, and the reported width and height are [x2 - x1]
    and [y2 - y1], both strictly positive.  The size of the buffer is
    that of its rows: there are [y2 - y1] of them, each of [x2 - x1]
    pixels when the input is a full array. *)
Theorem crop_contains_box (image out : ndarray) (md : metadata) :
  crop_test_strip (Some image) = Ok (out, md) ->
  success md = true ->
  contours_in_image image ->
  exists st x y w h x1 y1 x2 y2,
    find_best (shape0 image * shape1 image) (contours_of image) = Ok st /\
    fst st = Some (x, y, w, h) /\
    bbox md = Some (x1, y1, x2 - x1, y2 - y1) /\
    cropped_size md = Some (x2 - x1, y2 - y1) /\
    x1 <= x /\ y1 <= y /\ x + w <= x2 /\ y + h <= y2 /\
    shape1 out = x2 - x1 /\ shape0 out = y2 - y1 /\
    0 < x2 - x1 /\ 0 < y2 - y1 /\
    Z.of_nat (List.length (rows out)) = y2 - y1 /\
    (rectangular image ->
     rectangular out /\
     Forall (fun r => Z.of_nat (List.length r) = x2 - x1) (rows out)).
Proof.
  intros Hres Hsucc Hct.
  destruct (success_inv _ _ _ Hres Hsucc Hct)
    as (st & x & y & w & h & Hst & Hb & Hin & -> & ->).
  destruct Hin as (Hx & Hy & Hw & Hh & Hxw & Hyh).
  pose proof (Z.div_pos w 20 ltac:(lia) ltac:(lia)) as Hmx.
  pose proof (Z.div_pos h 20 ltac:(lia) ltac:(lia)) as Hmy.
  exists st, x, y, w, h.
  exists (Z.max 0 (x - w / 20)), (Z.max 0 (y - h / 20)),
    (Z.min (shape1 image) (x + w + w / 20)),
    (Z.min (shape0 image) (y + h + h / 20)).
  destruct (crop_shape image (Z.max 0 (y - h / 20))
              (Z.min (shape0 image) (y + h + h / 20))
              (Z.max 0 (x - w / 20))
              (Z.min (shape1 image) (x + w + w / 20)))
    as [Hs1 Hs0]; try lia.
  split; [exact Hst|]. split; [exact Hb|]. split; [reflexivity|].
  split; [reflexivity|].
  repeat (split; [lia|]). split; [exact Hs0|].
  intros Hrect.
  assert (Hout : rectangular
                   (crop image (Z.max 0 (y - h / 20))
                      (Z.min (shape0 image) (y + h + h / 20))
                      (Z.max 0 (x - w / 20))
                      (Z.min (shape1 image) (x + w + w / 20))))
    by (apply rectangular_crop; trivial; lia).
  split; [exact Hout|].
  unfold rectangular in Hout. eapply Forall_impl; [|exact Hout].
  intros r Hr. rewrite Hr. exact Hs1.
Qed.

End Claims.

(** C8: two invocations on the same buffer return the same pair of
    cropped buffer and metadata; more generally, two invocations whose
    primitives report the same bounding boxes and areas, in the same
    order, do. *)
Theorem crop_test_strip_deterministic (cv1 cv2 : OpenCV)
        (image : option ndarray) :
  (forall a, image = Some a -> @observations cv1 a = @observations cv2 a) ->
  @crop_test_strip cv1 image = @crop_test_strip cv2 image /\
  @crop_test_strip cv1 image = @crop_test_strip cv1 image.
Proof.
  intros Hobs. split; [|reflexivity].
  destruct image as [a|]; [|reflexivity].
  specialize (Hobs a eq_refl). unfold crop_test_strip.
  destruct (size a =? 0); [reflexivity|].
  unfold observations in Hobs.
  rewrite (find_best_observations cv1 cv2 _ _ _ Hobs).
  destruct (@contours_of cv1 a) as [|c1 l1], (@contours_of cv2 a) as [|c2 l2];
    try discriminate; reflexivity.
Qed.

(** * The claims on concrete runs *)

Lemma selection_iff_positive_score_witness :
  exists out md,
    @crop_test_strip RefCV.demo_cv (Some RefCV.demo_image) = Ok (out, md) /\
    success md = true.
Proof.
  apply (proj1 (proj1 (@selection_iff_positive_score RefCV.demo_cv
                         RefCV.demo_image ltac:(discriminate)
                         ltac:(contract)))).
  exists RefCV.demo_strip. eexists _, _.
  split; [left; reflexivity|].
  split; [vm_compute; reflexivity|reflexivity].
Defined.

(** C1 as stated fails: in the one-pixel-wide image the thin line gets
    through both filters (area ratio 0.1, aspect ratio 10), its score
    is [0.0], and the pipeline returns "No suitable test strip contour
    found". *)
Lemma zero_score_survivor_not_selected :
  size RefCV.sliver_image <> 0 /\
  @contours_in_image RefCV.sliver_cv RefCV.sliver_image /\
  (exists c box s,
      In c (@contours_of RefCV.sliver_cv RefCV.sliver_image) /\
      @scored RefCV.sliver_cv 100 c box s) /\
  @crop_test_strip RefCV.sliver_cv (Some RefCV.sliver_image)
  = Ok (RefCV.sliver_image,
        failure_metadata RefCV.sliver_image
                         "No suitable test strip contour found").
Proof.
  split; [discriminate|]. split; [contract|]. split.
  - exists RefCV.thin_line, (0, 0, 1, 10), (S754_zero false).
    split; [left; reflexivity|]. vm_compute. reflexivity.
  - vm_compute. reflexivity.
Qed.

Lemma find_best_first_greatest_witness :
  exists st,
    @find_best RefCV.tie_cv 1500 [RefCV.left_strip; RefCV.right_strip] = Ok st
    /\ fst st = Some (3, 10, 5, 30) /\
    Py.fgt (snd st) (Py.of_int 0) = true /\
    (exists c box s,
        In c [RefCV.left_strip; RefCV.right_strip] /\
        @scored RefCV.tie_cv 1500 c box s /\
        Py.fgt s (Py.of_int 0) = true) /\
    exists i c,
      nth_error [RefCV.left_strip; RefCV.right_strip] i = Some c /\
      @scored RefCV.tie_cv 1500 c (3, 10, 5, 30) (snd st) /\
      forall j c' box' s',
        nth_error [RefCV.left_strip; RefCV.right_strip] j = Some c' ->
        @scored RefCV.tie_cv 1500 c' box' s' ->
        Py.fgt s' (snd st) = false /\
        ((j < i)%nat -> Py.feq s' (snd st) = false).
Proof.
  set (st := (Some (3, 10, 5, 30),
              S754_finite false 5572453938933094 (-56)) : best_state).
  assert (Hst : @find_best RefCV.tie_cv 1500
                  [RefCV.left_strip; RefCV.right_strip] = Ok st)
    by (vm_compute; reflexivity).
  exists st. split; [exact Hst|]. split; [reflexivity|].
  exact (@find_best_first_greatest RefCV.tie_cv 1500
           [RefCV.left_strip; RefCV.right_strip] st Hst).
Defined.

(** C2 as stated fails: the two thin lines get through both filters
    with exactly equal scores, [0.0] each, and the first-seen one
    does not win: nothing is selected, and the pipeline returns "No
    suitable test strip contour found". *)
Lemma tied_zero_scores_none_selected :
  @scored RefEdge.two_lines_cv 100 RefCV.thin_line (0, 0, 1, 10)
          (S754_zero false) /\
  @scored RefEdge.two_lines_cv 100 RefEdge.second_line (0, 20, 1, 10)
          (S754_zero false) /\
  Py.feq (S754_zero false) (S754_zero false) = true /\
  @find_best RefEdge.two_lines_cv 100 [RefCV.thin_line; RefEdge.second_line]
  = Ok (None, Py.of_int 0) /\
  @crop_test_strip RefEdge.two_lines_cv (Some RefCV.sliver_image)
  = Ok (RefCV.sliver_image,
        failure_metadata RefCV.sliver_image
                         "No suitable test strip contour found").
Proof.
  split; [vm_compute; reflexivity|].
  split; [vm_compute; reflexivity|].
  split; [reflexivity|].
  split; vm_compute; reflexivity.
Qed.

Lemma bbox_within_image_witness :
  exists st x y w h x1 y1 x2 y2,
    @find_best RefCV.demo_cv (50 * 30) [RefCV.demo_strip] = Ok st /\
    fst st = Some (x, y, w, h) /\
    bbox RefCV.demo_metadata = Some (x1, y1, x2 - x1, y2 - y1) /\
    0 <= x1 <= x2 /\ x2 <= 30 /\
    0 <= y1 <= y2 /\ y2 <= 50 /\
    x1 = Z.max 0 (x - w / 20) /\
    (x = 0 -> x1 = 0).
Proof.
  apply (@bbox_within_image RefCV.demo_cv RefCV.demo_image
           RefCV.demo_crop RefCV.demo_metadata).
  - vm_compute. reflexivity.
  - reflexivity.
  - contract.
Defined.

Lemma crop_corners_formula_witness :
  margin 50 = Ok 2 /\
  margin 300 = Ok 15 /\
  crop_corners 300 500 (100, 100, 50, 300) = Ok (98, 85, 152, 415) /\
  crop_corners 300 500 (100, 100, 50, 300) = Ok (98, 85, 152, 415).
Proof.
  apply (crop_corners_formula 300 500 100 100 50 300); lia.
Defined.

Lemma failure_returns_input_witness :
  @crop_test_strip RefCV.blank_cv (Some RefCV.demo_image)
  = Ok (RefCV.demo_image,
        failure_metadata RefCV.demo_image "No contours found in image").
Proof.
  apply (proj1 (@failure_returns_input RefCV.blank_cv RefCV.demo_image
                  ltac:(discriminate))).
  reflexivity.
Defined.



Lemma candidate_rejected_iff_witness :
  exists r,
    @candidate RefCV.demo_cv 1500 RefCV.demo_strip = Ok r /\
    (r = None <->
     outside (@area_ratio_of RefCV.demo_cv 1500 RefCV.demo_strip)
             MIN_AREA_RATIO MAX_AREA_RATIO = true
     \/ outside (@aspect_ratio_of RefCV.demo_cv RefCV.demo_strip)
                MIN_ASPECT_RATIO MAX_ASPECT_RATIO = true)
    /\ (5 = 0 -> @aspect_ratio_of RefCV.demo_cv RefCV.demo_strip = Py.of_int 0
                 /\ r = None)
    /\ (0 < 1500 < 2 ^ 52 -> 0 <= 5 < 2 ^ 50 -> 0 <= 30 ->
        (r = None <->
         100 * (5 * 30) < 1500 \/ 95 * 1500 < 100 * (5 * 30)
         \/ 2 * 30 < 3 * 5 \/ 15 * 5 < 30)).
Proof.
  apply (@candidate_rejected_iff RefCV.demo_cv 1500 RefCV.demo_strip 10 10 5 30).
  - discriminate.
  - reflexivity.
Defined.

Lemma crop_test_strip_deterministic_witness :
  @crop_test_strip RefCV.demo_cv (Some RefCV.demo_image)
  = @crop_test_strip RefCV.demo_cv (Some RefCV.demo_image) /\
  @crop_test_strip RefCV.demo_cv (Some RefCV.demo_image)
  = @crop_test_strip RefCV.demo_cv (Some RefCV.demo_image).
Proof.
  apply (crop_test_strip_deterministic RefCV.demo_cv RefCV.demo_cv
           (Some RefCV.demo_image)).
  intros a _. reflexivity.
Defined.

Lemma score_in_unit_interval_witness :
  exists box score,
    @scored RefCV.demo_cv 1500 RefCV.demo_strip box score /\
    Py.fle (Py.of_int 0) score = true /\ Py.fle score (Py.of_int 1) = true.
Proof.
  eexists _, _. split; [vm_compute; reflexivity|].
  apply (@score_in_unit_interval RefCV.demo_cv RefCV.demo_image
           RefCV.demo_strip (10, 10, 5, 30)).
  - contract.
  - contract.
  - contract.
  - vm_compute. reflexivity.
Defined.

Lemma crop_contains_box_witness :
  exists st x y w h x1 y1 x2 y2,
    @find_best RefCV.demo_cv (50 * 30) [RefCV.demo_strip] = Ok st /\
    fst st = Some (x, y, w, h) /\
    bbox RefCV.demo_metadata = Some (x1, y1, x2 - x1, y2 - y1) /\
    cropped_size RefCV.demo_metadata = Some (x2 - x1, y2 - y1) /\
    x1 <= x /\ y1 <= y /\ x + w <= x2 /\ y + h <= y2 /\
    shape1 RefCV.demo_crop = x2 - x1 /\ shape0 RefCV.demo_crop = y2 - y1 /\
    0 < x2 - x1 /\ 0 < y2 - y1 /\
    Z.of_nat (List.length (rows RefCV.demo_crop)) = y2 - y1 /\
    (rectangular RefCV.demo_image ->
     rectangular RefCV.demo_crop /\
     Forall (fun r => Z.of_nat (List.length r) = x2 - x1)
            (rows RefCV.demo_crop)).
Proof.
  apply (@crop_contains_box RefCV.demo_cv RefCV.demo_image
           RefCV.demo_crop RefCV.demo_metadata).
  - vm_compute. reflexivity.
  - reflexivity.
  - contract.
Defined.

(** * Further properties of [crop_test_strip] *)

Section CropperMore.
Context {cv : OpenCV}.

Lemma passes_candidate (image_area : Z) (c : Contour) :
  image_area <> 0 ->
  passes image_area c = false -> candidate image_area c = Ok None.
Proof.
  intros Hia Hp. destruct (boundingRect c) as [[[x y] w] h] eqn:Hbox.
  rewrite (candidate_eq _ _ _ _ _ _ Hia Hbox).
  unfold passes in Hp. apply negb_false_iff in Hp. now rewrite Hp.
Qed.

Lemma foldM_ignores_rejected (image_area : Z) (cs : list Contour) :
  image_area <> 0 ->
  forall st,
    foldM (loop_body image_area) cs st
    = foldM (loop_body image_area) (filter (passes image_area) cs) st.
Proof.
  intros Hia. induction cs as [|c cs IH]; intros st; [reflexivity|].
  cbn [filter]. destruct (passes image_area c) eqn:Hp.
  - cbn [foldM]. destruct (loop_body image_area st c); cbn [bind]; auto.
  - cbn [foldM]. unfold loop_body at 1.
    rewrite (passes_candidate _ _ Hia Hp). cbn [bind]. apply IH.
Qed.

(** A scored contour, on the integers: its box is within the four
    thresholds. *)
Lemma scored_exact (image_area : Z) (c : Contour) (x y w h : Z)
      (s : Py.float) :
  0 < image_area < 2 ^ 52 -> 0 <= w < 2 ^ 50 -> 0 <= h ->
  scored image_area c (x, y, w, h) s ->
  image_area <= 100 * (w * h) /\ 100 * (w * h) <= 95 * image_area /\
  3 * w <= 2 * h /\ h <= 15 * w.
Proof.
  intros Hia Hw Hh Hs.
  pose proof (scored_box _ _ _ _ Hs) as Hbox. symmetry in Hbox.
  unfold scored in Hs.
  assert (Hnz : image_area <> 0) by lia.
  rewrite (candidate_eq _ _ _ _ _ _ Hnz Hbox) in Hs.
  pose proof (outside_exact image_area c x y w h Hbox Hia Hw Hh) as Hex.
  destruct (outside (area_ratio_of image_area c) _ _) eqn:Ha;
    [discriminate|].
  destruct (outside (aspect_ratio_of c) _ _) eqn:Hb; [discriminate|].
  assert (Hn : ~ (100 * (w * h) < image_area \/
                  95 * image_area < 100 * (w * h) \/
                  2 * h < 3 * w \/ 15 * w < h)).
  { intros H. apply Hex in H. destruct H; discriminate. }
  lia.
Qed.

(** The box of a successful run, with the contour it is the box of. *)
Lemma success_box_exact (image out : ndarray) (md : metadata) :
  contours_in_image image ->
  shape0 image * shape1 image < 2 ^ 52 ->
  crop_test_strip (Some image) = Ok (out, md) ->
  success md = true ->
  exists st x y w h,
    find_best (shape0 image * shape1 image) (contours_of image) = Ok st /\
    fst st = Some (x, y, w, h) /\
    box_in_image (shape1 image) (shape0 image) (x, y, w, h) /\
    (exists c, In c (contours_of image) /\ boundingRect c = (x, y, w, h)) /\
    shape0 image * shape1 image <= 100 * (w * h) /\
    100 * (w * h) <= 95 * (shape0 image * shape1 image) /\
    3 * w <= 2 * h /\ h <= 15 * w /\
    out = crop image (Z.max 0 (y - h / 20))
               (Z.min (shape0 image) (y + h + h / 20))
               (Z.max 0 (x - w / 20))
               (Z.min (shape1 image) (x + w + w / 20)) /\
    md = success_metadata image
           (Z.max 0 (x - w / 20), Z.max 0 (y - h / 20),
            Z.min (shape1 image) (x + w + w / 20),
            Z.min (shape0 image) (y + h + h / 20)).
Proof.
  intros Hct Harea Hres Hsucc.
  destruct (success_inv image out md Hres Hsucc Hct)
    as (st & x & y & w & h & Hst & Hfst & Hin & Hout & Hmd).
  exists st, x, y, w, h.
  destruct (find_best_greatest _ _ _ Hst) as [_ Hg].
  rewrite Hfst in Hg. destruct Hg as (i & c & Hi & Hs & _).
  pose proof Hin as (Hx & Hy & Hw & Hh & Hxw & Hyh).
  destruct Hct as [[H0 H1] _].
  change (2 ^ 31) with 2147483648 in *.
  assert (Hbnd : 0 < shape0 image * shape1 image) by nia.
  destruct (scored_exact _ c x y w h _ (conj Hbnd Harea)
              ltac:(change (2 ^ 50) with 1125899906842624; lia)
              ltac:(lia) Hs) as (E1 & E2 & E3 & E4).
  split; [exact Hst|]. split; [exact Hfst|].
  split; [exact Hin|]. split.
  { exists c. split; [eapply nth_error_In; eauto|].
    symmetry. eapply scored_box; eauto. }
  auto 10.
Qed.

End CropperMore.

Section CropperMore2.
Context {cv : OpenCV}.

Lemma all_rejected_init (image_area : Z) (cs : list Contour) :
  image_area <> 0 ->
  Forall (fun c => passes image_area c = false) cs ->
  find_best image_area cs = Ok init_state.
Proof.
  intros Hia Hall. unfold find_best.
  rewrite (foldM_ignores_rejected _ _ Hia).
  replace (filter (passes image_area) cs) with (@nil Contour); [reflexivity|].
  induction Hall as [|c cs Hc _ IH]; [reflexivity|].
  cbn [filter]. now rewrite Hc.
Qed.

Lemma landscape_rejected (image : ndarray) (c : Contour) :
  int_sides image ->
  shape0 image * shape1 image < 2 ^ 52 ->
  box_in_image (shape1 image) (shape0 image) (boundingRect c) ->
  (let '(_, _, w, h) := boundingRect c in h <= w) ->
  passes (shape0 image * shape1 image) c = false.
Proof.
  intros [H0 H1] Harea Hin Hland.
  destruct (boundingRect c) as [[[x y] w] h] eqn:Hbox.
  destruct Hin as (Hx & Hy & Hw & Hh & Hxw & Hyh).
  change (2 ^ 31) with 2147483648 in *.
  assert (Hbnd : 0 < shape0 image * shape1 image) by nia.
  unfold passes. apply negb_false_iff. apply orb_true_iff.
  apply (outside_exact _ c x y w h Hbox (conj Hbnd Harea)).
  - change (2 ^ 50) with 1125899906842624. lia.
  - lia.
  - right. right. left. lia.
Qed.

Lemma nth_error_slice {A : Type} (l : list A) (a b k : Z) :
  0 <= a <= b -> b <= Z.of_nat (List.length l) -> 0 <= k < b - a ->
  nth_error (Py.slice l a b) (Z.to_nat k) = nth_error l (Z.to_nat (a + k)).
Proof.
  intros Hab Hb Hk. unfold Py.slice.
  rewrite !slice_index_id by lia.
  rewrite nth_error_firstn.
  destruct (Nat.ltb_spec (Z.to_nat k) (Z.to_nat (b - a))) as [_|Hge]; [|lia].
  rewrite nth_error_skipn. f_equal. lia.
Qed.

Lemma pixel_at_crop (image : ndarray) (y1 y2 x1 x2 i j : Z) :
  rectangular image ->
  0 <= x1 <= x2 -> x2 <= shape1 image ->
  0 <= y1 <= y2 -> y2 <= shape0 image ->
  0 <= i < y2 - y1 -> 0 <= j < x2 - x1 ->
  exists p, pixel_at (crop image y1 y2 x1 x2) i j = Some p /\
            pixel_at image (y1 + i) (x1 + j) = Some p.
Proof.
  intros Hrect Hx Hx2 Hy Hy2 Hi Hj.
  unfold pixel_at, crop. cbn [rows]. unfold shape0, shape1 in *.
  destruct (Z.ltb_spec i 0); [lia|]. destruct (Z.ltb_spec j 0); [lia|].
  destruct (Z.ltb_spec (y1 + i) 0); [lia|].
  destruct (Z.ltb_spec (x1 + j) 0); [lia|]. cbn [orb].
  rewrite nth_error_map, (nth_error_slice _ y1 y2 i) by lia.
  destruct (nth_error (rows image) (Z.to_nat (y1 + i))) as [r|] eqn:Hr.
  - cbn [option_map].
    assert (Hlen : List.length r = ncols image).
    { unfold rectangular in Hrect. rewrite Forall_forall in Hrect.
      apply Hrect. eapply nth_error_In; eauto. }
    rewrite (nth_error_slice r x1 x2 j) by lia.
    destruct (nth_error r (Z.to_nat (x1 + j))) as [p|] eqn:Hp; [eauto|].
    apply nth_error_None in Hp. lia.
  - apply nth_error_None in Hr. lia.
Qed.

End CropperMore2.

Section CropperExtras.
Context {cv : OpenCV}.

(** X1: the contours that the two filters reject have no influence on
    the selection: the loop returns what it returns on the contours
    that pass, taken in the same order. *)
Theorem find_best_ignores_rejected (image_area : Z) (cs : list Contour) :
  image_area <> 0 ->
  find_best image_area cs
  = find_best image_area (filter (passes image_area) cs).
Proof.
  intros Hia. unfold find_best. now apply foldM_ignores_rejected.
Qed.

(** X2: the box a successful run selected, that is the box the loop
    ends on and from which the returned crop and its [bbox] are cut,
    is the bounding box of one of the contours and is within the four
    thresholds as exact ratios: its area is between 1% and 95% of the
    image's and its height between 1.5 and 15 times its width. *)
Theorem selected_box_within_thresholds (image out : ndarray)
        (md : metadata) :
  contours_in_image image ->
  shape0 image * shape1 image < 2 ^ 52 ->
  crop_test_strip (Some image) = Ok (out, md) ->
  success md = true ->
  exists st c x y w h,
    find_best (shape0 image * shape1 image) (contours_of image) = Ok st /\
    fst st = Some (x, y, w, h) /\
    In c (contours_of image) /\ boundingRect c = (x, y, w, h) /\
    bbox md = Some (Z.max 0 (x - w / 20), Z.max 0 (y - h / 20),
                    Z.min (shape1 image) (x + w + w / 20)
                    - Z.max 0 (x - w / 20),
                    Z.min (shape0 image) (y + h + h / 20)
                    - Z.max 0 (y - h / 20)) /\
    out = crop image (Z.max 0 (y - h / 20))
               (Z.min (shape0 image) (y + h + h / 20))
               (Z.max 0 (x - w / 20))
               (Z.min (shape1 image) (x + w + w / 20)) /\
    shape0 image * shape1 image <= 100 * (w * h) /\
    100 * (w * h) <= 95 * (shape0 image * shape1 image) /\
    3 * w <= 2 * h /\ h <= 15 * w.
Proof.
  intros Hct Harea Hres Hsucc.
  destruct (success_box_exact image out md Hct Harea Hres Hsucc)
    as (st & x & y & w & h & Hst & Hfst & _ & (c & Hin & Hbox)
        & E1 & E2 & E3 & E4 & Hout & Hmd).
  exists st, c, x, y, w, h.
  split; [exact Hst|]. split; [exact Hfst|]. split; [exact Hin|].
  split; [exact Hbox|]. split; [now rewrite Hmd|]. split; [exact Hout|].
  auto.
Qed.

(** X3: a successful crop is taller than wide, at most 16.5 times, and
    covers at least 1% of the input image. *)
Theorem successful_crop_is_portrait (image out : ndarray) (md : metadata) :
  contours_in_image image ->
  shape0 image * shape1 image < 2 ^ 52 ->
  crop_test_strip (Some image) = Ok (out, md) ->
  success md = true ->
  shape1 out < shape0 out /\
  2 * shape0 out <= 33 * shape1 out /\
  shape0 image * shape1 image <= 100 * (shape0 out * shape1 out).
Proof.
  intros Hct Harea Hres Hsucc.
  destruct (success_box_exact image out md Hct Harea Hres Hsucc)
    as (st & x & y & w & h & _ & _ & Hin & _ & E1 & E2 & E3 & E4 & -> & _).
  destruct Hin as (Hx & Hy & Hw & Hh & Hxw & Hyh).
  destruct (margin_bounds w ltac:(lia)) as [Hmw0 Hmw].
  destruct (margin_bounds h ltac:(lia)) as [Hmh0 Hmh].
  destruct (crop_shape image (Z.max 0 (y - h / 20))
              (Z.min (shape0 image) (y + h + h / 20))
              (Z.max 0 (x - w / 20))
              (Z.min (shape1 image) (x + w + w / 20)))
    as [-> ->]; try lia.
  assert (Hcw : w <= Z.min (shape1 image) (x + w + w / 20)
                     - Z.max 0 (x - w / 20) <= w + 2 * (w / 20)) by lia.
  assert (Hch : h <= Z.min (shape0 image) (y + h + h / 20)
                     - Z.max 0 (y - h / 20) <= h + 2 * (h / 20)) by lia.
  set (cw := Z.min (shape1 image) _ - _) in *.
  set (ch := Z.min (shape0 image) _ - _) in *.
  split; [lia|]. split; [lia|].
  assert (Hwh : w * h <= cw * ch) by (apply Z.mul_le_mono_nonneg; lia).
  rewrite (Z.mul_comm ch cw). lia.
Qed.

(** X4: when no contour is taller than wide, nothing is detected: the
    run fails with "No suitable test strip contour found" and returns
    the input. *)
Theorem landscape_never_detected (image : ndarray) :
  size image <> 0 ->
  contours_in_image image ->
  shape0 image * shape1 image < 2 ^ 52 ->
  contours_of image <> [] ->
  all_landscape (contours_of image) ->
  crop_test_strip (Some image)
  = Ok (image,
        failure_metadata image "No suitable test strip contour found").
Proof.
  intros Hsz [Hsides Hall] Harea Hne Hland.
  assert (Hinit : find_best (shape0 image * shape1 image) (contours_of image)
                  = Ok init_state).
  { apply all_rejected_init; [now apply size_image_area|].
    unfold all_landscape in Hland. rewrite Forall_forall in *.
    intros c Hc. apply (landscape_rejected image c Hsides Harea); auto.
    now apply Hland. }
  destruct (crop_test_strip_exits image Hsz)
    as [[Hnil _]|(_ & st & Hst & [[_ Heq]|(box & Hb & _)])].
  - contradiction.
  - exact Heq.
  - rewrite Hinit in Hst. injection Hst as <-. discriminate.
Qed.

(** X5: the dictionary of every return names the input's size and the
    method; the keys [bbox] and [cropped_size] are there together,
    exactly on success, with the same width and height; and the
    message is the success message exactly on success. *)
Theorem metadata_keys (image out : ndarray) (md : metadata) :
  crop_test_strip (Some image) = Ok (out, md) ->
  original_size md = (shape1 image, shape0 image) /\
  detection_method md = "contour_detection"%string /\
  match bbox md, cropped_size md with
  | Some (_, _, bw, bh), Some (cw, ch) =>
      success md = true /\ cw = bw /\ ch = bh /\
      message md = "Test strip successfully detected and cropped"%string
  | None, None =>
      success md = false /\
      (message md = "No contours found in image"%string \/
       message md = "No suitable test strip contour found"%string)
  | _, _ => False
  end.
Proof.
  intros Hres.
  assert (Hsz : size image <> 0).
  { intros Hz. unfold crop_test_strip in Hres. rewrite Hz in Hres.
    discriminate. }
  destruct (crop_test_strip_exits image Hsz)
    as [[_ Heq]|(_ & st & Hst & [[_ Heq]|(box & Hb & Heq)])];
    rewrite Heq in Hres.
  - injection Hres as <- <-. cbn. repeat split; auto.
  - injection Hres as <- <-. cbn. repeat split; auto.
  - destruct (crop_corners_cases (shape1 image) (shape0 image) box)
      as [[[[[x1 y1] x2] y2] Hc]|Hc]; rewrite Hc in Hres; cbn [bind] in Hres;
      [|discriminate].
    injection Hres as <- <-. cbn. repeat split; auto.
Qed.

(** X6: the pixels of a successful crop are the pixels of the input,
    shifted by the corner the dictionary reports: [out[i, j]] is
    [image[y + i, x + j]] for the [bbox] [(x, y, width, height)], and
    the crop is a full [height x width] array. *)
Theorem crop_pixels (image out : ndarray) (md : metadata) :
  rectangular image ->
  contours_in_image image ->
  crop_test_strip (Some image) = Ok (out, md) ->
  success md = true ->
  exists x1 y1 bw bh,
    bbox md = Some (x1, y1, bw, bh) /\
    rectangular out /\ shape1 out = bw /\ shape0 out = bh /\
    forall i j, 0 <= i < bh -> 0 <= j < bw ->
      exists p, pixel_at out i j = Some p /\
                pixel_at image (y1 + i) (x1 + j) = Some p.
Proof.
  intros Hrect Hct Hres Hsucc.
  destruct (success_inv image out md Hres Hsucc Hct)
    as (st & x & y & w & h & _ & _ & Hin & -> & ->).
  destruct Hin as (Hx & Hy & Hw & Hh & Hxw & Hyh).
  destruct (margin_bounds w ltac:(lia)) as [Hmw0 Hmw].
  destruct (margin_bounds h ltac:(lia)) as [Hmh0 Hmh].
  eexists _, _, _, _. split; [reflexivity|].
  split; [apply rectangular_crop; trivial; lia|].
  destruct (crop_shape image (Z.max 0 (y - h / 20))
              (Z.min (shape0 image) (y + h + h / 20))
              (Z.max 0 (x - w / 20))
              (Z.min (shape1 image) (x + w + w / 20)))
    as [E1 E0]; try lia.
  split; [exact E1|]. split; [exact E0|].
  intros i j Hi Hj. apply pixel_at_crop; trivial; lia.
Qed.

(** X7: on a non-empty colour image whose bounding boxes have
    32-bit sides, wherever they lie, [crop_test_strip] raises
    nothing: no division of the loop has a zero divisor, so every
    contour goes through it without [ZeroDivisionError], no margin is
    out of the range of [int()], and a pair is returned. *)
Theorem crop_test_strip_raises_nothing (image : ndarray) :
  size image <> 0 ->
  int_boxes (contours_of image) ->
  Forall (fun c => exists r,
              candidate (shape0 image * shape1 image) c = Ok r)
         (contours_of image) /\
  exists out md, crop_test_strip (Some image) = Ok (out, md).
Proof.
  intros Hsz Hint. split.
  - apply Forall_forall. intros c _.
    apply candidate_total. now apply size_image_area.
  - destruct (crop_test_strip_exits image Hsz)
      as [[_ Heq]|(_ & st & Hst & [[_ Heq]|([[[x y] w] h] & Hb & Heq)])];
      rewrite Heq; eauto.
    destruct (find_best_box _ _ _ _ Hst Hb) as (c & Hin & Hbox).
    unfold int_boxes in Hint. rewrite Forall_forall in Hint.
    specialize (Hint c Hin). rewrite Hbox in Hint. destruct Hint as [Hw Hh].
    rewrite (crop_corners_spec _ _ x y w h Hw Hh). cbn [bind]. eauto.
Qed.

End CropperExtras.

(** * The service *)

(** ** Text and paths *)

Lemma str_eqb_eq (a b : str) : str_eqb a b = true <-> a = b.
Proof.
  revert b. induction a as [|c a IH]; intros [|d b]; cbn [str_eqb];
    try (split; [discriminate|discriminate]); [tauto|].
  rewrite andb_true_iff, N.eqb_eq, IH. split.
  - intros [-> ->]. reflexivity.
  - intros [= -> ->]. auto.
Qed.

Lemma str_split_no_sep (sep : char) (s : str) :
  Forall (fun c => c <> sep) s -> str_split sep s = [s].
Proof.
  induction 1 as [|c s Hc _ IH]; [reflexivity|].
  cbn [str_split]. destruct (N.eqb_spec c sep); [contradiction|].
  now rewrite IH.
Qed.

(** A string with no slash that is neither empty nor a dot is one
    relative component. *)
Lemma parse_path_component (s : str) :
  Forall (fun c => c <> slash) s -> s <> [] -> s <> [dot] ->
  parse_path s = {| anchor := []; parts := [s] |}.
Proof.
  intros Hs Hne Hdot. unfold parse_path.
  assert (Hroot : splitroot s = ([], s)).
  { destruct s as [|c s]; [reflexivity|]. cbn [splitroot].
    inversion Hs; subst. destruct (N.eqb_spec c slash); [contradiction|].
    reflexivity. }
  rewrite Hroot, (str_split_no_sep _ _ Hs). cbn [filter].
  destruct (str_eqb s []) eqn:E1; [apply str_eqb_eq in E1; contradiction|].
  destruct (str_eqb s [dot]) eqn:E2; [apply str_eqb_eq in E2; contradiction|].
  reflexivity.
Qed.

Lemma joinpath_component (p : Path) (s : str) :
  Forall (fun c => c <> slash) s -> s <> [] -> s <> [dot] ->
  joinpath p s = {| anchor := anchor p; parts := parts p ++ [s] |}.
Proof.
  intros Hs Hne Hdot. unfold joinpath.
  now rewrite (parse_path_component s Hs Hne Hdot).
Qed.

Section ServiceFacts.
Context {cv : OpenCV} {rt : Runtime}.

(** What the whitelist keeps is no separator, dot or NUL. *)
Lemma keeps_clean (c : char) :
  keeps c = true ->
  c <> slash /\ c <> backslash /\ c <> dot /\ c <> NUL.
Proof.
  intros H. repeat split; intros ->; vm_compute in H; discriminate.
Qed.

Lemma filter_keeps_id (s : str) :
  Forall (fun c => keeps c = true) s -> filter keeps s = s.
Proof.
  induction 1 as [|c s Hc _ IH]; [reflexivity|].
  cbn [filter]. now rewrite Hc, IH.
Qed.

Lemma filter_keeps_none (s : str) :
  Forall (fun c => keeps c = false) s -> filter keeps s = [].
Proof.
  induction 1 as [|c s Hc _ IH]; [reflexivity|].
  cbn [filter]. now rewrite Hc.
Qed.

Lemma filter_keeps_all (s : str) :
  Forall (fun c => keeps c = true) (filter keeps s).
Proof.
  apply Forall_forall. intros c Hc. now apply filter_In in Hc.
Qed.

Lemma png_name_component (name : str) :
  Forall (fun c => keeps c = true) name ->
  Forall (fun c => c <> slash) (name ++ lit ".png") /\
  name ++ lit ".png" <> [] /\ name ++ lit ".png" <> [dot].
Proof.
  intros Hk. split; [|split].
  - apply Forall_app. split.
    + eapply Forall_impl; [|exact Hk]. intros c Hc. now apply keeps_clean.
    + vm_compute. repeat constructor; discriminate.
  - destruct name; discriminate.
  - destruct name as [|c [|d name]]; discriminate.
Qed.

(** The three checks on the upload, passed. *)
Lemma crop_image_accepted (file : UploadFile) (contents : bytes) :
  accepted file contents ->
  crop_image file =
  match load_image contents with
  | Throw e =>
      if isinstance_ValueError e then HTTPException 400 (exc_str e)
      else Unhandled e
  | Return image =>
      match crop_test_strip (Some image) with
      | Raise e =>
          HTTPException 500
            (lit "Error processing image: " ++ exc_str (Builtin e))
      | Ok (cropped_image, metadata) =>
          match encode_image_to_bytes cropped_image (lit ".png") with
          | None => HTTPException 500 (lit "Error encoding cropped image")
          | Some image_bytes =>
              Sends {| content := image_bytes;
                       media_type := lit "image/png";
                       headers :=
                         [(lit "X-Crop-Success",
                           str_of_bool (success metadata));
                          (lit "X-Crop-Message", lit (message metadata))] |}
          end
      end
  end.
Proof.
  intros (Ht & Hr & Hs). unfold crop_image. rewrite Ht, Hr. cbn [negb].
  destruct (Z.gtb_spec (Z.of_nat (List.length contents)) MAX_FILE_SIZE);
    [lia|reflexivity].
Qed.

Lemma crop_and_save_accepted (w : world) (amb : Ambient) (file : UploadFile)
      (filename : option str) (contents : bytes) :
  accepted file contents ->
  crop_and_save w amb file filename =
  match load_image contents with
  | Throw e =>
      if isinstance_ValueError e then (w, HTTPException 400 (exc_str e))
      else (w, Unhandled e)
  | Return image =>
      match crop_test_strip (Some image) with
      | Raise e =>
          (w, HTTPException 500
                (lit "Error processing image: " ++ exc_str (Builtin e)))
      | Ok (cropped_image, metadata) =>
          let name := safe_filename amb filename in
          let output_path := joinpath OUTPUT_FOLDER (name ++ lit ".png") in
          let '(w', success) :=
            save_image w cropped_image (path_str output_path) in
          if negb success
          then (w', HTTPException 500 (lit "Error saving cropped image"))
          else
            (w', Sends {| body_success := true;
                          saved_to := path_str output_path;
                          body_filename := name ++ lit ".png";
                          detection := metadata |})
      end
  end.
Proof.
  intros (Ht & Hr & Hs). unfold crop_and_save. rewrite Ht, Hr. cbn [negb].
  destruct (Z.gtb_spec (Z.of_nat (List.length contents)) MAX_FILE_SIZE);
    [lia|reflexivity].
Qed.

(** An upload is accepted or turned down with status 400 before it is
    decoded, by both endpoints alike. *)
Lemma upload_checked (file : UploadFile) :
  (exists contents, accepted file contents) \/
  (exists d, crop_image file = HTTPException 400 d /\
             forall w amb filename,
               crop_and_save w amb file filename = (w, HTTPException 400 d)).
Proof.
  unfold accepted, crop_image, crop_and_save.
  destruct (in_ALLOWED_TYPES (content_type file)); cbn [negb];
    [|right; eauto].
  destruct (read file) as [contents|e]; [|right; eauto].
  destruct (Z.gtb_spec (Z.of_nat (List.length contents)) MAX_FILE_SIZE);
    [right; eauto|].
  left. exists contents. auto.
Qed.

Lemma save_image_cases (w : world) (image : ndarray) (filepath : str) :
  fst (save_image w image filepath) = fst (imwrite w filepath image) /\
  (snd (save_image w image filepath) = true <->
   snd (imwrite w filepath image) = Return true).
Proof.
  unfold save_image.
  destruct (imwrite w filepath image) as [w' [[|]|e]]; cbn; split; trivial;
    split; try discriminate; reflexivity.
Qed.

(** A run that does not succeed returns its input. *)
Lemma failure_keeps_input (image out : ndarray) (md : metadata) :
  crop_test_strip (Some image) = Ok (out, md) ->
  success md = false -> out = image.
Proof.
  intros Hres Hfail.
  assert (Hsz : size image <> 0).
  { intros Hz. unfold crop_test_strip in Hres. rewrite Hz in Hres.
    discriminate. }
  destruct (crop_test_strip_exits image Hsz)
    as [[_ Heq]|(_ & st & Hst & [[_ Heq]|(box & Hb & Heq)])];
    rewrite Heq in Hres.
  - now injection Hres as <- <-.
  - now injection Hres as <- <-.
  - destruct (crop_corners_cases (shape1 image) (shape0 image) box)
      as [[[[[x1 y1] x2] y2] Hc]|Hc]; rewrite Hc in Hres; cbn [bind] in Hres;
      [|discriminate].
    injection Hres as <- <-. discriminate.
Qed.

(** Under the extractor's contract a non-empty image is processed
    without an exception. *)
Lemma crop_test_strip_returns (image : ndarray) :
  size image <> 0 -> contours_in_image image ->
  exists out md, crop_test_strip (Some image) = Ok (out, md).
Proof.
  intros Hsz Hct.
  destruct (crop_test_strip_exits image Hsz)
    as [[_ Heq]|(_ & st & Hst & [[_ Heq]|([[[x y] w] h] & Hb & _)])].
  - eauto.
  - eauto.
  - destruct (crop_test_strip_success image st x y w h Hsz Hct Hst Hb)
      as [_ Heq]. eauto.
Qed.

End ServiceFacts.

Section ServiceExtras.
Context {cv : OpenCV} {rt : Runtime}.

(** X8: a given file name keeps its alphanumerics, [-] and [_], all
    of them and in their order, and nothing else: what is left has no
    slash, backslash, dot or NUL, is no longer than the name, and is
    left as it is when sanitised again. *)
Theorem sanitized_name_is_clean (amb : Ambient) (name : str) :
  name <> [] ->
  let safe := safe_filename amb (Some name) in
  safe = filter keeps name /\
  (forall before c after,
      name = before ++ c :: after ->
      safe = filter keeps before
             ++ (if keeps c then [c] else []) ++ filter keeps after) /\
  Forall (fun c => keeps c = true /\ c <> slash /\ c <> backslash
                   /\ c <> dot /\ c <> NUL) safe /\
  (List.length safe <= List.length name)%nat /\
  (safe <> [] -> safe_filename amb (Some safe) = safe) /\
  (Forall (fun c => keeps c = true) name -> safe = name).
Proof.
  intros Hne safe.
  assert (Hsafe : safe = filter keeps name).
  { unfold safe, safe_filename. destruct name; [contradiction|reflexivity]. }
  rewrite Hsafe. split; [reflexivity|]. split; [|split; [|split; [|split]]].
  - intros before c after ->. rewrite filter_app. cbn [filter].
    destruct (keeps c); reflexivity.
  - eapply Forall_impl; [|apply filter_keeps_all].
    intros c Hc. split; [exact Hc|now apply keeps_clean].
  - apply filter_length_le.
  - intros Hs. unfold safe_filename.
    destruct (filter keeps name) as [|c s] eqn:E; [contradiction|].
    rewrite <- E. apply filter_keeps_id, filter_keeps_all.
  - apply filter_keeps_id.
Qed.

(** X9: whatever file name is given, the path written to is
    [OUTPUT_FOLDER] with one more component, the sanitised name with
    [.png]: a name cannot lead out of the output folder. *)
Theorem saved_path_is_child_of_output_folder (amb : Ambient) (name : str) :
  name <> [] ->
  let file_name := safe_filename amb (Some name) ++ lit ".png" in
  joinpath OUTPUT_FOLDER file_name
  = {| anchor := anchor OUTPUT_FOLDER;
       parts := parts OUTPUT_FOLDER ++ [file_name] |} /\
  Forall (fun c => c <> slash) file_name /\
  file_name <> [dot; dot].
Proof.
  intros Hne file_name.
  assert (Hk : Forall (fun c => keeps c = true) (safe_filename amb (Some name))).
  { unfold safe_filename. destruct name; [contradiction|].
    apply filter_keeps_all. }
  destruct (png_name_component _ Hk) as (H1 & H2 & H3).
  split; [now apply joinpath_component|]. split; [exact H1|].
  unfold file_name.
  destruct (safe_filename amb (Some name)) as [|c [|d [|e s]]];
    discriminate.
Qed.

(** X10: the edges of the file name.  With no name, or the empty one,
    the file is [cropped_<timestamp>_<first eight characters of the
    uuid>.png]; with a name of characters outside the whitelist only,
    it is [.png]. *)
Theorem filename_edge_cases (w w' : world) (amb : Ambient)
        (file : UploadFile) (filename : option str) (body : SavedBody) :
  crop_and_save w amb file filename = (w', Sends body) ->
  match filename with
  | None | Some [] =>
      body_filename body
      = lit "cropped_" ++ utcnow_strftime amb ++ lit "_"
        ++ firstn 8 (uuid4_str amb) ++ lit ".png"
  | Some name =>
      body_filename body = filter keeps name ++ lit ".png" /\
      (Forall (fun c => keeps c = false) name ->
       body_filename body = lit ".png")
  end.
Proof.
  intros Hrun.
  assert (Hname : body_filename body = safe_filename amb filename ++ lit ".png").
  { destruct (upload_checked file) as [[contents Hacc]|(d & _ & Hd)].
    - rewrite (crop_and_save_accepted w amb file filename contents Hacc)
        in Hrun.
      destruct (load_image contents) as [image|e];
        [|destruct (isinstance_ValueError e); discriminate].
      destruct (crop_test_strip (Some image)) as [[out md]|e];
        [|discriminate].
      cbv zeta in Hrun.
      destruct (save_image w out _) as [w1 [|]]; cbn [negb] in Hrun;
        [|discriminate].
      now injection Hrun as _ <-.
    - rewrite Hd in Hrun. discriminate. }
  rewrite Hname. destruct filename as [[|c name]|]; cbn [safe_filename].
  - now rewrite <- !app_assoc.
  - split; [reflexivity|]. intros Hall.
    now rewrite (filter_keeps_none _ Hall).
  - now rewrite <- !app_assoc.
Qed.

(** X11: every [HTTPException] of [/crop/save] other than the saving
    error is the one [/crop] raises on the same upload, and nothing
    has been written when it is raised. *)
Theorem save_errors_are_crop_errors (w w' : world) (amb : Ambient)
        (file : UploadFile) (filename : option str)
        (status_code : Z) (detail : str) :
  crop_and_save w amb file filename
  = (w', HTTPException status_code detail) ->
  detail <> lit "Error saving cropped image" ->
  w' = w /\ crop_image file = HTTPException status_code detail.
Proof.
  intros Hrun Hd.
  destruct (upload_checked file) as [[contents Hacc]|(d & Hc & Hs)].
  - rewrite (crop_and_save_accepted w amb file filename contents Hacc)
      in Hrun.
    rewrite (crop_image_accepted file contents Hacc).
    destruct (load_image contents) as [image|e].
    + destruct (crop_test_strip (Some image)) as [[out md]|e].
      * cbv zeta in Hrun.
        destruct (save_image w out _) as [w1 [|]]; cbn [negb] in Hrun;
          [discriminate|].
        injection Hrun as _ _ <-. contradiction.
      * injection Hrun as <- <- <-. auto.
    + destruct (isinstance_ValueError e); [|discriminate].
      injection Hrun as <- <- <-. auto.
  - rewrite Hs in Hrun. injection Hrun as <- <- <-. auto.
Qed.

(** X12: [/crop/save] writes at most once: either nothing is written,
    or [cv2.imwrite] is called once, on what [crop_test_strip]
    returned for the decoded upload, at [OUTPUT_FOLDER] joined with
    the file name. *)
Theorem crop_and_save_writes_at_most_once (w : world) (amb : Ambient)
        (file : UploadFile) (filename : option str) :
  fst (crop_and_save w amb file filename) = w \/
  exists contents image out md,
    accepted file contents /\
    load_image contents = Return image /\
    crop_test_strip (Some image) = Ok (out, md) /\
    fst (crop_and_save w amb file filename)
    = fst (imwrite w
             (path_str (joinpath OUTPUT_FOLDER
                          (safe_filename amb filename ++ lit ".png")))
             out).
Proof.
  destruct (upload_checked file) as [[contents Hacc]|(d & _ & Hs)].
  - rewrite (crop_and_save_accepted w amb file filename contents Hacc).
    destruct (load_image contents) as [image|e] eqn:Hl.
    + destruct (crop_test_strip (Some image)) as [[out md]|e] eqn:Hc.
      * right. exists contents, image, out, md.
        split; [exact Hacc|]. split; [exact Hl|]. split; [exact Hc|].
        cbv zeta.
        pose proof (save_image_cases w out
                      (path_str (joinpath OUTPUT_FOLDER
                                   (safe_filename amb filename ++ lit ".png"))))
          as [Hw _].
        destruct (save_image w out _) as [w1 [|]]; cbn [negb fst] in *;
          exact Hw.
      * now left.
    + left. now destruct (isinstance_ValueError e).
  - left. now rewrite Hs.
Qed.

(** X13: what a [/crop/save] answer says.  Its [success] is [True]
    whatever the detection found; [detection] is the dictionary of
    [crop_test_strip] on the decoded upload; [saved_to] is the path
    [cv2.imwrite] reported written; and when nothing was detected the
    file written is the whole upload. *)
Theorem saved_body_reports (w w' : world) (amb : Ambient)
        (file : UploadFile) (filename : option str) (body : SavedBody) :
  crop_and_save w amb file filename = (w', Sends body) ->
  body_success body = true /\
  saved_to body = path_str (joinpath OUTPUT_FOLDER (body_filename body)) /\
  exists contents image out,
    accepted file contents /\
    load_image contents = Return image /\
    crop_test_strip (Some image) = Ok (out, detection body) /\
    imwrite w (saved_to body) out = (w', Return true) /\
    (success (detection body) = false -> out = image).
Proof.
  intros Hrun.
  destruct (upload_checked file) as [[contents Hacc]|(d & _ & Hs)];
    [|rewrite Hs in Hrun; discriminate].
  rewrite (crop_and_save_accepted w amb file filename contents Hacc) in Hrun.
  destruct (load_image contents) as [image|e] eqn:Hl;
    [|destruct (isinstance_ValueError e); discriminate].
  destruct (crop_test_strip (Some image)) as [[out md]|e] eqn:Hc;
    [|discriminate].
  cbv zeta in Hrun.
  pose proof (save_image_cases w out
                (path_str (joinpath OUTPUT_FOLDER
                             (safe_filename amb filename ++ lit ".png"))))
    as [Hw Hok].
  destruct (save_image w out _) as [w1 [|]]; cbn [negb fst snd] in *;
    [|discriminate].
  injection Hrun as <- <-. cbn [body_success saved_to body_filename detection].
  split; [reflexivity|]. split; [reflexivity|].
  exists contents, image, out.
  split; [exact Hacc|]. split; [exact Hl|]. split; [exact Hc|]. split.
  - destruct (imwrite w _ out) as [w2 r]. cbn [fst snd] in *.
    rewrite Hw. f_equal. now apply Hok.
  - intros Hfail. eapply failure_keeps_input; eauto.
Qed.

(** X14: an accepted upload that decodes to a non-empty image on
    which the extractor keeps its contract is never answered with a
    processing error: [/crop] sends the PNG of what [crop_test_strip]
    returned, with the two [X-Crop] headers read off its dictionary,
    or fails to encode it. *)
Theorem crop_image_on_valid_upload (file : UploadFile) (contents : bytes)
        (image : ndarray) :
  accepted file contents ->
  imdecode contents = Return (Some image) ->
  size image <> 0 ->
  contours_in_image image ->
  exists out md,
    crop_test_strip (Some image) = Ok (out, md) /\
    crop_image file =
    match encode_image_to_bytes out (lit ".png") with
    | Some image_bytes =>
        Sends {| content := image_bytes;
                 media_type := lit "image/png";
                 headers :=
                   [(lit "X-Crop-Success",
                     lit (if success md then "True" else "False"));
                    (lit "X-Crop-Message", lit (message md))] |}
    | None => HTTPException 500 (lit "Error encoding cropped image")
    end.
Proof.
  intros Hacc Hdec Hsz Hct.
  destruct (crop_test_strip_returns image Hsz Hct) as (out & md & Hres).
  exists out, md. split; [exact Hres|].
  rewrite (crop_image_accepted file contents Hacc).
  unfold load_image. rewrite Hdec, Hres.
  destruct (encode_image_to_bytes out (lit ".png")); reflexivity.
Qed.

(** X15: a detection that fails is not an error of [/crop]: when no
    strip is found and the encoder works, the answer is the PNG of
    the whole upload with [X-Crop-Success: False] and the reason as
    [X-Crop-Message]. *)
Theorem detection_failure_is_answered (file : UploadFile) (contents : bytes)
        (image out : ndarray) (md : metadata) (png : bytes) :
  accepted file contents ->
  imdecode contents = Return (Some image) ->
  crop_test_strip (Some image) = Ok (out, md) ->
  success md = false ->
  imencode (lit ".png") image = Return (true, png) ->
  crop_image file
  = Sends {| content := png;
             media_type := lit "image/png";
             headers := [(lit "X-Crop-Success", lit "False");
                         (lit "X-Crop-Message", lit (message md))] |} /\
  (message md = "No contours found in image"%string \/
   message md = "No suitable test strip contour found"%string).
Proof.
  intros Hacc Hdec Hres Hfail Henc.
  pose proof (failure_keeps_input image out md Hres Hfail) as ->.
  split.
  - rewrite (crop_image_accepted file contents Hacc).
    unfold load_image. rewrite Hdec, Hres.
    unfold encode_image_to_bytes. rewrite Henc, Hfail. reflexivity.
  - assert (Hsz : size image <> 0).
    { intros Hz. unfold crop_test_strip in Hres. rewrite Hz in Hres.
      discriminate. }
    destruct (crop_test_strip_exits image Hsz)
      as [[_ Heq]|(_ & st & Hst & [[_ Heq]|(box & Hb & Heq)])];
      rewrite Heq in Hres.
    + injection Hres as <-. now left.
    + injection Hres as <-. now right.
    + destruct (crop_corners_cases (shape1 image) (shape0 image) box)
        as [[[[[x1 y1] x2] y2] Hc]|Hc]; rewrite Hc in Hres;
        cbn [bind] in Hres; [|discriminate].
      injection Hres as _ <-. discriminate.
Qed.

(** X16: an upload of more than 10 MiB (10485760 bytes) of an allowed
    type is turned down by both endpoints with status 400 and "File
    too large. Maximum size: 10 MB", before it is decoded and with
    nothing written. *)
Theorem too_large_upload_rejected (w : world) (amb : Ambient)
        (file : UploadFile) (filename : option str) (contents : bytes) :
  in_ALLOWED_TYPES (content_type file) = true ->
  read file = Return contents ->
  10485760 < Z.of_nat (List.length contents) ->
  crop_image file
  = HTTPException 400 (lit "File too large. Maximum size: 10 MB") /\
  crop_and_save w amb file filename
  = (w, HTTPException 400 (lit "File too large. Maximum size: 10 MB")).
Proof.
  intros Ht Hr Hlen. unfold crop_image, crop_and_save.
  rewrite Ht, Hr. cbn [negb].
  destruct (Z.gtb_spec (Z.of_nat (List.length contents)) MAX_FILE_SIZE)
    as [_|Hle]; [split; reflexivity|].
  change MAX_FILE_SIZE with 10485760 in Hle. lia.
Qed.

(** X17: an accepted upload that does not decode.  When
    [cv2.imdecode] returns [None], both endpoints answer 400 with
    "Could not decode image. Ensure it's a valid image file."; when
    it raises, a [ValueError] becomes a 400 with its text and any
    other exception is not handled; nothing is written. *)
Theorem decode_failures (w : world) (amb : Ambient) (file : UploadFile)
        (filename : option str) (contents : bytes) :
  accepted file contents ->
  match imdecode contents with
  | Return (Some _) => True
  | Return None =>
      crop_image file
      = HTTPException 400
          (lit "Could not decode image. Ensure it's a valid image file.") /\
      crop_and_save w amb file filename
      = (w, HTTPException 400
              (lit "Could not decode image. Ensure it's a valid image file."))
  | Throw e =>
      if isinstance_ValueError e
      then crop_image file = HTTPException 400 (exc_str e) /\
           crop_and_save w amb file filename
           = (w, HTTPException 400 (exc_str e))
      else crop_image file = Unhandled e /\
           crop_and_save w amb file filename = (w, Unhandled e)
  end.
Proof.
  intros Hacc.
  rewrite (crop_image_accepted file contents Hacc).
  rewrite (crop_and_save_accepted w amb file filename contents Hacc).
  unfold load_image.
  destruct (imdecode contents) as [[image|]|e]; [exact I|split; reflexivity|].
  destruct (isinstance_ValueError e); split; reflexivity.
Qed.

(** X18: the two endpoints agree on one upload: when both answer,
    the PNG that [/crop] sends encodes the very array that
    [/crop/save] wrote, and the two [X-Crop] headers say what the
    [detection] entry says. *)
Theorem endpoints_agree_on_crop (w w' : world) (amb : Ambient)
        (file : UploadFile) (filename : option str)
        (r : Response) (body : SavedBody) :
  crop_image file = Sends r ->
  crop_and_save w amb file filename = (w', Sends body) ->
  exists out,
    imwrite w (saved_to body) out = (w', Return true) /\
    imencode (lit ".png") out = Return (true, content r) /\
    headers r
    = [(lit "X-Crop-Success", str_of_bool (success (detection body)));
       (lit "X-Crop-Message", lit (message (detection body)))].
Proof.
  intros Hcrop Hsave.
  destruct (upload_checked file) as [[contents Hacc]|(d & Hc & _)];
    [|rewrite Hc in Hcrop; discriminate].
  rewrite (crop_image_accepted file contents Hacc) in Hcrop.
  rewrite (crop_and_save_accepted w amb file filename contents Hacc)
    in Hsave.
  destruct (load_image contents) as [image|e];
    [|destruct (isinstance_ValueError e); discriminate].
  destruct (crop_test_strip (Some image)) as [[out md]|e]; [|discriminate].
  cbv zeta in Hsave.
  pose proof (save_image_cases w out
                (path_str (joinpath OUTPUT_FOLDER
                             (safe_filename amb filename ++ lit ".png"))))
    as [Hw Hok].
  destruct (save_image w out _) as [w1 [|]]; cbn [negb fst snd] in *;
    [|discriminate].
  injection Hsave as <- <-. cbn [saved_to detection].
  exists out. split.
  - destruct (imwrite w _ out) as [w2 res]. cbn [fst snd] in *.
    rewrite Hw. f_equal. now apply Hok.
  - unfold encode_image_to_bytes in Hcrop.
    destruct (imencode (lit ".png") out) as [[[|] png]|e];
      try discriminate.
    injection Hcrop as <-. cbn [content headers]. auto.
Qed.

End ServiceExtras.

(** * Further properties on concrete runs *)

Lemma find_best_ignores_rejected_witness :
  @find_best RefRuntime.speck_cv 1500 [RefRuntime.speck; RefCV.demo_strip]
  = @find_best RefRuntime.speck_cv 1500
      (filter (@passes RefRuntime.speck_cv 1500)
              [RefRuntime.speck; RefCV.demo_strip]) /\
  filter (@passes RefRuntime.speck_cv 1500)
         [RefRuntime.speck; RefCV.demo_strip] = [RefCV.demo_strip].
Proof.
  split; [|vm_compute; reflexivity].
  apply (@find_best_ignores_rejected RefRuntime.speck_cv 1500
           [RefRuntime.speck; RefCV.demo_strip]).
  discriminate.
Defined.

Lemma selected_box_within_thresholds_witness :
  exists st c x y w h,
    @find_best RefCV.demo_cv
      (shape0 RefCV.demo_image * shape1 RefCV.demo_image)
      (@contours_of RefCV.demo_cv RefCV.demo_image) = Ok st /\
    fst st = Some (x, y, w, h) /\
    In c (@contours_of RefCV.demo_cv RefCV.demo_image) /\
    @boundingRect RefCV.demo_cv c = (x, y, w, h) /\
    bbox RefCV.demo_metadata
    = Some (Z.max 0 (x - w / 20), Z.max 0 (y - h / 20),
            Z.min (shape1 RefCV.demo_image) (x + w + w / 20)
            - Z.max 0 (x - w / 20),
            Z.min (shape0 RefCV.demo_image) (y + h + h / 20)
            - Z.max 0 (y - h / 20)) /\
    RefCV.demo_crop
    = crop RefCV.demo_image (Z.max 0 (y - h / 20))
           (Z.min (shape0 RefCV.demo_image) (y + h + h / 20))
           (Z.max 0 (x - w / 20))
           (Z.min (shape1 RefCV.demo_image) (x + w + w / 20)) /\
    shape0 RefCV.demo_image * shape1 RefCV.demo_image <= 100 * (w * h) /\
    100 * (w * h) <= 95 * (shape0 RefCV.demo_image * shape1 RefCV.demo_image)
    /\ 3 * w <= 2 * h /\ h <= 15 * w.
Proof.
  apply (@selected_box_within_thresholds RefCV.demo_cv RefCV.demo_image
           RefCV.demo_crop RefCV.demo_metadata).
  - contract.
  - vm_compute. reflexivity.
  - vm_compute. reflexivity.
  - reflexivity.
Defined.

Lemma successful_crop_is_portrait_witness :
  shape1 RefCV.demo_crop < shape0 RefCV.demo_crop /\
  2 * shape0 RefCV.demo_crop <= 33 * shape1 RefCV.demo_crop /\
  shape0 RefCV.demo_image * shape1 RefCV.demo_image
  <= 100 * (shape0 RefCV.demo_crop * shape1 RefCV.demo_crop).
Proof.
  apply (@successful_crop_is_portrait RefCV.demo_cv RefCV.demo_image
           RefCV.demo_crop RefCV.demo_metadata).
  - contract.
  - vm_compute. reflexivity.
  - vm_compute. reflexivity.
  - reflexivity.
Defined.

Lemma landscape_never_detected_witness :
  @crop_test_strip RefRuntime.lying_cv (Some RefCV.demo_image)
  = Ok (RefCV.demo_image,
        failure_metadata RefCV.demo_image
                         "No suitable test strip contour found").
Proof.
  apply (@landscape_never_detected RefRuntime.lying_cv RefCV.demo_image).
  - discriminate.
  - contract.
  - vm_compute. reflexivity.
  - discriminate.
  - unfold all_landscape. vm_compute. repeat constructor. discriminate.
Defined.

Lemma crop_test_strip_raises_nothing_witness :
  Forall (fun c => exists r,
              @candidate RefEdge.overhang_cv
                (shape0 RefCV.demo_image * shape1 RefCV.demo_image) c = Ok r)
         (@contours_of RefEdge.overhang_cv RefCV.demo_image) /\
  exists out md,
    @crop_test_strip RefEdge.overhang_cv (Some RefCV.demo_image)
    = Ok (out, md).
Proof.
  apply (@crop_test_strip_raises_nothing RefEdge.overhang_cv
           RefCV.demo_image).
  - discriminate.
  - unfold int_boxes. constructor; [|constructor].
    change (2 ^ 31) with 2147483648. cbn. lia.
Defined.

Lemma metadata_keys_witness :
  original_size RefCV.demo_metadata
  = (shape1 RefCV.demo_image, shape0 RefCV.demo_image) /\
  detection_method RefCV.demo_metadata = "contour_detection"%string /\
  match bbox RefCV.demo_metadata, cropped_size RefCV.demo_metadata with
  | Some (_, _, bw, bh), Some (cw, ch) =>
      success RefCV.demo_metadata = true /\ cw = bw /\ ch = bh /\
      message RefCV.demo_metadata
      = "Test strip successfully detected and cropped"%string
  | None, None =>
      success RefCV.demo_metadata = false /\
      (message RefCV.demo_metadata = "No contours found in image"%string \/
       message RefCV.demo_metadata
       = "No suitable test strip contour found"%string)
  | _, _ => False
  end.
Proof.
  apply (@metadata_keys RefCV.demo_cv RefCV.demo_image RefCV.demo_crop
           RefCV.demo_metadata).
  vm_compute. reflexivity.
Defined.

Lemma crop_pixels_witness :
  exists x1 y1 bw bh,
    bbox RefCV.demo_metadata = Some (x1, y1, bw, bh) /\
    rectangular RefCV.demo_crop /\
    shape1 RefCV.demo_crop = bw /\ shape0 RefCV.demo_crop = bh /\
    forall i j, 0 <= i < bh -> 0 <= j < bw ->
      exists p, pixel_at RefCV.demo_crop i j = Some p /\
                pixel_at RefCV.demo_image (y1 + i) (x1 + j) = Some p.
Proof.
  apply (@crop_pixels RefCV.demo_cv RefCV.demo_image RefCV.demo_crop
           RefCV.demo_metadata).
  - unfold rectangular. vm_compute. repeat constructor.
  - contract.
  - vm_compute. reflexivity.
  - reflexivity.
Defined.

Lemma sanitized_name_is_clean_witness :
  @safe_filename RefRuntime.posix RefRuntime.noon
    (Some (lit "../../etc/passwd"))
  = filter (@keeps RefRuntime.posix) (lit "../../etc/passwd") /\
  (forall before c after,
      lit "../../etc/passwd" = before ++ c :: after ->
      @safe_filename RefRuntime.posix RefRuntime.noon
        (Some (lit "../../etc/passwd"))
      = filter (@keeps RefRuntime.posix) before
        ++ (if @keeps RefRuntime.posix c then [c] else [])
        ++ filter (@keeps RefRuntime.posix) after) /\
  Forall (fun c => @keeps RefRuntime.posix c = true /\ c <> slash
                   /\ c <> backslash /\ c <> dot /\ c <> NUL)
         (@safe_filename RefRuntime.posix RefRuntime.noon
            (Some (lit "../../etc/passwd"))) /\
  (List.length (@safe_filename RefRuntime.posix RefRuntime.noon
                  (Some (lit "../../etc/passwd")))
   <= List.length (lit "../../etc/passwd"))%nat /\
  (@safe_filename RefRuntime.posix RefRuntime.noon
     (Some (lit "../../etc/passwd")) <> [] ->
   @safe_filename RefRuntime.posix RefRuntime.noon
     (Some (@safe_filename RefRuntime.posix RefRuntime.noon
              (Some (lit "../../etc/passwd"))))
   = @safe_filename RefRuntime.posix RefRuntime.noon
       (Some (lit "../../etc/passwd"))) /\
  (Forall (fun c => @keeps RefRuntime.posix c = true)
          (lit "../../etc/passwd") ->
   @safe_filename RefRuntime.posix RefRuntime.noon
     (Some (lit "../../etc/passwd")) = lit "../../etc/passwd").
Proof.
  apply (@sanitized_name_is_clean RefRuntime.posix RefRuntime.noon
           (lit "../../etc/passwd")).
  discriminate.
Defined.

Lemma saved_path_is_child_of_output_folder_witness :
  joinpath (@OUTPUT_FOLDER RefRuntime.posix)
    (@safe_filename RefRuntime.posix RefRuntime.noon
       (Some (lit "../../etc/passwd")) ++ lit ".png")
  = {| anchor := anchor (@OUTPUT_FOLDER RefRuntime.posix);
       parts := parts (@OUTPUT_FOLDER RefRuntime.posix)
                ++ [@safe_filename RefRuntime.posix RefRuntime.noon
                      (Some (lit "../../etc/passwd")) ++ lit ".png"] |} /\
  Forall (fun c => c <> slash)
    (@safe_filename RefRuntime.posix RefRuntime.noon
       (Some (lit "../../etc/passwd")) ++ lit ".png") /\
  @safe_filename RefRuntime.posix RefRuntime.noon
    (Some (lit "../../etc/passwd")) ++ lit ".png" <> [dot; dot].
Proof.
  apply (@saved_path_is_child_of_output_folder RefRuntime.posix
           RefRuntime.noon (lit "../../etc/passwd")).
  discriminate.
Defined.

Lemma filename_edge_cases_witness :
  exists w' body,
    @crop_and_save RefCV.blank_cv RefRuntime.posix [] RefRuntime.noon
      RefRuntime.demo_upload (Some (lit "../")) = (w', Sends body) /\
    body_filename body = filter (@keeps RefRuntime.posix) (lit "../")
                         ++ lit ".png" /\
    (Forall (fun c => @keeps RefRuntime.posix c = false) (lit "../") ->
     body_filename body = lit ".png").
Proof.
  eexists _, _. split; [vm_compute; reflexivity|].
  eapply (@filename_edge_cases RefCV.blank_cv RefRuntime.posix [] _
           RefRuntime.noon RefRuntime.demo_upload (Some (lit "../")) _).
  vm_compute. reflexivity.
Defined.

Lemma save_errors_are_crop_errors_witness :
  (@nil (str * ndarray)) = [] /\
  @crop_image RefCV.blank_cv RefRuntime.posix RefRuntime.untyped_upload
  = HTTPException 400
      (lit "Invalid file type: None. Allowed: image/png, image/bmp, image/jpeg, image/webp").
Proof.
  apply (@save_errors_are_crop_errors RefCV.blank_cv RefRuntime.posix [] []
           RefRuntime.noon RefRuntime.untyped_upload None).
  - vm_compute. reflexivity.
  - vm_compute. discriminate.
Defined.

Lemma saved_body_reports_witness :
  exists w' body,
    @crop_and_save RefCV.blank_cv RefRuntime.posix [] RefRuntime.noon
      RefRuntime.demo_upload (Some (lit "strip-01")) = (w', Sends body) /\
    success (detection body) = false /\
    body_success body = true /\
    saved_to body
    = path_str (joinpath (@OUTPUT_FOLDER RefRuntime.posix)
                         (body_filename body)) /\
    exists contents image out,
      accepted RefRuntime.demo_upload contents /\
      @load_image RefRuntime.posix contents = Return image /\
      @crop_test_strip RefCV.blank_cv (Some image)
      = Ok (out, detection body) /\
      @imwrite RefRuntime.posix [] (saved_to body) out = (w', Return true) /\
      (success (detection body) = false -> out = image).
Proof.
  eexists _, _. split; [vm_compute; reflexivity|].
  split; [reflexivity|].
  eapply (@saved_body_reports RefCV.blank_cv RefRuntime.posix [] _
           RefRuntime.noon RefRuntime.demo_upload (Some (lit "strip-01")) _).
  vm_compute. reflexivity.
Defined.

Lemma crop_image_on_valid_upload_witness :
  exists out md,
    @crop_test_strip RefCV.demo_cv (Some RefCV.demo_image) = Ok (out, md) /\
    @crop_image RefCV.demo_cv RefRuntime.posix RefRuntime.demo_upload =
    match @encode_image_to_bytes RefRuntime.posix out (lit ".png") with
    | Some image_bytes =>
        Sends {| content := image_bytes;
                 media_type := lit "image/png";
                 headers :=
                   [(lit "X-Crop-Success",
                     lit (if success md then "True" else "False"));
                    (lit "X-Crop-Message", lit (message md))] |}
    | None => HTTPException 500 (lit "Error encoding cropped image")
    end.
Proof.
  apply (@crop_image_on_valid_upload RefCV.demo_cv RefRuntime.posix
           RefRuntime.demo_upload [Byte.x1e; Byte.x32] RefCV.demo_image).
  - upload.
  - reflexivity.
  - discriminate.
  - contract.
Defined.

Lemma detection_failure_is_answered_witness :
  @crop_image RefCV.blank_cv RefRuntime.posix RefRuntime.demo_upload
  = Sends {| content := [Byte.x1e; Byte.x32];
             media_type := lit "image/png";
             headers :=
               [(lit "X-Crop-Success", lit "False");
                (lit "X-Crop-Message",
                 lit (message (failure_metadata RefCV.demo_image
                                 "No contours found in image")))] |} /\
  (message (failure_metadata RefCV.demo_image "No contours found in image")
   = "No contours found in image"%string \/
   message (failure_metadata RefCV.demo_image "No contours found in image")
   = "No suitable test strip contour found"%string).
Proof.
  apply (@detection_failure_is_answered RefCV.blank_cv RefRuntime.posix
           RefRuntime.demo_upload [Byte.x1e; Byte.x32] RefCV.demo_image
           RefCV.demo_image).
  - upload.
  - reflexivity.
  - vm_compute. reflexivity.
  - reflexivity.
  - reflexivity.
Defined.

Lemma too_large_upload_rejected_witness :
  @crop_image RefCV.blank_cv RefRuntime.posix RefRuntime.big_upload
  = HTTPException 400 (lit "File too large. Maximum size: 10 MB") /\
  @crop_and_save RefCV.blank_cv RefRuntime.posix [] RefRuntime.noon
    RefRuntime.big_upload None
  = ([], HTTPException 400 (lit "File too large. Maximum size: 10 MB")).
Proof.
  apply (@too_large_upload_rejected RefCV.blank_cv RefRuntime.posix []
           RefRuntime.noon RefRuntime.big_upload None
           (repeat Byte.x00 (Z.to_nat 10485761))).
  - reflexivity.
  - reflexivity.
  - rewrite repeat_length, Z2Nat.id; lia.
Defined.

Lemma decode_failures_witness :
  @crop_image RefCV.blank_cv RefRuntime.posix RefRuntime.garbled_upload
  = HTTPException 400
      (lit "Could not decode image. Ensure it's a valid image file.") /\
  @crop_and_save RefCV.blank_cv RefRuntime.posix [] RefRuntime.noon
    RefRuntime.garbled_upload None
  = ([], HTTPException 400
           (lit "Could not decode image. Ensure it's a valid image file.")).
Proof.
  apply (@decode_failures RefCV.blank_cv RefRuntime.posix [] RefRuntime.noon
           RefRuntime.garbled_upload None [Byte.x00; Byte.x00; Byte.x00]).
  upload.
Defined.

Lemma endpoints_agree_on_crop_witness :
  exists r w' body out,
    @crop_image RefCV.demo_cv RefRuntime.posix RefRuntime.demo_upload
    = Sends r /\
    @crop_and_save RefCV.demo_cv RefRuntime.posix [] RefRuntime.noon
      RefRuntime.demo_upload (Some (lit "strip-01")) = (w', Sends body) /\
    @imwrite RefRuntime.posix [] (saved_to body) out = (w', Return true) /\
    @imencode RefRuntime.posix (lit ".png") out = Return (true, content r) /\
    headers r
    = [(lit "X-Crop-Success", str_of_bool (success (detection body)));
       (lit "X-Crop-Message", lit (message (detection body)))].
Proof.
  set (r := {| content := [Byte.x05; Byte.x20];
               media_type := lit "image/png";
               headers :=
                 [(lit "X-Crop-Success", lit "True");
                  (lit "X-Crop-Message",
                   lit "Test strip successfully detected and cropped")] |}).
  set (path := lit "/workspace/output/strip-01.png").
  set (body := {| body_success := true;
                  saved_to := path;
                  body_filename := lit "strip-01.png";
                  detection := RefCV.demo_metadata |}).
  assert (Hcrop : @crop_image RefCV.demo_cv RefRuntime.posix
                    RefRuntime.demo_upload = Sends r)
    by (vm_compute; reflexivity).
  assert (Hsave : @crop_and_save RefCV.demo_cv RefRuntime.posix []
                    RefRuntime.noon RefRuntime.demo_upload
                    (Some (lit "strip-01"))
                  = ([(path, RefCV.demo_crop)], Sends body))
    by (vm_compute; reflexivity).
  destruct (@endpoints_agree_on_crop RefCV.demo_cv RefRuntime.posix []
              [(path, RefCV.demo_crop)] RefRuntime.noon
              RefRuntime.demo_upload (Some (lit "strip-01")) r body
              Hcrop Hsave)
    as (out & H1 & H2 & H3).
  exists r, [(path, RefCV.demo_crop)], body, out.
  split; [exact Hcrop|]. split; [exact Hsave|].
  split; [exact H1|]. split; [exact H2|exact H3].
Defined.
